(** * Copy-trading engine: sizing, replication, reconciliation, dispatch

    A shallow embedding of the Python sources

      - [utils/calculator.py]            (proportional sizing, leverage elevation)
      - [utils/helpers.py]               (symbol canonicalisation, key file)
      - [services/replication_service.py] (fan-out of one leader order)
      - [services/sync_service.py]       (orphan close, late join)
      - [services/command_executor.py]   (leader command handlers)
      - [core/exchange_manager.py]       (adapter pool)

    Modelling conventions.

      - A Python [float] or [int] used as a quantity is an exact rational
        ([Q]); [int(x)] is truncation toward zero and yields a [Z].
        Rounding error, infinities and NaN are outside the model.
      - A [dict] key that may be absent, and a value that may be [None], is an
        [option].  Python truthiness is written out ([truthy], [opt_truthy]).
      - An exchange adapter is a record of response functions.  Every adapter
        method may raise; a coroutine is a computation in the monad [M], which
        logs the adapter calls it makes, in order, and either returns a value
        or raises.  [try_except] is [try: ... except Exception: ...].
      - A [str] is a sequence of one-byte characters; [upper] and [strip]
        act on ASCII letters and ASCII whitespace, and leave characters of
        code 128 and above alone. *)

From Stdlib Require Import ZArith QArith Qround Qabs Lqa Lia List String Ascii Bool.
Import ListNotations.

Set Implicit Arguments.

(* ------------------------------------------------------------------ *)
(** * Python numbers *)

Module PyNum.

Open Scope Q_scope.

(** [a < b] on floats. *)
Definition Qltb (a b : Q) : bool := negb (Qle_bool b a).

(** Truthiness of a number: [0] and [0.0] are falsy. *)
Definition truthy (q : Q) : bool := negb (Qeq_bool q 0).

(** Truthiness of an optional number: [None] is falsy as well. *)
Definition opt_truthy (o : option Q) : bool :=
  match o with
  | Some q => truthy q
  | None => false
  end.

(** [x or y] where [x] may be [None]. *)
Definition py_or (x : option Q) (y : Q) : Q :=
  match x with
  | Some q => if truthy q then q else y
  | None => y
  end.

(** [int(x)]: truncation toward zero. *)
Definition py_int (q : Q) : Z := Z.quot (Qnum q) (Zpos (Qden q)).

End PyNum.

Import PyNum.

(* ------------------------------------------------------------------ *)
(** * Data model ([models/position.py], [models/order.py]) *)

Inductive PositionSide := Long | Short.
Inductive OrderSide := Buy | Sell | UnknownSide.
Inductive OrderStatus := StOpen | StClosed | StFailed | StCanceled | StUnknown.
Inductive OrderType := Market | Limit | StopLimit | PostOnly.
Inductive MarginMode := Isolated | Cross.

(** The two keys of [Position.raw_data] the engine reads. *)
Record PositionRaw := {
  is_placeholder_for_close : bool;
  closed_amount : option Q
}.

Definition no_raw : PositionRaw :=
  {| is_placeholder_for_close := false; closed_amount := None |}.

Record Position := {
  pos_symbol : string;
  pos_side : PositionSide;
  pos_contracts : Q;
  pos_entry_price : Q;
  pos_mark_price : Q;
  pos_leverage : Z;
  pos_unrealized_pnl : Q;
  pos_timestamp_ms : option Z;
  pos_raw_data : PositionRaw
}.

(** [raw_data] of an order: the two places a reduce-only flag may sit, and
    the leverage recorded under [command_details] ([None]: no such key;
    [Some None]: the key holds [None]). *)
Record OrderRaw := {
  info_reduceOnly : bool;
  params_reduceOnly : bool;
  command_details_leverage : option (option Q)
}.

Definition empty_raw : OrderRaw :=
  {| info_reduceOnly := false; params_reduceOnly := false;
     command_details_leverage := None |}.

(** The messages the engine itself puts in [Order.error_message]; what an
    exchange reports is [MsgExchange]. *)
Inductive ErrorMessage :=
| MsgLeverageNotSet (symbol : string) (leverage : Z)
| MsgAmountNotAdjustable (symbol : string) (amount : Q)
| MsgNoPositionToScale (symbol : string)
| MsgInvalidScaleOut (amount : Q)
| MsgScaleOutNotAdjustable (symbol : string)
| MsgExchange (text : string).

Record Order := {
  ord_id : option string;
  ord_symbol : string;
  ord_side : OrderSide;
  ord_amount : Q;
  ord_price : option Q;
  ord_status : OrderStatus;
  ord_order_type : option OrderType;
  ord_filled : Q;
  ord_average_price : option Q;
  ord_exchange_id : option string;
  ord_error_message : option ErrorMessage;
  ord_raw_data : OrderRaw
}.

(** The [params] dictionary handed to [place_order]. *)
Record Params := {
  p_reduceOnly : option bool;
  p_post_only : bool;
  p_command_details : option (option Q)
}.

Definition no_params : Params :=
  {| p_reduceOnly := None; p_post_only := false; p_command_details := None |}.

(** The arguments of one [place_order] call.  The amount is whatever
    [normalize_amount] gave, which the interface allows to be [None]. *)
Record OrderRequest := {
  req_symbol : string;
  req_order_type : OrderType;
  req_side : OrderSide;
  req_amount : option Q;
  req_price : option Q;
  req_params : Params
}.

(** [market_info]: the [limits] dictionary of a market. *)
Record MarketLimits := {
  cost_min : option Q;
  amount_min : option Q
}.

Record Ticker := {
  last : option Q;
  markPrice : option Q
}.

(* ------------------------------------------------------------------ *)
(** * Coroutines: adapter calls, exceptions *)

Inductive outcome (A : Type) : Type :=
| Ret (a : A)
| Raise.
Arguments Raise {A}.

Inductive Call :=
| Call_get_market_info (symbol : string)
| Call_get_ticker (symbol : string)
| Call_normalize_amount (symbol : string) (amount : Q)
| Call_set_leverage (symbol : string) (leverage : Z) (margin_mode : MarginMode)
| Call_get_positions (symbols : option (list string))
| Call_get_total_account_value_usdt
| Call_place_order (request : OrderRequest).

(** [interfaces/exchange_adapter_interface.py]: what each method answers. *)
Record Adapter := {
  exchange_id : string;
  ad_get_market_info : string -> outcome (option MarketLimits);
  ad_get_ticker : string -> outcome Ticker;
  ad_normalize_amount : string -> Q -> outcome (option Q);
  ad_set_leverage : string -> Z -> MarginMode -> outcome bool;
  ad_get_positions : option (list string) -> outcome (list Position);
  ad_get_total_account_value_usdt : outcome (option Q);
  ad_place_order : OrderRequest -> outcome Order
}.

Definition M (A : Type) : Type := (list Call * outcome A)%type.

Definition ret {A} (a : A) : M A := ([], Ret a).

Definition lift {A} (o : outcome A) : M A := ([], o).

Definition bind {A B} (m : M A) (f : A -> M B) : M B :=
  match m with
  | (t, Ret a) => let (t', r) := f a in (t ++ t', r)
  | (t, Raise) => (t, Raise)
  end.

Definition try_except {A} (m : M A) (handler : M A) : M A :=
  match m with
  | (t, Raise) => let (t', r) := handler in (t ++ t', r)
  | (t, Ret a) => (t, Ret a)
  end.

Definition trace {A} (m : M A) : list Call := fst m.
Definition result {A} (m : M A) : outcome A := snd m.

(** The orders a log holds, in the order they were placed. *)
Definition placed_orders (t : list Call) : list OrderRequest :=
  flat_map (fun c => match c with
                     | Call_place_order r => [r]
                     | _ => []
                     end) t.

Declare Scope py_scope.
Delimit Scope py_scope with py.
Notation "x <- m ;; k" := (bind m (fun x => k))
  (at level 61, m at next level, right associativity) : py_scope.
Notation "m ;;; k" := (bind m (fun _ => k))
  (at level 61, right associativity) : py_scope.

(** The awaited adapter methods. *)
Definition get_market_info (ad : Adapter) (s : string) : M (option MarketLimits) :=
  ([Call_get_market_info s], ad_get_market_info ad s).
Definition get_ticker (ad : Adapter) (s : string) : M Ticker :=
  ([Call_get_ticker s], ad_get_ticker ad s).
Definition normalize_amount (ad : Adapter) (s : string) (a : Q) : M (option Q) :=
  ([Call_normalize_amount s a], ad_normalize_amount ad s a).
Definition set_leverage (ad : Adapter) (s : string) (l : Z) (mm : MarginMode) : M bool :=
  ([Call_set_leverage s l mm], ad_set_leverage ad s l mm).
Definition get_positions (ad : Adapter) (f : option (list string)) : M (list Position) :=
  ([Call_get_positions f], ad_get_positions ad f).
Definition get_total_account_value_usdt (ad : Adapter) : M (option Q) :=
  ([Call_get_total_account_value_usdt], ad_get_total_account_value_usdt ad).
Definition place_order (ad : Adapter) (r : OrderRequest) : M Order :=
  ([Call_place_order r], ad_place_order ad r).

(** The adapter contract on [normalize_amount] (specification, 4.1): the
    normalized amount is never above the amount given. *)
Definition rounds_down (ad : Adapter) : Prop :=
  forall s a n, ad_normalize_amount ad s a = Ret (Some n) -> (n <= a)%Q.

(** [a / b], raising [ZeroDivisionError]. *)
Definition py_div (a b : Q) : outcome Q :=
  if Qeq_bool b 0 then Raise else Ret (a / b)%Q.

(* ------------------------------------------------------------------ *)
(** * Sizing calculator ([utils/calculator.py]) *)

Module Calculator.

Open Scope Q_scope.
Open Scope py_scope.

Definition FOLLOWER_MAX_LEVERAGE : Z := 50.
Definition FOLLOWER_BUDGET_USAGE_PERCENT : Q := 0.90.

Record CalcResult := {
  res_amount : Q;
  res_leverage : Z
}.

(** Line 54: [float(ticker.get('last') or leader_position.mark_price)]. *)
Definition calc_price_of (ticker : Ticker) (leader_position : Position) : Q :=
  py_or (last ticker) (pos_mark_price leader_position).

(** Lines 62-73: the proportional amount.  A leverage of [None] is a
    [TypeError] at line 63, a leverage of zero a [ZeroDivisionError]. *)
Definition proportional_amount_of (leader_position : Position)
    (follower_total_value leader_total_value : Q)
    (leader_intended_leverage : option Q) (calc_price : Q) : outcome Q :=
  match leader_intended_leverage with
  | None => Raise
  | Some lev =>
    let leader_position_notional :=
      pos_contracts leader_position * pos_entry_price leader_position in
    match py_div leader_position_notional lev with
    | Raise => Raise
    | Ret leader_margin_used =>
      let leader_margin_ratio :=
        if Qltb 0 leader_total_value
        then leader_margin_used / leader_total_value else 0 in
      let proportional_follower_margin :=
        follower_total_value * leader_margin_ratio in
      let proportional_follower_notional :=
        proportional_follower_margin * lev in
      Ret (if Qltb 0 calc_price
           then proportional_follower_notional / calc_price else 0)
    end
  end.

(** Lines 78-87: raise the amount to the exchange minimums. *)
Definition lift_to_limits (min_amount min_cost : option Q)
    (calc_price proportional_amount : Q) : Q :=
  let amount_for_min_cost :=
    match min_cost with
    | Some mc =>
      if truthy mc && Qltb 0 calc_price then (mc / calc_price) * 1.05 else 0
    | None => 0
    end in
  let effective_amount := proportional_amount in
  let effective_amount :=
    match min_amount with
    | Some ma =>
      if truthy ma && Qltb effective_amount ma then ma else effective_amount
    | None => effective_amount
    end in
  match min_cost with
  | Some mc =>
    if truthy mc && Qltb (effective_amount * calc_price) mc
    then amount_for_min_cost else effective_amount
  | None => effective_amount
  end.

(** Lines 96-132: the leverage to use, [Ret None] for a rejection. *)
Definition select_leverage (position_notional_value follower_safety_budget : Q)
    (lev : Q) : outcome (option Z) :=
  let effective_leverage := Z.abs (py_int lev) in
  match py_div position_notional_value (inject_Z effective_leverage) with
  | Raise => Raise
  | Ret required_margin =>
    let elevated : option Z :=
      if Qltb follower_safety_budget required_margin then
        (* [None] stands for [float('inf')] *)
        let min_leverage_needed :=
          if Qltb 0 follower_safety_budget
          then Some (position_notional_value / follower_safety_budget)
          else None in
        match min_leverage_needed with
        | None => None
        | Some m =>
          if Qltb (inject_Z FOLLOWER_MAX_LEVERAGE) m then None
          else Some (Z.abs (Z.min FOLLOWER_MAX_LEVERAGE (py_int m + 2)))
        end
      else Some effective_leverage in
    match elevated with
    | None => Ret None
    | Some effective_leverage =>
      match py_div position_notional_value (inject_Z effective_leverage) with
      | Raise => Raise
      | Ret final_required_margin =>
        if Qltb follower_safety_budget final_required_margin
        then Ret None else Ret (Some effective_leverage)
      end
    end
  end.

Definition calculate_follower_amount (follower_adapter : Adapter)
    (leader_position : Position)
    (follower_total_value leader_total_value : Q)
    (leader_intended_leverage : option Q) : M (option CalcResult) :=
  try_except
    (if Qle_bool leader_total_value 1 || Qle_bool follower_total_value 1
     then ret None
     else
       market_info <- get_market_info follower_adapter (pos_symbol leader_position) ;;
       match market_info with
       | None => ret None
       | Some limits =>
         let min_cost := cost_min limits in
         let min_amount := amount_min limits in
         ticker <- get_ticker follower_adapter (pos_symbol leader_position) ;;
         let calc_price := calc_price_of ticker leader_position in
         if negb (truthy calc_price) || Qle_bool calc_price 0 then ret None
         else
           proportional_amount <-
             lift (proportional_amount_of leader_position follower_total_value
                     leader_total_value leader_intended_leverage calc_price) ;;
           let effective_amount :=
             lift_to_limits min_amount min_cost calc_price proportional_amount in
           let position_notional_value := effective_amount * calc_price in
           let follower_safety_budget :=
             follower_total_value * FOLLOWER_BUDGET_USAGE_PERCENT in
           lev <- lift (match leader_intended_leverage with
                        | Some l => Ret l
                        | None => Raise
                        end) ;;
           chosen <- lift (select_leverage position_notional_value
                             follower_safety_budget lev) ;;
           match chosen with
           | None => ret None
           | Some effective_leverage =>
             final_amount <- normalize_amount follower_adapter
                               (pos_symbol leader_position) effective_amount ;;
             match final_amount with
             | None => ret None
             | Some fa =>
               if Qle_bool fa 0 then ret None
               else ret (Some {| res_amount := fa;
                                 res_leverage := Z.abs effective_leverage |})
             end
           end
       end)
    (ret None).

(** [ticker.get('last') or ticker.get('markPrice')], then [float(...)],
    which raises [TypeError] on [None]. *)
Definition ticker_price (ticker : Ticker) : outcome Q :=
  let chosen :=
    match last ticker with
    | Some q => if truthy q then Some q else markPrice ticker
    | None => markPrice ticker
    end in
  match chosen with
  | Some q => Ret q
  | None => Raise
  end.

(** Lines 180-192: as [lift_to_limits], with a margin of 1.01. *)
Definition adjust_to_limits (min_amount min_cost : option Q)
    (calc_price amount : Q) : Q :=
  let effective_amount := amount in
  let effective_amount :=
    match min_amount with
    | Some ma =>
      if truthy ma && Qltb effective_amount ma then ma else effective_amount
    | None => effective_amount
    end in
  match min_cost with
  | Some mc =>
    if truthy mc && Qltb (effective_amount * calc_price) mc
    then (mc / calc_price) * 1.01 else effective_amount
  | None => effective_amount
  end.

Definition adjust_amount_for_limits (adapter : Adapter) (symbol : string)
    (amount : Q) : M (option Q) :=
  try_except
    (market_info <- get_market_info adapter symbol ;;
     match market_info with
     | None => ret None
     | Some limits =>
       let min_cost := cost_min limits in
       let min_amount := amount_min limits in
       ticker <- get_ticker adapter symbol ;;
       calc_price <- lift (ticker_price ticker) ;;
       if negb (truthy calc_price) || Qle_bool calc_price 0 then ret None
       else
         let effective_amount :=
           adjust_to_limits min_amount min_cost calc_price amount in
         final_amount <- normalize_amount adapter symbol effective_amount ;;
         match final_amount with
         | None => ret None
         | Some fa => ret (Some fa)
         end
     end)
    (ret None).

(** The calls the calculator may make. *)
Definition is_read (symbol : string) (c : Call) : Prop :=
  c = Call_get_market_info symbol \/ c = Call_get_ticker symbol \/
  exists a, c = Call_normalize_amount symbol a.

(** The specification's constraint lift, in its own words: raise to
    [amount.min] when below it, then to [(cost.min / p) * 1.05] when the
    notional is below [cost.min]. *)
Definition spec_lift (min_amount min_cost : option Q) (p a0 : Q) : Q :=
  let a :=
    match min_amount with
    | Some ma => if Qltb a0 ma then ma else a0
    | None => a0
    end in
  match min_cost with
  | Some mc => if Qltb (a * p) mc then (mc / p) * 1.05 else a
  | None => a
  end.

End Calculator.

(* ------------------------------------------------------------------ *)
(** * Dictionaries keyed by symbol

    A Python [dict] keeps its keys in insertion order, and assigning to a key
    that is present keeps the key's place. *)

Module PyDict.

Section Dict.
Variable V : Type.

Definition dict := list (string * V).

Fixpoint dict_set (k : string) (v : V) (d : dict) : dict :=
  match d with
  | [] => [(k, v)]
  | (k', v') :: rest =>
    if String.eqb k k' then (k, v) :: rest
    else (k', v') :: dict_set k v rest
  end.

Fixpoint dict_get (k : string) (d : dict) : option V :=
  match d with
  | [] => None
  | (k', v') :: rest => if String.eqb k k' then Some v' else dict_get k rest
  end.

Definition dict_mem (k : string) (d : dict) : bool :=
  match dict_get k d with
  | Some _ => true
  | None => false
  end.
End Dict.

(** [{p.symbol: p for p in positions}] *)
Definition by_symbol (positions : list Position) : dict Position :=
  fold_left (fun d p => dict_set (pos_symbol p) p d) positions [].

End PyDict.

Import PyDict.

(* ------------------------------------------------------------------ *)
(** * Symbol canonicalisation ([utils/helpers.py]) *)

Module Helpers.

Open Scope char_scope.

Definition chars := list ascii.

(** [str.isspace] below code 128: tab to carriage return, the four
    separators [0x1c]-[0x1f], and the space. *)
Definition is_space (c : ascii) : bool :=
  let n := nat_of_ascii c in
  ((9 <=? n) && (n <=? 13) || (28 <=? n) && (n <=? 32))%nat.

Definition is_dash (c : ascii) : bool := Ascii.eqb c "-".

Definition upper_char (c : ascii) : ascii :=
  let n := nat_of_ascii c in
  if ((97 <=? n) && (n <=? 122))%nat then ascii_of_nat (n - 32) else c.

(** [s.upper()] *)
Definition upper (s : chars) : chars := map upper_char s.

Fixpoint drop_while (f : ascii -> bool) (s : chars) : chars :=
  match s with
  | [] => []
  | c :: rest => if f c then drop_while f rest else s
  end.

(** [s.split(':')[0]]: the text before the first colon. *)
Fixpoint before_colon (s : chars) : chars :=
  match s with
  | [] => []
  | c :: rest => if Ascii.eqb c ":" then [] else c :: before_colon rest
  end.

Definition rstrip_with (f : ascii -> bool) (s : chars) : chars :=
  rev (drop_while f (rev s)).

(** [s.strip()] *)
Definition strip (s : chars) : chars := rstrip_with is_space (drop_while is_space s).

(** [s.rstrip('-')] *)
Definition rstrip_dash (s : chars) : chars := rstrip_with is_dash s.

(** ["/" in s] *)
Definition has_slash (s : chars) : bool := existsb (fun c => Ascii.eqb c "/") s.

Fixpoint chars_eqb (a b : chars) : bool :=
  match a, b with
  | [], [] => true
  | x :: a', y :: b' => Ascii.eqb x y && chars_eqb a' b'
  | _, _ => false
  end.

(** [s.endswith(q)] *)
Definition endswith (s q : chars) : bool :=
  chars_eqb (skipn (List.length s - List.length q) s) q.

Definition quote_currencies : list chars :=
  map list_ascii_of_string
    ["USDT"; "USDC"; "BUSD"; "FDUSD"; "TUSD"; "DAI"; "TRY"; "BTC"; "ETH"]%string.

(** Lines 49-56: the first quote that ends the symbol and leaves a
    non-empty base. *)
Fixpoint split_on_quote (quotes : list chars) (upper_symbol : chars)
    : option chars :=
  match quotes with
  | [] => None
  | quote :: rest =>
    let base_currency_len := (List.length upper_symbol - List.length quote)%nat in
    if endswith upper_symbol quote && (0 <? base_currency_len)%nat
    then Some (rstrip_dash (firstn base_currency_len upper_symbol)
                 ++ "/" :: quote)%list
    else split_on_quote rest upper_symbol
  end.

Definition canonical (symbol : chars) : chars :=
  match symbol with
  | [] => []
  | _ =>
    let symbol := strip (before_colon symbol) in
    let symbol := rstrip_dash symbol in
    if has_slash symbol then upper symbol
    else
      let upper_symbol := upper symbol in
      match split_on_quote quote_currencies upper_symbol with
      | Some formatted => formatted
      | None =>
        match upper_symbol with
        | [] => []
        | _ => (upper_symbol ++ list_ascii_of_string "/USDT")%list
        end
      end
  end.

Definition format_symbol_for_ccxt (symbol : string) : string :=
  string_of_list_ascii (canonical (list_ascii_of_string symbol)).

(** The symbol as it stands after lines 34 and 38. *)
Definition cleaned (symbol : string) : chars :=
  rstrip_dash (strip (before_colon (list_ascii_of_string symbol))).

(** The first, the last character satisfies [f]. *)
Definition starts_with (f : ascii -> bool) (s : chars) : bool :=
  match s with
  | c :: _ => f c
  | [] => false
  end.

Definition ends_with (f : ascii -> bool) (s : chars) : bool :=
  starts_with f (rev s).

Definition not_colon (c : ascii) : bool := negb (Ascii.eqb c ":").

(** [c] is left alone by [upper]. *)
Definition upper_fixed (c : ascii) : bool := Ascii.eqb (upper_char c) c.

(** A quote currency in good shape: upper case, free of colons, ending in
    a letter. *)
Definition quote_ok (q : chars) : bool :=
  forallb not_colon q && forallb upper_fixed q
  && negb (ends_with is_space ("/" :: q))
  && negb (ends_with is_dash ("/" :: q)).

End Helpers.

Import Helpers.

(* ------------------------------------------------------------------ *)
(** * Replication engine ([services/replication_service.py]) *)

Module Replication.

Import Calculator.
Open Scope Q_scope.
Open Scope py_scope.

(** A follower descriptor, with what [manager.get_adapter] does for it:
    it answers an adapter or [None], or it raises (a connection that
    fails and whose [close()] raises too, [core/exchange_manager.py]
    lines 91-94). *)
Record Follower := {
  user_id : string;
  adapter_of : outcome (option Adapter)
}.

Inductive Reason :=
| NoAdapter
| AccountValueTooLow
| NoPositionToReduce
| LeaderOriginalSizeZero
| CalculationFailed
| InvalidAmount (amount : Q)
| OrderRejected (message : option ErrorMessage)
| GeneralError.

Inductive FollowerResult :=
| Success (order_id : option string) (amount : Q)
| Failed (reason : Reason)
| Skipped (reason : Reason).

(** Lines 52 and 118. *)
Definition is_reduce_only (leader_order : Order) : bool :=
  info_reduceOnly (ord_raw_data leader_order)
  || params_reduceOnly (ord_raw_data leader_order).

(** [x or 0] on an optional number. *)
Definition or_zero (x : option Q) : Q := py_or x 0.

(** Lines 58-68. *)
Definition placeholder_position (leader_symbol_clean : string)
    (leader_order : Order) : Position :=
  {| pos_symbol := leader_symbol_clean;
     pos_side := match ord_side leader_order with
                 | Sell => Long
                 | _ => Short
                 end;
     pos_contracts := 0;
     pos_entry_price := or_zero (ord_average_price leader_order);
     pos_mark_price := or_zero (ord_average_price leader_order);
     pos_leverage := 1;
     pos_unrealized_pnl := 0;
     pos_timestamp_ms := None;
     pos_raw_data := {| is_placeholder_for_close := true;
                        closed_amount := Some (ord_filled leader_order) |} |}.

(** Lines 48-71: the leader snapshot handed to every follower, [None] when
    the fan-out is called off. *)
Definition leader_pos_to_replicate (leader_positions : dict Position)
    (leader_order : Order) : option Position :=
  let leader_symbol_clean := format_symbol_for_ccxt (ord_symbol leader_order) in
  match dict_get leader_symbol_clean leader_positions with
  | Some p => Some p
  | None =>
    if is_reduce_only leader_order
    then Some (placeholder_position leader_symbol_clean leader_order)
    else None
  end.

(** Lines 143-154: the amount to close on the follower; [None] is the
    early return of line 150. *)
Definition close_amount (leader_position : Position) (leader_order : Order)
    (follower_pos : Position) : option Q :=
  if is_placeholder_for_close (pos_raw_data leader_position)
  then Some (pos_contracts follower_pos)
  else
    let original_leader_contracts :=
      pos_contracts leader_position + ord_filled leader_order in
    if Qltb original_leader_contracts 1e-9 then None
    else
      let percentage_to_close :=
        ord_filled leader_order / original_leader_contracts in
      Some (pos_contracts follower_pos * percentage_to_close).

Definition reduce_only_params : Params :=
  {| p_reduceOnly := Some true; p_post_only := false;
     p_command_details := None |}.

(** Lines 126-178: either an early return, or the parameters, amount and
    side of the order to place. *)
Definition prepare_order (follower_adapter : Adapter) (leader_order : Order)
    (leader_position : Position)
    (follower_total_value leader_total_value : Q)
    : M (FollowerResult + (Params * Q * OrderSide)) :=
  let leader_intended_leverage :=
    match command_details_leverage (ord_raw_data leader_order) with
    | Some l => l
    | None => Some (inject_Z (pos_leverage leader_position))
    end in
  if is_reduce_only leader_order then
    let follower_params := reduce_only_params in
    let order_side :=
      match pos_side leader_position with
      | Long => Sell
      | Short => Buy
      end in
    positions <- get_positions follower_adapter None ;;
    let follower_positions := by_symbol positions in
    match dict_get (pos_symbol leader_position) follower_positions with
    | None => ret (inl (Skipped NoPositionToReduce))
    | Some follower_pos =>
      match close_amount leader_position leader_order follower_pos with
      | None => ret (inl (Failed LeaderOriginalSizeZero))
      | Some follower_amount =>
        ret (inr (follower_params, follower_amount, order_side))
      end
    end
  else
    calc_result <- calculate_follower_amount follower_adapter leader_position
                     follower_total_value leader_total_value
                     leader_intended_leverage ;;
    match calc_result with
    | None => ret (inl (Skipped CalculationFailed))
    | Some r =>
      set_leverage follower_adapter (pos_symbol leader_position)
        (res_leverage r) Isolated ;;;
      ret (inr (no_params, res_amount r, ord_side leader_order))
    end.

Definition _replicate_for_single_follower (follower_api_info : Follower)
    (leader_order : Order) (leader_position : Position)
    (leader_total_value : Q) : M FollowerResult :=
  follower_adapter <- lift (adapter_of follower_api_info) ;;
  match follower_adapter with
  | None => ret (Failed NoAdapter)
  | Some follower_adapter =>
    try_except
      (follower_total_value <- get_total_account_value_usdt follower_adapter ;;
       match follower_total_value with
       | None => ret (Skipped AccountValueTooLow)
       | Some ftv =>
         if negb (truthy ftv) || Qle_bool ftv 1
         then ret (Skipped AccountValueTooLow)
         else
           prepared <- prepare_order follower_adapter leader_order
                         leader_position ftv leader_total_value ;;
           match prepared with
           | inl early => ret early
           | inr (follower_params, follower_amount, order_side) =>
             if Qle_bool follower_amount 0
             then ret (Skipped (InvalidAmount follower_amount))
             else
               final_follower_amount <-
                 normalize_amount follower_adapter (ord_symbol leader_order)
                   follower_amount ;;
               follower_order <-
                 place_order follower_adapter
                   {| req_symbol := ord_symbol leader_order;
                      req_order_type := Market;
                      req_side := order_side;
                      req_amount := final_follower_amount;
                      req_price := None;
                      req_params := follower_params |} ;;
               match ord_status follower_order with
               | StFailed =>
                 ret (Failed (OrderRejected (ord_error_message follower_order)))
               | _ =>
                 ret (Success (ord_id follower_order) (ord_filled follower_order))
               end
           end
       end)
      (ret (Failed GeneralError))
  end.

(** The order lines 186-194 place on the reduce-only path, for the amount
    [normalize_amount] gave. *)
Definition reduce_only_request (leader_order : Order)
    (leader_position : Position) (final_follower_amount : option Q)
    : OrderRequest :=
  {| req_symbol := ord_symbol leader_order;
     req_order_type := Market;
     req_side := match pos_side leader_position with
                 | Long => Sell
                 | Short => Buy
                 end;
     req_amount := final_follower_amount;
     req_price := None;
     req_params := reduce_only_params |}.

(** Lines 122-123: the leader's leverage as the engine reads it, from
    [command_details] or else from the position. *)
Definition intended_leverage (leader_order : Order)
    (leader_position : Position) : option Q :=
  match command_details_leverage (ord_raw_data leader_order) with
  | Some l => l
  | None => Some (inject_Z (pos_leverage leader_position))
  end.

(** The order lines 186-194 place on the open path. *)
Definition open_request (leader_order : Order)
    (final_follower_amount : option Q) : OrderRequest :=
  {| req_symbol := ord_symbol leader_order;
     req_order_type := Market;
     req_side := ord_side leader_order;
     req_amount := final_follower_amount;
     req_price := None;
     req_params := no_params |}.

(** Lines 196-201: the follower result for the order the exchange returned. *)
Definition result_of_order (follower_order : Order) : FollowerResult :=
  match ord_status follower_order with
  | StFailed => Failed (OrderRejected (ord_error_message follower_order))
  | _ => Success (ord_id follower_order) (ord_filled follower_order)
  end.

(** The side opposite to a position's: the side of an order that reduces
    it. *)
Definition reducing_side (side : PositionSide) : OrderSide :=
  match side with
  | Long => Sell
  | Short => Buy
  end.

Inductive ReplicationStatus :=
| NoFollowers
| LeaderAdapterMissing
| LeaderValueMissing
| LeaderPositionMissing (symbol : string)
| Completed (total_followers successful failed skipped : nat)
            (details : list FollowerResult).

Definition is_success (r : FollowerResult) : bool :=
  match r with Success _ _ => true | _ => false end.
Definition is_failed (r : FollowerResult) : bool :=
  match r with Failed _ => true | _ => false end.
Definition is_skipped (r : FollowerResult) : bool :=
  match r with Skipped _ => true | _ => false end.

(** [asyncio.gather]: every follower task runs against its own adapter;
    the tasks are kept with their own call logs. *)
Definition fan_out (followers : list Follower) (leader_order : Order)
    (leader_position : Position) (leader_total_value : Q)
    : list (M FollowerResult) :=
  map (fun follower_api_info =>
         _replicate_for_single_follower follower_api_info leader_order
           leader_position leader_total_value)
      followers.

Fixpoint gathered (tasks : list (M FollowerResult)) : outcome (list FollowerResult) :=
  match tasks with
  | [] => Ret []
  | t :: rest =>
    match result t, gathered rest with
    | Ret r, Ret rs => Ret (r :: rs)
    | _, _ => Raise
    end
  end.

(** [replicate_action]; [followers] is what [load_api_keys_from_file]
    returned, [leader_adapter] what [manager.get_adapter] answered for the
    leader.  The log is that of the leader adapter. *)
Definition replicate_action (followers : list Follower)
    (leader_user_id : string) (leader_adapter : option Adapter)
    (leader_order : Order) : M ReplicationStatus :=
  let followers :=
    filter (fun f => negb (String.eqb (user_id f) leader_user_id)) followers in
  match followers with
  | [] => ret NoFollowers
  | _ =>
    match leader_adapter with
    | None => ret LeaderAdapterMissing
    | Some leader_adapter =>
      leader_total_value <- get_total_account_value_usdt leader_adapter ;;
      match leader_total_value with
      | None => ret LeaderValueMissing
      | Some ltv =>
        if negb (truthy ltv) || Qle_bool ltv 1 then ret LeaderValueMissing
        else
          positions <- get_positions leader_adapter None ;;
          let leader_positions := by_symbol positions in
          match leader_pos_to_replicate leader_positions leader_order with
          | None =>
            ret (LeaderPositionMissing
                   (format_symbol_for_ccxt (ord_symbol leader_order)))
          | Some leader_position =>
            let tasks := fan_out followers leader_order leader_position ltv in
            results <- lift (gathered tasks) ;;
            ret (Completed (List.length followers)
                   (List.length (filter is_success results))
                   (List.length (filter is_failed results))
                   (List.length (filter is_skipped results))
                   results)
          end
      end
    end
  end.

End Replication.

(* ------------------------------------------------------------------ *)
(** * Reconciliation loop ([services/sync_service.py]) *)

Module Sync.

Import Calculator.
Open Scope Q_scope.
Open Scope py_scope.

Definition LATE_JOIN_MAX_PRICE_CHANGE_PERCENT : Q := 0.75.
Definition LATE_JOIN_MAX_AGE_MINUTES : Q := 30.

(** Line 165. *)
Definition price_change_of (current_price entry_price : Q) : outcome Q :=
  match py_div (current_price - entry_price) entry_price with
  | Ret x => Ret (Qabs x)
  | Raise => Raise
  end.

(** Line 173; [now_ms] is [datetime.now(timezone.utc).timestamp() * 1000]. *)
Definition pos_age_seconds_of (now_ms : Q) (timestamp_ms : Z) : Q :=
  (now_ms - inject_Z timestamp_ms) / 1000.

(** A timestamp that is set: neither [None] nor [0]. *)
Definition timestamp_set (ts : option Z) : option Z :=
  match ts with
  | Some t => if (t =? 0)%Z then None else Some t
  | None => None
  end.

Definition _should_late_join (now_ms : Q) (leader_pos : Position)
    (follower_adapter : Adapter) : M bool :=
  try_except
    (ticker <- get_ticker follower_adapter (pos_symbol leader_pos) ;;
     current_price <- lift (match last ticker with
                            | Some q => Ret q
                            | None => Raise
                            end) ;;
     price_change <- lift (price_change_of current_price
                             (pos_entry_price leader_pos)) ;;
     if Qltb (LATE_JOIN_MAX_PRICE_CHANGE_PERCENT / 100) price_change
     then ret false
     else
       match timestamp_set (pos_timestamp_ms leader_pos) with
       | Some ts =>
         let pos_age_seconds := pos_age_seconds_of now_ms ts in
         if Qltb (LATE_JOIN_MAX_AGE_MINUTES * 60) pos_age_seconds
         then ret false else ret true
       | None => ret true
       end)
    (ret false).

(** Lines 111-118: one reduce-only market order per orphan. *)
Definition orphan_close_request (symbol : string) (pos : Position)
    : OrderRequest :=
  {| req_symbol := symbol;
     req_order_type := Market;
     req_side := match pos_side pos with
                 | Long => Sell
                 | Short => Buy
                 end;
     req_amount := Some (pos_contracts pos);
     req_price := None;
     req_params := {| p_reduceOnly := Some true; p_post_only := false;
                      p_command_details := None |} |}.

Fixpoint close_orphans (follower_adapter : Adapter)
    (leader_positions : dict Position)
    (items : list (string * Position)) : M unit :=
  match items with
  | [] => ret tt
  | (symbol, pos) :: rest =>
    (if dict_mem symbol leader_positions then ret tt
     else
       place_order follower_adapter (orphan_close_request symbol pos) ;;;
       ret tt) ;;;
    close_orphans follower_adapter leader_positions rest
  end.

(** Lines 123-154 for one leader position. *)
Definition late_join_one (now_ms : Q) (follower_adapter : Adapter)
    (leader_pos : Position) (follower_total_value leader_total_value : Q)
    : M unit :=
  admitted <- _should_late_join now_ms leader_pos follower_adapter ;;
  if admitted then
    let leader_intended_leverage := pos_leverage leader_pos in
    set_leverage follower_adapter (pos_symbol leader_pos)
      (pos_leverage leader_pos) Isolated ;;;
    calc_result <- calculate_follower_amount follower_adapter leader_pos
                     follower_total_value leader_total_value
                     (Some (inject_Z leader_intended_leverage)) ;;
    match calc_result with
    | Some r =>
      if Qltb 0 (res_amount r) then
        set_leverage follower_adapter (pos_symbol leader_pos)
          (res_leverage r) Isolated ;;;
        place_order follower_adapter
          {| req_symbol := pos_symbol leader_pos;
             req_order_type := Market;
             req_side := match pos_side leader_pos with
                         | Long => Buy
                         | Short => Sell
                         end;
             req_amount := Some (res_amount r);
             req_price := None;
             req_params := no_params |} ;;;
        ret tt
      else ret tt
    | None => ret tt
    end
  else ret tt.

Fixpoint late_joins (now_ms : Q) (follower_adapter : Adapter)
    (follower_positions : dict Position)
    (follower_total_value leader_total_value : Q)
    (items : list (string * Position)) : M unit :=
  match items with
  | [] => ret tt
  | (symbol, leader_pos) :: rest =>
    (if dict_mem symbol follower_positions then ret tt
     else late_join_one now_ms follower_adapter leader_pos
            follower_total_value leader_total_value) ;;;
    late_joins now_ms follower_adapter follower_positions
      follower_total_value leader_total_value rest
  end.

Definition _synchronize_follower (now_ms : Q)
    (follower_adapter : option Adapter)
    (leader_positions : dict Position) (leader_total_value : Q) : M unit :=
  match follower_adapter with
  | None => ret tt
  | Some follower_adapter =>
    try_except
      (positions <- get_positions follower_adapter None ;;
       let follower_positions := by_symbol positions in
       follower_total_value <- get_total_account_value_usdt follower_adapter ;;
       match follower_total_value with
       | None => ret tt
       | Some ftv =>
         if negb (truthy ftv) || Qle_bool ftv 1 then ret tt
         else
           close_orphans follower_adapter leader_positions follower_positions ;;;
           late_joins now_ms follower_adapter follower_positions ftv
             leader_total_value leader_positions
       end)
      (ret tt)
  end.

(** The order lines 146-151 place for a late join. *)
Definition late_join_request (leader_pos : Position) (follower_amount : Q)
    : OrderRequest :=
  {| req_symbol := pos_symbol leader_pos;
     req_order_type := Market;
     req_side := match pos_side leader_pos with
                 | Long => Buy
                 | Short => Sell
                 end;
     req_amount := Some follower_amount;
     req_price := None;
     req_params := no_params |}.

End Sync.

(* ------------------------------------------------------------------ *)
(** * Command dispatcher ([services/command_executor.py]) *)

Module CommandExecutor.

Import Calculator.
Open Scope Q_scope.
Open Scope py_scope.

Inductive Action :=
| ABuy | ASell | AClosePosition | AScaleOut | AScaleIn | ASetLeverage | ACancel.

(** A command dictionary; an absent key is [None]. *)
Record Command := {
  cmd_action : Action;
  cmd_symbol : string;
  cmd_amount : option Q;
  cmd_percentage : option Q;
  cmd_leverage : option Q;
  cmd_margin_mode : option MarginMode;
  cmd_order_type : option OrderType;
  cmd_price : option Q;
  cmd_post_only : bool;
  cmd_params : option Params
}.

(** The command with its ['amount'] key set or removed. *)
Definition with_amount (amount : option Q) (c : Command) : Command :=
  {| cmd_action := cmd_action c; cmd_symbol := cmd_symbol c;
     cmd_amount := amount; cmd_percentage := cmd_percentage c;
     cmd_leverage := cmd_leverage c; cmd_margin_mode := cmd_margin_mode c;
     cmd_order_type := cmd_order_type c; cmd_price := cmd_price c;
     cmd_post_only := cmd_post_only c; cmd_params := cmd_params c |}.

(** The command with its ['percentage'] key set or removed. *)
Definition with_percentage (percentage : option Q) (c : Command) : Command :=
  {| cmd_action := cmd_action c; cmd_symbol := cmd_symbol c;
     cmd_amount := cmd_amount c; cmd_percentage := percentage;
     cmd_leverage := cmd_leverage c; cmd_margin_mode := cmd_margin_mode c;
     cmd_order_type := cmd_order_type c; cmd_price := cmd_price c;
     cmd_post_only := cmd_post_only c; cmd_params := cmd_params c |}.

(** [Order.side] for [side=command['action']]. *)
Definition side_of_action (a : Action) : OrderSide :=
  match a with
  | ABuy => Buy
  | ASell => Sell
  | _ => UnknownSide
  end.

(** [command[key]]: [KeyError] when the key is absent. *)
Definition required {A} (x : option A) : outcome A :=
  match x with
  | Some a => Ret a
  | None => Raise
  end.

(** [Order(id=None, symbol=..., side=..., amount=..., status='failed',
    error_message=msg, exchange_id=adapter.exchange_id)] *)
Definition failed_order (symbol : string) (side : OrderSide) (amount : Q)
    (msg : ErrorMessage) (adapter : Adapter) : Order :=
  {| ord_id := None;
     ord_symbol := symbol;
     ord_side := side;
     ord_amount := amount;
     ord_price := None;
     ord_status := StFailed;
     ord_order_type := Some Market;
     ord_filled := 0;
     ord_average_price := None;
     ord_exchange_id := Some (exchange_id adapter);
     ord_error_message := Some msg;
     ord_raw_data := empty_raw |}.

(** Lines 118-124, 206-212: [params], with the post-only flag. *)
Definition params_of (command : Command) : Params :=
  let params :=
    match cmd_params command with
    | Some p => p
    | None => no_params
    end in
  if cmd_post_only command then
    {| p_reduceOnly := p_reduceOnly params; p_post_only := true;
       p_command_details := p_command_details params |}
  else
    match cmd_order_type command with
    | Some PostOnly =>
      {| p_reduceOnly := p_reduceOnly params; p_post_only := true;
         p_command_details := p_command_details params |}
    | _ => params
    end.

Definition order_type_of (command : Command) : OrderType :=
  match cmd_order_type command with
  | Some t => t
  | None => Market
  end.

Definition margin_mode_of (command : Command) : MarginMode :=
  match cmd_margin_mode command with
  | Some m => m
  | None => Isolated
  end.

Definition _handle_open_position (adapter : Adapter) (command : Command)
    : M Order :=
  let symbol := cmd_symbol command in
  original_amount <- lift (required (cmd_amount command)) ;;
  leverage_q <- lift (required (cmd_leverage command)) ;;
  let leverage := py_int leverage_q in
  let margin_mode := margin_mode_of command in
  let params := params_of command in
  leverage_set_success <- set_leverage adapter symbol leverage margin_mode ;;
  if negb leverage_set_success then
    ret (failed_order symbol (side_of_action (cmd_action command))
           original_amount (MsgLeverageNotSet symbol leverage) adapter)
  else
    final_amount <- adjust_amount_for_limits adapter symbol original_amount ;;
    match final_amount with
    | None =>
      ret (failed_order symbol (side_of_action (cmd_action command))
             original_amount (MsgAmountNotAdjustable symbol original_amount)
             adapter)
    | Some fa =>
      place_order adapter
        {| req_symbol := symbol;
           req_order_type := order_type_of command;
           req_side := side_of_action (cmd_action command);
           req_amount := Some fa;
           req_price := cmd_price command;
           req_params := params |}
    end.

(** [next((p for p in positions if p.symbol == symbol_ccxt), None)] *)
Definition find_position (symbol_ccxt : string) (positions : list Position)
    : option Position :=
  find (fun p => String.eqb (pos_symbol p) symbol_ccxt) positions.

(** Lines 187-191. *)
Definition original_amount_to_close (command : Command)
    (target_pos : Position) : Q :=
  match cmd_amount command with
  | Some amount => amount
  | None =>
    match cmd_percentage command with
    | Some percentage => pos_contracts target_pos * (percentage / 100)
    | None => 0
    end
  end.

Definition _handle_scale_out (adapter : Adapter) (command : Command)
    : M Order :=
  let symbol_ccxt := format_symbol_for_ccxt (cmd_symbol command) in
  positions <- get_positions adapter (Some [symbol_ccxt]) ;;
  match find_position symbol_ccxt positions with
  | None =>
    ret (failed_order symbol_ccxt UnknownSide 0
           (MsgNoPositionToScale symbol_ccxt) adapter)
  | Some target_pos =>
    let original_amount_to_close := original_amount_to_close command target_pos in
    if Qle_bool original_amount_to_close 0 then
      ret (failed_order symbol_ccxt UnknownSide 0
             (MsgInvalidScaleOut original_amount_to_close) adapter)
    else
      final_amount_to_close <-
        adjust_amount_for_limits adapter symbol_ccxt original_amount_to_close ;;
      match final_amount_to_close with
      | None =>
        ret (failed_order symbol_ccxt UnknownSide original_amount_to_close
               (MsgScaleOutNotAdjustable symbol_ccxt) adapter)
      | Some fa =>
        if Qltb (pos_contracts target_pos) fa then
          ret (failed_order symbol_ccxt UnknownSide original_amount_to_close
                 (MsgScaleOutNotAdjustable symbol_ccxt) adapter)
        else
          let params := params_of command in
          place_order adapter
            {| req_symbol := symbol_ccxt;
               req_order_type := order_type_of command;
               req_side := match pos_side target_pos with
                           | Long => Sell
                           | Short => Buy
                           end;
               req_amount := Some fa;
               req_price := cmd_price command;
               req_params := {| p_reduceOnly := Some true;
                                p_post_only := p_post_only params;
                                p_command_details := p_command_details params |} |}
      end
  end.

End CommandExecutor.

(* ------------------------------------------------------------------ *)
(** * The close and scale-in handlers
      ([services/command_executor.py], lines 153-174 and 223-283) *)

Module Handlers.

Import Calculator CommandExecutor.
Open Scope Q_scope.
Open Scope py_scope.

(** The messages of the failed orders these handlers build. *)
Inductive Refusal :=
| NoPositionToClose (symbol : string)
| NoPositionToScaleIn (symbol : string)
| InvalidScaleIn (amount : Q)
| ScaleInNotAdjustable (amount : Q)
| ScaleInWrongSide (position_side : PositionSide) (side : OrderSide).

(** [Order(id=None, symbol=..., side=..., amount=..., status="failed",
    error_message=msg, exchange_id=adapter.exchange_id)], built by the
    handler without a call to the exchange. *)
Record RefusedOrder := {
  ref_symbol : string;
  ref_side : OrderSide;
  ref_amount : Q;
  ref_message : Refusal;
  ref_exchange_id : string
}.

(** A handler returns [inl]: the failed order it built itself, or [inr]:
    the order [place_order] answered. *)
Definition refused (symbol : string) (side : OrderSide) (amount : Q)
    (msg : Refusal) (adapter : Adapter) : RefusedOrder + Order :=
  inl {| ref_symbol := symbol; ref_side := side; ref_amount := amount;
         ref_message := msg; ref_exchange_id := exchange_id adapter |}.

(** Lines 168-174. *)
Definition close_request (symbol_ccxt : string) (target_pos : Position)
    : OrderRequest :=
  {| req_symbol := symbol_ccxt;
     req_order_type := Market;
     req_side := match pos_side target_pos with
                 | Long => Sell
                 | Short => Buy
                 end;
     req_amount := Some (pos_contracts target_pos);
     req_price := None;
     req_params := {| p_reduceOnly := Some true; p_post_only := false;
                      p_command_details := None |} |}.

Definition _handle_close_position (adapter : Adapter) (command : Command)
    : M (RefusedOrder + Order) :=
  let symbol_ccxt := format_symbol_for_ccxt (cmd_symbol command) in
  positions <- get_positions adapter (Some [symbol_ccxt]) ;;
  match find_position symbol_ccxt positions with
  | None =>
    ret (refused symbol_ccxt UnknownSide 0 (NoPositionToClose symbol_ccxt)
           adapter)
  | Some target_pos =>
    order <- place_order adapter (close_request symbol_ccxt target_pos) ;;
    ret (inr order)
  end.

(** Line 260: [(target_pos.side == 'long' and side != 'buy') or
    (target_pos.side == 'short' and side != 'sell')]. *)
Definition wrong_side (position_side : PositionSide) (side : OrderSide)
    : bool :=
  match position_side, side with
  | Long, Buy => false
  | Short, Sell => false
  | _, _ => true
  end.

(** Lines 276-283. *)
Definition scale_in_request (symbol_ccxt : string) (command : Command)
    (final_amount : Q) : OrderRequest :=
  let params := params_of command in
  {| req_symbol := symbol_ccxt;
     req_order_type := order_type_of command;
     req_side := side_of_action (cmd_action command);
     req_amount := Some final_amount;
     req_price := cmd_price command;
     req_params := {| p_reduceOnly := Some false;
                      p_post_only := p_post_only params;
                      p_command_details := p_command_details params |} |}.

Definition _handle_scale_in (adapter : Adapter) (command : Command)
    : M (RefusedOrder + Order) :=
  let symbol := cmd_symbol command in
  let symbol_ccxt := format_symbol_for_ccxt symbol in
  positions <- get_positions adapter (Some [symbol_ccxt]) ;;
  match find_position symbol_ccxt positions with
  | None =>
    ret (refused symbol_ccxt UnknownSide 0 (NoPositionToScaleIn symbol_ccxt)
           adapter)
  | Some target_pos =>
    original_amount <- lift (required (cmd_amount command)) ;;
    if Qle_bool original_amount 0 then
      ret (refused symbol_ccxt UnknownSide original_amount
             (InvalidScaleIn original_amount) adapter)
    else
      final_amount <-
        adjust_amount_for_limits adapter symbol_ccxt original_amount ;;
      match final_amount with
      | None =>
        ret (refused symbol_ccxt UnknownSide original_amount
               (ScaleInNotAdjustable original_amount) adapter)
      | Some fa =>
        let side := side_of_action (cmd_action command) in
        if wrong_side (pos_side target_pos) side then
          ret (refused symbol_ccxt side original_amount
                 (ScaleInWrongSide (pos_side target_pos) side) adapter)
        else
          order <- place_order adapter
                     (scale_in_request symbol_ccxt command fa) ;;
          ret (inr order)
      end
  end.

(** Lines 214-221: the order a scale-out places. *)
Definition scale_out_request (symbol_ccxt : string) (command : Command)
    (target_pos : Position) (final_amount_to_close : Q) : OrderRequest :=
  let params := params_of command in
  {| req_symbol := symbol_ccxt;
     req_order_type := order_type_of command;
     req_side := match pos_side target_pos with
                 | Long => Sell
                 | Short => Buy
                 end;
     req_amount := Some final_amount_to_close;
     req_price := cmd_price command;
     req_params := {| p_reduceOnly := Some true;
                      p_post_only := p_post_only params;
                      p_command_details := p_command_details params |} |}.

End Handlers.

(* ------------------------------------------------------------------ *)
(** * The adapter pool ([core/exchange_manager.py]) *)

Module ExchangeManager.

Open Scope string_scope.

(** An [api_info] dictionary: the keys the manager reads, with string
    values; an absent key is [None]. *)
Record ApiInfo := {
  ai_user_id : option string;
  ai_exchange_id : option string;
  ai_api_key : option string;
  ai_api_secret : option string;
  ai_api_passphrase : option string
}.

(** [key in api_info and api_info[key]] *)
Definition has (x : option string) : bool :=
  match x with
  | Some s => negb (String.eqb s "")
  | None => false
  end.

(** Lines 36-37 and 63-64:
    [all(key in api_info and api_info[key] for key in required_keys)]. *)
Definition complete (api_info : ApiInfo) : bool :=
  has (ai_user_id api_info) && has (ai_exchange_id api_info)
  && has (ai_api_key api_info) && has (ai_api_secret api_info).

(** The manager's two fields; [_leader_api_info] is written by
    [set_leader_api_info] alone. *)
Record Manager := {
  _active_adapters : dict Adapter;
  _leader_api_info : option ApiInfo
}.

(** [__init__] *)
Definition init : Manager :=
  {| _active_adapters := []; _leader_api_info := None |}.

Definition set_leader_api_info (leader_info : ApiInfo) (self : Manager)
    : Manager :=
  {| _active_adapters := _active_adapters self;
     _leader_api_info :=
       if complete leader_info then Some leader_info else None |}.

Definition lower_char (c : ascii) : ascii :=
  let n := nat_of_ascii c in
  if ((65 <=? n) && (n <=? 90))%nat then ascii_of_nat (n + 32) else c.

(** [s.lower()], on ASCII. *)
Fixpoint lower (s : string) : string :=
  match s with
  | EmptyString => EmptyString
  | String c rest => String (lower_char c) (lower rest)
  end.

(** [f"{user_id}_{exchange_id}"] *)
Definition cache_key_of (user_id exchange_id : string) : string :=
  user_id ++ "_" ++ exchange_id.

(** Line 55: [api_info.get("user_id") == "leader"]. *)
Definition is_leader (api_info : ApiInfo) : bool :=
  match ai_user_id api_info with
  | Some user_id_request => String.eqb user_id_request "leader"
  | None => false
  end.

(** What [get_adapter] does to the outside: it builds and connects an
    adapter, and closes one that failed to connect. *)
Inductive Event :=
| Connect (api_info : ApiInfo)
| Close (api_info : ApiInfo).

Section Connections.

(** [AdapterClass(api_info)] followed by [connect()], and [close()]. *)
Variable connect : ApiInfo -> outcome Adapter.
Variable close : ApiInfo -> outcome unit.

(** Lines 54-66: the [api_info] the adapter is looked up and built
    with. *)
Definition api_info_to_use (self : Manager) (api_info : ApiInfo)
    : option ApiInfo :=
  if is_leader api_info then _leader_api_info self
  else if complete api_info then Some api_info else None.

Definition get_adapter (self : Manager) (api_info : ApiInfo)
    : Manager * list Event * outcome (option Adapter) :=
  match api_info_to_use self api_info with
  | None => (self, [], Ret None)
  | Some api_info_to_use =>
    match ai_user_id api_info_to_use, ai_exchange_id api_info_to_use with
    | Some user_id, Some exchange_id =>
      let exchange_id := lower exchange_id in
      let cache_key := cache_key_of user_id exchange_id in
      match dict_get cache_key (_active_adapters self) with
      | Some adapter => (self, [], Ret (Some adapter))
      | None =>
        if String.eqb exchange_id "binance" then
          match connect api_info_to_use with
          | Ret adapter =>
            ({| _active_adapters :=
                  dict_set cache_key adapter (_active_adapters self);
                _leader_api_info := _leader_api_info self |},
             [Connect api_info_to_use], Ret (Some adapter))
          | Raise =>
            (self, [Connect api_info_to_use; Close api_info_to_use],
             match close api_info_to_use with
             | Ret _ => Ret None
             | Raise => Raise
             end)
          end
        else (self, [], Ret None)
      end
    | _, _ => (self, [], Raise)
    end
  end.

End Connections.

End ExchangeManager.

(* ------------------------------------------------------------------ *)
(** * The key file ([utils/helpers.py], [load_api_keys_from_file]) *)

Module KeyFile.

Import ExchangeManager.
Open Scope string_scope.

(** One entry of the key file: the keys the loader reads.
    [en_copy_trade_enabled] is [api_info.get("copy_trade_enabled") is
    True]; [en_api_passphrase] is [None] when the key is absent. *)
Record Entry := {
  en_status : option string;
  en_copy_trade_enabled : bool;
  en_api_key : option string;
  en_api_secret : option string;
  en_api_passphrase : option (option string)
}.

(** Lines 14-16: the stand-in used when [database.crypto_utils] cannot be
    imported. *)
Definition decrypt_data_fallback (data : option string)
    : outcome (option string) :=
  Ret data.

Section Loader.

(** [database.crypto_utils.decrypt_data] *)
Variable decrypt_data : option string -> outcome (option string).

(** Lines 98-119, for one entry: [Ret None] when the entry is passed
    over. *)
Definition load_entry (only_copy_trade_enabled : bool)
    (user_id exchange_id : string) (api_info : Entry)
    : outcome (option ApiInfo) :=
  let is_active :=
    match en_status api_info with
    | Some status => String.eqb status "active"
    | None => false
    end in
  let passes_filter :=
    negb only_copy_trade_enabled || en_copy_trade_enabled api_info in
  if is_active && passes_filter then
    match decrypt_data (en_api_key api_info) with
    | Raise => Raise
    | Ret decrypted_key =>
      match decrypt_data (en_api_secret api_info) with
      | Raise => Raise
      | Ret decrypted_secret =>
        match match en_api_passphrase api_info with
              | Some passphrase => decrypt_data passphrase
              | None => Ret None
              end with
        | Raise => Raise
        | Ret decrypted_pass =>
          if negb (has decrypted_key) || negb (has decrypted_secret)
          then Ret None
          else
            Ret (Some {| ai_user_id := Some user_id;
                         ai_exchange_id := Some (lower exchange_id);
                         ai_api_key := decrypted_key;
                         ai_api_secret := decrypted_secret;
                         ai_api_passphrase :=
                           if has decrypted_pass then decrypted_pass
                           else None |})
        end
      end
    end
  else Ret None.

(** The two loops of lines 95-96, in the order they visit the entries. *)
Definition items_of (all_api_data : list (string * list (string * Entry)))
    : list (string * string * Entry) :=
  flat_map (fun user =>
              map (fun exchange => (fst user, fst exchange, snd exchange))
                  (snd user))
           all_api_data.

(** Lines 91-124: an exception leaves the loops, and what was collected
    so far is returned. *)
Fixpoint load_entries (only_copy_trade_enabled : bool)
    (items : list (string * string * Entry)) (active_apis : list ApiInfo)
    : list ApiInfo :=
  match items with
  | [] => active_apis
  | (user_id, exchange_id, api_info) :: rest =>
    match load_entry only_copy_trade_enabled user_id exchange_id api_info with
    | Raise => active_apis
    | Ret None => load_entries only_copy_trade_enabled rest active_apis
    | Ret (Some user_api_info) =>
      load_entries only_copy_trade_enabled rest
        (active_apis ++ [user_api_info])
    end
  end.

(** [file] is the parsed content of the key file, [None] when the file is
    missing or is not JSON. *)
Definition load_api_keys_from_file
    (file : option (list (string * list (string * Entry))))
    (only_copy_trade_enabled : bool) : list ApiInfo :=
  match file with
  | None => []
  | Some all_api_data =>
    load_entries only_copy_trade_enabled (items_of all_api_data) []
  end.

End Loader.

End KeyFile.

(* ------------------------------------------------------------------ *)
(** * Concrete accounts for the worked scenarios *)

Module Scenarios.

Open Scope Q_scope.
Open Scope string_scope.

(** Truncation to three decimals, the way an exchange with an amount
    precision of three digits normalizes. *)
Definition truncate3 (a : Q) : Q := inject_Z (Qfloor (a * 1000)) / 1000.

(** An account on a market with the given limits and last price, holding
    [positions] and [equity]; every order is accepted and filled. *)
Definition account (min_cost min_amount : option Q) (price equity : Q)
    (positions : list Position) : Adapter :=
  {| exchange_id := "binance";
     ad_get_market_info := fun _ =>
       Ret (Some {| cost_min := min_cost; amount_min := min_amount |});
     ad_get_ticker := fun _ =>
       Ret {| last := Some price; markPrice := None |};
     ad_normalize_amount := fun _ a => Ret (Some (truncate3 a));
     ad_set_leverage := fun _ _ _ => Ret true;
     ad_get_positions := fun _ => Ret positions;
     ad_get_total_account_value_usdt := Ret (Some equity);
     ad_place_order := fun r =>
       Ret {| ord_id := Some "1";
              ord_symbol := req_symbol r;
              ord_side := req_side r;
              ord_amount := match req_amount r with Some a => a | None => 0 end;
              ord_price := req_price r;
              ord_status := StClosed;
              ord_order_type := Some (req_order_type r);
              ord_filled := match req_amount r with Some a => a | None => 0 end;
              ord_average_price := Some price;
              ord_exchange_id := Some "binance";
              ord_error_message := None;
              ord_raw_data := empty_raw |} |}.

(** The same account, refusing every leverage change. *)
Definition leverage_refused (ad : Adapter) : Adapter :=
  {| exchange_id := exchange_id ad;
     ad_get_market_info := ad_get_market_info ad;
     ad_get_ticker := ad_get_ticker ad;
     ad_normalize_amount := ad_normalize_amount ad;
     ad_set_leverage := fun _ _ _ => Ret false;
     ad_get_positions := ad_get_positions ad;
     ad_get_total_account_value_usdt := ad_get_total_account_value_usdt ad;
     ad_place_order := ad_place_order ad |}.

(** The same account, on a market whose limits cannot be read. *)
Definition market_unknown (ad : Adapter) : Adapter :=
  {| exchange_id := exchange_id ad;
     ad_get_market_info := fun _ => Ret None;
     ad_get_ticker := ad_get_ticker ad;
     ad_normalize_amount := ad_normalize_amount ad;
     ad_set_leverage := ad_set_leverage ad;
     ad_get_positions := ad_get_positions ad;
     ad_get_total_account_value_usdt := ad_get_total_account_value_usdt ad;
     ad_place_order := ad_place_order ad |}.

(** The same account, whose ticker cannot be read. *)
Definition ticker_down (ad : Adapter) : Adapter :=
  {| exchange_id := exchange_id ad;
     ad_get_market_info := ad_get_market_info ad;
     ad_get_ticker := fun _ => Raise;
     ad_normalize_amount := ad_normalize_amount ad;
     ad_set_leverage := ad_set_leverage ad;
     ad_get_positions := ad_get_positions ad;
     ad_get_total_account_value_usdt := ad_get_total_account_value_usdt ad;
     ad_place_order := ad_place_order ad |}.

(** A market buy of 0.1 BTC at 5x. *)
Definition buy_command : CommandExecutor.Command :=
  {| CommandExecutor.cmd_action := CommandExecutor.ABuy;
     CommandExecutor.cmd_symbol := "BTC/USDT";
     CommandExecutor.cmd_amount := Some 0.1;
     CommandExecutor.cmd_percentage := None;
     CommandExecutor.cmd_leverage := Some 5;
     CommandExecutor.cmd_margin_mode := None;
     CommandExecutor.cmd_order_type := None;
     CommandExecutor.cmd_price := None;
     CommandExecutor.cmd_post_only := false;
     CommandExecutor.cmd_params := None |}.

(** A scale-out of 1 BTC that also carries a percentage of 50. *)
Definition scale_out_command : CommandExecutor.Command :=
  {| CommandExecutor.cmd_action := CommandExecutor.AScaleOut;
     CommandExecutor.cmd_symbol := "BTC/USDT";
     CommandExecutor.cmd_amount := Some 1;
     CommandExecutor.cmd_percentage := Some 50;
     CommandExecutor.cmd_leverage := None;
     CommandExecutor.cmd_margin_mode := None;
     CommandExecutor.cmd_order_type := None;
     CommandExecutor.cmd_price := None;
     CommandExecutor.cmd_post_only := false;
     CommandExecutor.cmd_params := None |}.

(** A position with its opening time. *)
Definition position_at (symbol : string) (side : PositionSide)
    (contracts entry : Q) (leverage : Z) (timestamp_ms : Z) : Position :=
  {| pos_symbol := symbol;
     pos_side := side;
     pos_contracts := contracts;
     pos_entry_price := entry;
     pos_mark_price := entry;
     pos_leverage := leverage;
     pos_unrealized_pnl := 0;
     pos_timestamp_ms := Some timestamp_ms;
     pos_raw_data := no_raw |}.

Definition position (symbol : string) (side : PositionSide)
    (contracts entry : Q) (leverage : Z) : Position :=
  {| pos_symbol := symbol;
     pos_side := side;
     pos_contracts := contracts;
     pos_entry_price := entry;
     pos_mark_price := entry;
     pos_leverage := leverage;
     pos_unrealized_pnl := 0;
     pos_timestamp_ms := None;
     pos_raw_data := no_raw |}.

(** A filled market order of the leader. *)
Definition leader_fill (symbol : string) (side : OrderSide) (filled : Q)
    (reduce_only : bool) : Order :=
  {| ord_id := Some "7";
     ord_symbol := symbol;
     ord_side := side;
     ord_amount := filled;
     ord_price := None;
     ord_status := StClosed;
     ord_order_type := Some Market;
     ord_filled := filled;
     ord_average_price := None;
     ord_exchange_id := Some "binance";
     ord_error_message := None;
     ord_raw_data := {| info_reduceOnly := reduce_only;
                        params_reduceOnly := false;
                        command_details_leverage := None |} |}.

(** The [api_info] of a follower. *)
Definition keys (user_id exchange_id api_key : string)
    : ExchangeManager.ApiInfo :=
  {| ExchangeManager.ai_user_id := Some user_id;
     ExchangeManager.ai_exchange_id := Some exchange_id;
     ExchangeManager.ai_api_key := Some api_key;
     ExchangeManager.ai_api_secret := Some "secret";
     ExchangeManager.ai_api_passphrase := None |}.

(** An exchange every connection to which succeeds. *)
Definition exchange_up (api_info : ExchangeManager.ApiInfo)
    : outcome Adapter :=
  Ret (account (Some 5) (Some 0.001) 100 1000 []).

(** An exchange that cannot be reached. *)
Definition exchange_down (api_info : ExchangeManager.ApiInfo)
    : outcome Adapter :=
  Raise.

Definition closes (api_info : ExchangeManager.ApiInfo) : outcome unit :=
  Ret tt.

(** An active entry of the key file. *)
Definition entry (copy_trade_enabled : bool) (api_key : string)
    : KeyFile.Entry :=
  {| KeyFile.en_status := Some "active";
     KeyFile.en_copy_trade_enabled := copy_trade_enabled;
     KeyFile.en_api_key := Some api_key;
     KeyFile.en_api_secret := Some "secret";
     KeyFile.en_api_passphrase := None |}.

End Scenarios.

(* ================================================================== *)
(** * Properties *)

(* ------------------------------------------------------------------ *)
(** ** Numbers and coroutines *)

Module PyNumFacts.

Open Scope Q_scope.

Lemma Qltb_lt (a b : Q) : Qltb a b = true <-> a < b.
Proof.
  unfold Qltb. rewrite negb_true_iff. split; intro H.
  - apply Qnot_le_lt. intro Hle. apply Qle_bool_iff in Hle. congruence.
  - destruct (Qle_bool b a) eqn:E; [|reflexivity].
    apply Qle_bool_iff in E. exfalso. apply (Qlt_not_le _ _ H E).
Qed.

Lemma Qltb_ge (a b : Q) : Qltb a b = false <-> b <= a.
Proof.
  unfold Qltb. rewrite negb_false_iff. apply Qle_bool_iff.
Qed.

Lemma Qle_bool_gt (a b : Q) : Qle_bool a b = false <-> b < a.
Proof.
  rewrite <- Qltb_lt. unfold Qltb. rewrite negb_true_iff. reflexivity.
Qed.

Lemma truthy_neq (q : Q) : truthy q = true <-> ~ q == 0.
Proof.
  unfold truthy. rewrite negb_true_iff. split; intro H.
  - intro E. apply Qeq_bool_iff in E. congruence.
  - destruct (Qeq_bool q 0) eqn:E; [|reflexivity].
    apply Qeq_bool_iff in E. contradiction.
Qed.

Lemma truthy_eq (q : Q) : truthy q = false <-> q == 0.
Proof.
  unfold truthy. rewrite negb_false_iff. apply Qeq_bool_iff.
Qed.

(** On a non-negative number [int] is the floor. *)
Lemma py_int_floor (q : Q) : 0 <= q -> py_int q = Qfloor q.
Proof.
  destruct q as [n d]. unfold Qle, py_int, Qfloor. simpl. intro H.
  apply Z.quot_div_nonneg; lia.
Qed.

Lemma py_int_nonneg (q : Q) : 0 <= q -> (0 <= py_int q)%Z.
Proof.
  intro H. rewrite (py_int_floor H).
  change 0%Z with (Qfloor 0). apply Qfloor_resp_le. exact H.
Qed.


Lemma py_div_ret (a b q : Q) :
  py_div a b = Ret q -> ~ b == 0 /\ q = a / b.
Proof.
  unfold py_div. destruct (Qeq_bool b 0) eqn:E; [discriminate|].
  intro H. injection H as <-. split; [|reflexivity].
  intro Hb. apply Qeq_bool_iff in Hb. congruence.
Qed.


(** Dividing by a positive number keeps the order. *)
Lemma Qdiv_le_mono (a b c : Q) : 0 < c -> a <= b -> a / c <= b / c.
Proof.
  intros Hc Hab. apply Qle_shift_div_l; [exact Hc|].
  assert (E : a / c * c == a) by (field; lra).
  rewrite E. exact Hab.
Qed.

Lemma inject_Z_pos (z : Z) : (1 <= z)%Z -> 0 < inject_Z z.
Proof.
  intro H. change 0 with (inject_Z 0). rewrite <- Zlt_Qlt. lia.
Qed.

Lemma inject_Z_abs_nonzero (z : Z) :
  ~ inject_Z (Z.abs z) == 0 -> (1 <= Z.abs z)%Z.
Proof.
  intro H. destruct (Z.eq_dec (Z.abs z) 0) as [E|E].
  - rewrite E in H. exfalso. apply H. reflexivity.
  - lia.
Qed.

End PyNumFacts.

Import PyNumFacts.

Section Coroutines.

Context {A B : Type}.

Lemma result_bind_ret (m : M A) (f : A -> M B) (b : B) :
  result (bind m f) = Ret b ->
  exists a, result m = Ret a /\ result (f a) = Ret b.
Proof.
  destruct m as [t [a|]]; simpl.
  - destruct (f a) as [t' r] eqn:E. simpl. intros ->.
    exists a. rewrite E. split; reflexivity.
  - discriminate.
Qed.

Lemma result_try_except (m : M A) (h : M A) (a : A) :
  result (try_except m h) = Ret a ->
  result m = Ret a \/ (result m = Raise /\ result h = Ret a).
Proof.
  destruct m as [t [x|]]; simpl.
  - intros ->. left. reflexivity.
  - destruct h as [t' r]. simpl. intros ->. right. split; reflexivity.
Qed.

Lemma result_bind (m : M A) (f : A -> M B) :
  result (bind m f) =
  match result m with
  | Ret a => result (f a)
  | Raise => Raise
  end.
Proof.
  destruct m as [t [a|]]; simpl; [|reflexivity].
  destruct (f a). reflexivity.
Qed.

Lemma result_try (m h : M A) :
  result (try_except m h) =
  match result m with
  | Ret a => Ret a
  | Raise => result h
  end.
Proof.
  destruct m as [t [a|]]; simpl; [reflexivity|].
  destruct h. reflexivity.
Qed.

Lemma trace_bind_eq (m : M A) (f : A -> M B) :
  trace (bind m f) =
  (trace m ++ match result m with
              | Ret a => trace (f a)
              | Raise => []
              end)%list.
Proof.
  destruct m as [t [a|]]; simpl.
  - destruct (f a). reflexivity.
  - rewrite app_nil_r. reflexivity.
Qed.

Lemma trace_try (m h : M A) :
  trace (try_except m h) =
  (trace m ++ match result m with
              | Ret _ => []
              | Raise => trace h
              end)%list.
Proof.
  destruct m as [t [a|]]; simpl.
  - rewrite app_nil_r. reflexivity.
  - destruct h. reflexivity.
Qed.

Lemma bind_lift_ret (a : A) (f : A -> M B) : bind (lift (Ret a)) f = f a.
Proof.
  unfold bind, lift. destruct (f a). reflexivity.
Qed.

Lemma run_eq (m1 m2 : M A) :
  trace m1 = trace m2 -> result m1 = result m2 -> m1 = m2.
Proof.
  destruct m1, m2. simpl. intros -> ->. reflexivity.
Qed.

End Coroutines.

(** One step of a coroutine's result. *)
Ltac mstep :=
  match goal with
  | |- context [result (try_except ?m ?h)] => rewrite (result_try m h)
  | |- context [result (bind ?m ?f)] => rewrite (result_bind m f)
  | |- context [result (ret ?a)] => change (result (ret a)) with (Ret a)
  | |- context [result (lift ?o)] => change (result (lift o)) with o
  | |- context [result (get_market_info ?ad ?s)] =>
    change (result (get_market_info ad s)) with (ad_get_market_info ad s)
  | |- context [result (get_ticker ?ad ?s)] =>
    change (result (get_ticker ad s)) with (ad_get_ticker ad s)
  | |- context [result (normalize_amount ?ad ?s ?a)] =>
    change (result (normalize_amount ad s a)) with (ad_normalize_amount ad s a)
  | |- context [result (set_leverage ?ad ?s ?l ?mm)] =>
    change (result (set_leverage ad s l mm)) with (ad_set_leverage ad s l mm)
  | |- context [result (get_positions ?ad ?f)] =>
    change (result (get_positions ad f)) with (ad_get_positions ad f)
  | |- context [result (get_total_account_value_usdt ?ad)] =>
    change (result (get_total_account_value_usdt ad))
      with (ad_get_total_account_value_usdt ad)
  | |- context [result (place_order ?ad ?r)] =>
    change (result (place_order ad r)) with (ad_place_order ad r)
  end.

Ltac mrun := repeat first [mstep | progress cbv beta iota zeta].

(** One step of a coroutine's call log. *)
Ltac tstep :=
  match goal with
  | |- context [trace (try_except ?m ?h)] => rewrite (trace_try m h)
  | |- context [trace (bind ?m ?f)] => rewrite (trace_bind_eq m f)
  | |- context [trace (ret ?a)] => change (trace (ret a)) with (@nil Call)
  | |- context [trace (lift ?o)] => change (trace (lift o)) with (@nil Call)
  | |- context [trace (get_market_info ?ad ?s)] =>
    change (trace (get_market_info ad s)) with [Call_get_market_info s]
  | |- context [trace (get_ticker ?ad ?s)] =>
    change (trace (get_ticker ad s)) with [Call_get_ticker s]
  | |- context [trace (normalize_amount ?ad ?s ?a)] =>
    change (trace (normalize_amount ad s a)) with [Call_normalize_amount s a]
  | |- context [trace (set_leverage ?ad ?s ?l ?mm)] =>
    change (trace (set_leverage ad s l mm)) with [Call_set_leverage s l mm]
  | |- context [trace (get_positions ?ad ?f)] =>
    change (trace (get_positions ad f)) with [Call_get_positions f]
  | |- context [trace (get_total_account_value_usdt ?ad)] =>
    change (trace (get_total_account_value_usdt ad))
      with [Call_get_total_account_value_usdt]
  | |- context [trace (place_order ?ad ?r)] =>
    change (trace (place_order ad r)) with [Call_place_order r]
  end.

Ltac trun := repeat first [tstep | mstep | progress cbv beta iota zeta].

(* ------------------------------------------------------------------ *)
(** ** Sizing calculator *)

Module CalculatorFacts.

Import Calculator.
Open Scope Q_scope.

(** What a leverage returned by [select_leverage] satisfies. *)
Lemma select_leverage_some (N B lev : Q) (Le : Z) :
  select_leverage N B lev = Ret (Some Le) ->
  (1 <= Le)%Z /\ N / inject_Z Le <= B /\
  ((N / inject_Z (Z.abs (py_int lev)) <= B /\ Le = Z.abs (py_int lev)) \/
   (B < N / inject_Z (Z.abs (py_int lev)) /\ 0 < B /\
    N / B <= inject_Z FOLLOWER_MAX_LEVERAGE /\
    Le = Z.abs (Z.min FOLLOWER_MAX_LEVERAGE (py_int (N / B) + 2)) /\
    (Le <= FOLLOWER_MAX_LEVERAGE)%Z)).
Proof.
  unfold select_leverage.
  destruct (py_div N (inject_Z (Z.abs (py_int lev)))) as [rm|] eqn:Hrm;
    [|discriminate].
  apply py_div_ret in Hrm. destruct Hrm as [Hnz ->].
  destruct (Qltb B (N / inject_Z (Z.abs (py_int lev)))) eqn:Hgt.
  - destruct (Qltb 0 B) eqn:HB; [|discriminate].
    destruct (Qltb (inject_Z FOLLOWER_MAX_LEVERAGE) (N / B)) eqn:Hmax;
      [discriminate|].
    set (Le' := Z.abs (Z.min FOLLOWER_MAX_LEVERAGE (py_int (N / B) + 2))).
    destruct (py_div N (inject_Z Le')) as [fm|] eqn:Hfm; [|discriminate].
    apply py_div_ret in Hfm. destruct Hfm as [Hnz' ->].
    destruct (Qltb B (N / inject_Z Le')) eqn:Hfinal; [discriminate|].
    intro H. injection H as <-.
    apply Qltb_lt in Hgt. apply Qltb_lt in HB.
    apply Qltb_ge in Hmax. apply Qltb_ge in Hfinal.
    split; [apply inject_Z_abs_nonzero; exact Hnz'|].
    split; [exact Hfinal|]. right.
    repeat split; auto.
    assert (Hx : 0 < inject_Z (Z.abs (py_int lev))).
    { apply inject_Z_pos. apply inject_Z_abs_nonzero. exact Hnz. }
    assert (HN : 0 < N).
    { assert (E : N == N / inject_Z (Z.abs (py_int lev))
                       * inject_Z (Z.abs (py_int lev))) by (field; lra).
      rewrite E. nra. }
    assert (Hm : 0 <= N / B).
    { apply Qle_shift_div_l; [exact HB|]. lra. }
    pose proof (py_int_nonneg Hm) as Hi.
    unfold Le', FOLLOWER_MAX_LEVERAGE. lia.
  - destruct (py_div N (inject_Z (Z.abs (py_int lev)))) as [fm|] eqn:Hfm;
      [|discriminate].
    apply py_div_ret in Hfm. destruct Hfm as [_ ->].
    rewrite Hgt. intro H. injection H as <-.
    apply Qltb_ge in Hgt.
    split; [apply inject_Z_abs_nonzero; exact Hnz|].
    split; [exact Hgt|]. left. auto.
Qed.

(** Everything that holds when the calculator answers. *)
Lemma calculate_success (ad : Adapter) (lp : Position) (Ef El : Q)
    (L : option Q) (r : CalcResult) :
  result (calculate_follower_amount ad lp Ef El L) = Ret (Some r) ->
  exists limits ticker lev a0 Le,
    1 < El /\ 1 < Ef /\
    ad_get_market_info ad (pos_symbol lp) = Ret (Some limits) /\
    ad_get_ticker ad (pos_symbol lp) = Ret ticker /\
    0 < calc_price_of ticker lp /\
    L = Some lev /\
    proportional_amount_of lp Ef El L (calc_price_of ticker lp) = Ret a0 /\
    let a := lift_to_limits (amount_min limits) (cost_min limits)
               (calc_price_of ticker lp) a0 in
    select_leverage (a * calc_price_of ticker lp)
      (Ef * FOLLOWER_BUDGET_USAGE_PERCENT) lev = Ret (Some Le) /\
    ad_normalize_amount ad (pos_symbol lp) a = Ret (Some (res_amount r)) /\
    0 < res_amount r /\ res_leverage r = Z.abs Le.
Proof.
  unfold calculate_follower_amount. intro H.
  apply result_try_except in H. destruct H as [H|[_ H]]; [|discriminate].
  destruct (Qle_bool El 1) eqn:HEl; [discriminate|].
  destruct (Qle_bool Ef 1) eqn:HEf; [discriminate|].
  cbn [orb] in H.
  apply result_bind_ret in H. destruct H as [mi [Hmi H]].
  destruct mi as [limits|]; [|discriminate].
  apply result_bind_ret in H. destruct H as [ticker [Htk H]].
  destruct (truthy (calc_price_of ticker lp)) eqn:Htr; [|discriminate].
  destruct (Qle_bool (calc_price_of ticker lp) 0) eqn:Hp; [discriminate|].
  cbn [negb orb] in H.
  apply result_bind_ret in H. destruct H as [a0 [Ha0 H]].
  apply result_bind_ret in H. destruct H as [lev [Hlev H]].
  apply result_bind_ret in H. destruct H as [chosen [Hsel H]].
  destruct chosen as [Le|]; [|discriminate].
  apply result_bind_ret in H. destruct H as [fa [Hnorm H]].
  destruct fa as [fa|]; [|discriminate].
  destruct (Qle_bool fa 0) eqn:Hfa; [discriminate|].
  injection H as <-.
  exists limits, ticker, lev, a0, Le.
  apply Qle_bool_gt in HEl, HEf, Hp, Hfa.
  destruct L as [l|]; [|discriminate]. injection Hlev as ->.
  repeat split; auto.
Qed.

(** On a non-negative proportional amount and a positive price the code's
    truthiness tests change nothing: it lifts as the specification says. *)
Lemma lift_to_limits_spec (min_amount min_cost : option Q) (p a0 : Q) :
  0 < p -> 0 <= a0 ->
  lift_to_limits min_amount min_cost p a0 = spec_lift min_amount min_cost p a0.
Proof.
  intros Hp Ha0. unfold lift_to_limits, spec_lift.
  assert (Ha : 0 <= match min_amount with
                    | Some ma => if Qltb a0 ma then ma else a0
                    | None => a0
                    end).
  { destruct min_amount as [ma|]; [|exact Ha0].
    destruct (Qltb a0 ma) eqn:E; [|exact Ha0].
    apply Qltb_lt in E. lra. }
  assert (Hlift : match min_amount with
                  | Some ma => if truthy ma && Qltb a0 ma then ma else a0
                  | None => a0
                  end =
                  match min_amount with
                  | Some ma => if Qltb a0 ma then ma else a0
                  | None => a0
                  end).
  { destruct min_amount as [ma|]; [|reflexivity].
    destruct (truthy ma) eqn:T; [reflexivity|]. cbn [andb].
    destruct (Qltb a0 ma) eqn:E; [|reflexivity].
    apply truthy_eq in T. apply Qltb_lt in E. lra. }
  rewrite Hlift.
  set (a := match min_amount with
            | Some ma => if Qltb a0 ma then ma else a0
            | None => a0
            end) in *.
  destruct min_cost as [mc|]; [|reflexivity].
  assert (Hpb : Qltb 0 p = true) by (apply Qltb_lt; exact Hp).
  rewrite Hpb, andb_true_r.
  destruct (truthy mc) eqn:T; [reflexivity|]. cbn [andb].
  destruct (Qltb (a * p) mc) eqn:E; [|reflexivity].
  apply truthy_eq in T. apply Qltb_lt in E. nra.
Qed.




Import Scenarios.
Open Scope string_scope.

Lemma account_rounds_down (min_cost min_amount : option Q) (price equity : Q)
    (positions : list Position) :
  rounds_down (account min_cost min_amount price equity positions).
Proof.
  intros s a n H. simpl in H. injection H as <-.
  unfold truncate3. apply Qle_shift_div_r; [reflexivity|].
  apply Qfloor_le.
Qed.

(** C1 (P3, budget safety).  Whenever [calculate_follower_amount] returns
    [{amount, leverage}], the final gate has checked the budget at the
    leverage returned: the amount [a] handed to [normalize_amount]
    satisfies [a * price / leverage <= 0.90 * follower_total_value], where
    [price] is the ticker's last price or else the leader position's mark
    price; and so does the amount returned, [normalize_amount] never
    rounding up (the adapter contract). *)
Theorem budget_safety (ad : Adapter) (lp : Position) (Ef El : Q)
    (L : option Q) (r : CalcResult) :
  result (calculate_follower_amount ad lp Ef El L) = Ret (Some r) ->
  exists ticker a,
    ad_get_ticker ad (pos_symbol lp) = Ret ticker /\
    ad_normalize_amount ad (pos_symbol lp) a = Ret (Some (res_amount r)) /\
    a * calc_price_of ticker lp / inject_Z (res_leverage r) <= 0.90 * Ef /\
    (rounds_down ad ->
     res_amount r * calc_price_of ticker lp / inject_Z (res_leverage r)
     <= 0.90 * Ef).
Proof.
  intro H. apply calculate_success in H.
  destruct H as (limits & ticker & lev & a0 & Le & _ & _ & _ & Htk & Hp & _
                 & _ & Hsel & Hnorm & Hpos & Hlev).
  set (p := calc_price_of ticker lp) in *.
  set (a := lift_to_limits (amount_min limits) (cost_min limits) p a0) in *.
  exists ticker, a. split; [exact Htk|]. split; [exact Hnorm|].
  apply select_leverage_some in Hsel. destruct Hsel as (HLe & Hgate & _).
  rewrite Hlev, Z.abs_eq by lia.
  assert (Hbudget : a * p / inject_Z Le <= 0.90 * Ef)
    by (unfold FOLLOWER_BUDGET_USAGE_PERCENT in Hgate; lra).
  split; [exact Hbudget|].
  intro Hdown. apply Hdown in Hnorm.
  apply Qle_trans with (a * p / inject_Z Le); [|exact Hbudget].
  apply Qdiv_le_mono; [apply inject_Z_pos; exact HLe|].
  fold p. clearbody p a. nra.
Qed.

(** Scenario 1 of the specification: a 1 BTC long at 30000 with 5x on a
    10000 USDT leader, copied to a 1000 USDT follower. *)
Lemma budget_safety_witness :
  0.100 * 30000 / inject_Z 5 <= 0.90 * 1000.
Proof.
  destruct (@budget_safety (account (Some 5) (Some 0.001) 30000 1000 [])
              (position "BTC/USDT" Long 1 30000 5) 1000 10000 (Some 5)
              {| res_amount := 0.100; res_leverage := 5 |} eq_refl)
    as (ticker & a & Htk & _ & _ & H).
  injection Htk as <-.
  apply H. apply account_rounds_down.
Defined.

(** The leverage returned is at least 1; it is the leader's own, as
    [abs(int(...))], or an elevated one, which is at most 50. *)
Lemma leverage_range (ad : Adapter) (lp : Position) (Ef El : Q)
    (L : option Q) (r : CalcResult) :
  result (calculate_follower_amount ad lp Ef El L) = Ret (Some r) ->
  (1 <= res_leverage r)%Z /\
  ((exists lev, L = Some lev /\ res_leverage r = Z.abs (py_int lev)) \/
   (res_leverage r <= FOLLOWER_MAX_LEVERAGE)%Z).
Proof.
  intro H. apply calculate_success in H.
  destruct H as (limits & ticker & lev & a0 & Le & _ & _ & _ & _ & _ & HL
                 & _ & Hsel & _ & _ & Hlev).
  apply select_leverage_some in Hsel.
  destruct Hsel as (HLe & _ & [[_ E]|(_ & _ & _ & _ & E)]).
  - split; [lia|]. left. exists lev. split; [exact HL|].
    rewrite Hlev, E. apply Z.abs_eq. lia.
  - split; [lia|]. right. rewrite Hlev. lia.
Qed.

(** C2 (P4, leverage bound), at a leader leverage of 100.  The required
    margin fits the follower's budget, so no elevation takes place and the
    leader's leverage is returned as it is: 100, above
    [FOLLOWER_MAX_LEVERAGE]. *)
Theorem leverage_above_max_when_not_elevated :
  exists r,
    result (calculate_follower_amount
              (account (Some 5) (Some 0.001) 30000 1000 [])
              (position "BTC/USDT" Long 1 30000 100) 1000 10000 (Some 100))
    = Ret (Some r) /\
    res_amount r == 0.1 /\
    res_leverage r = 100%Z /\
    (FOLLOWER_MAX_LEVERAGE < res_leverage r)%Z.
Proof.
  eexists. split; [vm_compute; reflexivity|].
  split; [reflexivity|]. split; reflexivity.
Qed.




End CalculatorFacts.

(* ------------------------------------------------------------------ *)
(** ** Command dispatcher *)

Module CommandExecutorFacts.

Import Calculator CommandExecutor.
Open Scope Q_scope.

(** [adjust_amount_for_limits] catches every exception. *)
Lemma adjust_never_raises (ad : Adapter) (s : string) (a : Q) :
  exists r, result (adjust_amount_for_limits ad s a) = Ret r.
Proof.
  unfold adjust_amount_for_limits. mrun.
  destruct (ad_get_market_info ad s) as [[limits|]|]; mrun; eauto.
  destruct (ad_get_ticker ad s) as [ticker|]; mrun; eauto.
  destruct (ticker_price ticker) as [p|]; mrun; eauto.
  destruct (negb (truthy p) || Qle_bool p 0); mrun; eauto.
  destruct (ad_normalize_amount ad s _) as [[n|]|]; mrun; eauto.
Qed.

(** [adjust_amount_for_limits] places no order. *)
Lemma adjust_places_no_order (ad : Adapter) (s : string) (a : Q)
    (r : OrderRequest) :
  ~ In (Call_place_order r) (trace (adjust_amount_for_limits ad s a)).
Proof.
  unfold adjust_amount_for_limits. trun.
  destruct (ad_get_market_info ad s) as [[limits|]|]; trun;
    try (simpl; intuition discriminate).
  destruct (ad_get_ticker ad s) as [ticker|]; trun;
    try (simpl; intuition discriminate).
  destruct (ticker_price ticker) as [p|]; trun;
    try (simpl; intuition discriminate).
  destruct (negb (truthy p) || Qle_bool p 0); trun;
    try (simpl; intuition discriminate).
  destruct (ad_normalize_amount ad s _) as [[n|]|]; trun;
    simpl; intuition discriminate.
Qed.

Import Scenarios.
Open Scope string_scope.

(** A synthetic failure has no id, status [failed] and a message. *)
Lemma failed_order_shape (symbol : string) (side : OrderSide) (amount : Q)
    (msg : ErrorMessage) (ad : Adapter) :
  let o := failed_order symbol side amount msg ad in
  ord_status o = StFailed /\ ord_id o = None /\ ord_error_message o = Some msg.
Proof. repeat split. Qed.

(** C8 (open handler).  For a buy/sell command carrying an amount and a
    leverage: the first adapter call is [set_leverage]; if it answers false
    the handler returns the synthetic failed order (status [failed], no id,
    a message) having called nothing else; if [adjust_amount_for_limits]
    yields null the same kind of order is returned and no order is placed;
    and any [place_order] call comes after [set_leverage] answered true and
    the adjustment gave an amount, which is the amount placed. *)
Theorem open_position_preconditions (ad : Adapter) (c : Command) (a l : Q) :
  cmd_amount c = Some a -> cmd_leverage c = Some l ->
  let symbol := cmd_symbol c in
  let side := side_of_action (cmd_action c) in
  let lev_call := Call_set_leverage symbol (py_int l) (margin_mode_of c) in
  let run := _handle_open_position ad c in
  (exists rest, trace run = lev_call :: rest) /\
  (ad_set_leverage ad symbol (py_int l) (margin_mode_of c) = Ret false ->
   let o := failed_order symbol side a (MsgLeverageNotSet symbol (py_int l)) ad in
   run = ([lev_call], Ret o) /\
   ord_status o = StFailed /\ ord_id o = None /\ ord_error_message o <> None) /\
  (ad_set_leverage ad symbol (py_int l) (margin_mode_of c) = Ret true ->
   result (adjust_amount_for_limits ad symbol a) = Ret None ->
   let o := failed_order symbol side a (MsgAmountNotAdjustable symbol a) ad in
   result run = Ret o /\
   ord_status o = StFailed /\ ord_id o = None /\ ord_error_message o <> None /\
   forall r, ~ In (Call_place_order r) (trace run)) /\
  (forall r, In (Call_place_order r) (trace run) ->
   ad_set_leverage ad symbol (py_int l) (margin_mode_of c) = Ret true /\
   exists fa, result (adjust_amount_for_limits ad symbol a) = Ret (Some fa) /\
              req_amount r = Some fa /\ req_side r = side).
Proof.
  intros Ha Hl symbol side lev_call run.
  assert (Hrun : run =
    bind (set_leverage ad symbol (py_int l) (margin_mode_of c))
      (fun ok =>
         if negb ok then
           ret (failed_order symbol side a
                  (MsgLeverageNotSet symbol (py_int l)) ad)
         else
           bind (adjust_amount_for_limits ad symbol a)
             (fun final_amount =>
                match final_amount with
                | None =>
                  ret (failed_order symbol side a
                         (MsgAmountNotAdjustable symbol a) ad)
                | Some fa =>
                  place_order ad
                    {| req_symbol := symbol;
                       req_order_type := order_type_of c;
                       req_side := side;
                       req_amount := Some fa;
                       req_price := cmd_price c;
                       req_params := params_of c |}
                end))).
  { unfold run, _handle_open_position. rewrite Ha, Hl.
    unfold required. rewrite !bind_lift_ret. reflexivity. }
  clearbody run. subst run.
  destruct (adjust_never_raises ad symbol a) as [adj Hadj].
  pose proof (adjust_places_no_order ad symbol a) as Hno.
  repeat split.
  - eexists. trun. reflexivity.
  - apply run_eq.
    + trun. rewrite H. cbn [negb]. trun. reflexivity.
    + mrun. rewrite H. cbn [negb]. mrun. reflexivity.
  - discriminate.
  - mrun. rewrite H. cbn [negb]. mrun. rewrite H0. mrun. reflexivity.
  - discriminate.
  - intros r. trun. rewrite H. cbn [negb]. trun. rewrite H0. trun.
    rewrite app_nil_r. simpl. intros [E|E]; [discriminate|].
    exact (Hno r E).
  - revert H. trun.
    destruct (ad_set_leverage ad symbol (py_int l) (margin_mode_of c))
      as [[|]|]; cbn [negb]; trun; simpl; try (intuition discriminate).
  - revert H. trun.
    destruct (ad_set_leverage ad symbol (py_int l) (margin_mode_of c))
      as [[|]|]; cbn [negb]; trun; simpl; try (intuition discriminate).
    rewrite Hadj. intros [E|E]; [discriminate|].
    apply in_app_or in E. destruct E as [E|E]; [destruct (Hno r E)|].
    destruct adj as [fa|]; [|destruct E].
    revert E. trun. simpl. intros [E|[]]. injection E as <-.
    exists fa. repeat split.
Qed.

(** A command without ['amount'] or ['leverage'] raises [KeyError] before
    any adapter call; [execute] turns that into a failed status. *)
Lemma open_position_malformed (ad : Adapter) (c : Command) :
  cmd_amount c = None \/ cmd_leverage c = None ->
  _handle_open_position ad c = ([], Raise).
Proof.
  unfold _handle_open_position.
  intros [H|H]; rewrite H; [reflexivity|].
  destruct (cmd_amount c); reflexivity.
Qed.

(** A market buy of 0.1 BTC at 5x: on an account that refuses the leverage,
    on one whose market limits cannot be read, and on one that accepts
    everything. *)
Lemma open_position_preconditions_witness :
  let ad := account (Some 5) (Some 0.001) 30000 10000 [] in
  let lev_call := Call_set_leverage "BTC/USDT" 5 Isolated in
  _handle_open_position (leverage_refused ad) buy_command
  = ([lev_call],
     Ret (failed_order "BTC/USDT" Buy 0.1 (MsgLeverageNotSet "BTC/USDT" 5)
            (leverage_refused ad))) /\
  result (_handle_open_position (market_unknown ad) buy_command)
  = Ret (failed_order "BTC/USDT" Buy 0.1
           (MsgAmountNotAdjustable "BTC/USDT" 0.1) (market_unknown ad)) /\
  exists rest, trace (_handle_open_position ad buy_command) = lev_call :: rest.
Proof.
  intros ad lev_call. split; [|split].
  - destruct (@open_position_preconditions (leverage_refused ad) buy_command
                0.1 5 eq_refl eq_refl) as (_ & H & _).
    apply (H eq_refl).
  - destruct (@open_position_preconditions (market_unknown ad) buy_command
                0.1 5 eq_refl eq_refl) as (_ & _ & H & _).
    apply (H eq_refl eq_refl).
  - destruct (@open_position_preconditions ad buy_command
                0.1 5 eq_refl eq_refl) as (H & _).
    exact H.
Defined.

(** The whole run of the scale-out handler once the position is found, as
    a function of the amount lines 187-191 arrive at. *)
Lemma scale_out_run (ad : Adapter) (c : Command) (positions : list Position)
    (target_pos : Position) :
  ad_get_positions ad (Some [format_symbol_for_ccxt (cmd_symbol c)])
  = Ret positions ->
  find_position (format_symbol_for_ccxt (cmd_symbol c)) positions
  = Some target_pos ->
  let symbol_ccxt := format_symbol_for_ccxt (cmd_symbol c) in
  let amount := original_amount_to_close c target_pos in
  _handle_scale_out ad c =
  ((Call_get_positions (Some [symbol_ccxt])
    :: if Qle_bool amount 0 then []
       else
         trace (adjust_amount_for_limits ad symbol_ccxt amount)
         ++ match result (adjust_amount_for_limits ad symbol_ccxt amount) with
            | Ret (Some fa) =>
              if Qltb (pos_contracts target_pos) fa then []
              else [Call_place_order
                      (Handlers.scale_out_request symbol_ccxt c target_pos fa)]
            | _ => []
            end)%list,
   if Qle_bool amount 0
   then Ret (failed_order symbol_ccxt UnknownSide 0
               (MsgInvalidScaleOut amount) ad)
   else
     match result (adjust_amount_for_limits ad symbol_ccxt amount) with
     | Ret (Some fa) =>
       if Qltb (pos_contracts target_pos) fa
       then Ret (failed_order symbol_ccxt UnknownSide amount
                   (MsgScaleOutNotAdjustable symbol_ccxt) ad)
       else ad_place_order ad
              (Handlers.scale_out_request symbol_ccxt c target_pos fa)
     | Ret None =>
       Ret (failed_order symbol_ccxt UnknownSide amount
              (MsgScaleOutNotAdjustable symbol_ccxt) ad)
     | Raise => Raise
     end).
Proof.
  intros Hps Hfind symbol_ccxt amount.
  unfold _handle_scale_out. fold symbol_ccxt. cbv zeta.
  fold symbol_ccxt in Hps, Hfind. fold amount.
  apply run_eq.
  - trun. rewrite Hps. trun. rewrite Hfind. trun. fold amount.
    cbn [trace fst].
    destruct (Qle_bool amount 0); trun; [reflexivity|].
    destruct (result (adjust_amount_for_limits ad symbol_ccxt amount))
      as [[fa|]|]; trun; try reflexivity.
    destruct (Qltb (pos_contracts target_pos) fa); trun; reflexivity.
  - mrun. rewrite Hps. mrun. rewrite Hfind. mrun. fold amount.
    cbn [result snd].
    destruct (Qle_bool amount 0); mrun; [reflexivity|].
    destruct (result (adjust_amount_for_limits ad symbol_ccxt amount))
      as [[fa|]|]; mrun; try reflexivity.
    destruct (Qltb (pos_contracts target_pos) fa); mrun; reflexivity.
Qed.

(** C10 (scale-out).  When a scale-out command carries both ['amount'] and
    ['percentage'], the amount to close is ['amount'] and the handler does
    exactly what it does without the ['percentage'] key: once the position
    is found, its whole run (the calls it makes, the order it places, what
    it returns) is the run for ['amount'], in which the percentage does
    not occur; any order placed is for what [adjust_amount_for_limits]
    makes of ['amount'].  With ['amount'] absent the run is the same run
    for ['percentage'] * contracts / 100. *)
Theorem scale_out_amount_over_percentage (ad : Adapter) (c : Command)
    (a pct : Q) :
  cmd_amount c = Some a -> cmd_percentage c = Some pct ->
  (forall target_pos, original_amount_to_close c target_pos = a) /\
  _handle_scale_out ad c = _handle_scale_out ad (with_percentage None c) /\
  (forall target_pos,
     original_amount_to_close (with_amount None c) target_pos
     = pos_contracts target_pos * (pct / 100)) /\
  (forall positions target_pos,
     let symbol_ccxt := format_symbol_for_ccxt (cmd_symbol c) in
     ad_get_positions ad (Some [symbol_ccxt]) = Ret positions ->
     find_position symbol_ccxt positions = Some target_pos ->
     let run_for := fun amount : Q =>
       ((Call_get_positions (Some [symbol_ccxt])
         :: if Qle_bool amount 0 then []
            else
              trace (adjust_amount_for_limits ad symbol_ccxt amount)
              ++ match result (adjust_amount_for_limits ad symbol_ccxt
                                 amount) with
                 | Ret (Some fa) =>
                   if Qltb (pos_contracts target_pos) fa then []
                   else [Call_place_order
                           (Handlers.scale_out_request symbol_ccxt c
                              target_pos fa)]
                 | _ => []
                 end)%list,
        if Qle_bool amount 0
        then Ret (failed_order symbol_ccxt UnknownSide 0
                    (MsgInvalidScaleOut amount) ad)
        else
          match result (adjust_amount_for_limits ad symbol_ccxt amount) with
          | Ret (Some fa) =>
            if Qltb (pos_contracts target_pos) fa
            then Ret (failed_order symbol_ccxt UnknownSide amount
                        (MsgScaleOutNotAdjustable symbol_ccxt) ad)
            else ad_place_order ad
                   (Handlers.scale_out_request symbol_ccxt c target_pos fa)
          | Ret None =>
            Ret (failed_order symbol_ccxt UnknownSide amount
                   (MsgScaleOutNotAdjustable symbol_ccxt) ad)
          | Raise => Raise
          end) in
     _handle_scale_out ad c = run_for a /\
     _handle_scale_out ad (with_amount None c)
     = run_for (pos_contracts target_pos * (pct / 100))).
Proof.
  intros Ha Hp.
  assert (H1 : forall pos, original_amount_to_close c pos = a).
  { intro pos. unfold original_amount_to_close. rewrite Ha. reflexivity. }
  assert (H3 : forall pos,
             original_amount_to_close (with_amount None c) pos
             = pos_contracts pos * (pct / 100)).
  { intro pos. unfold original_amount_to_close. simpl. rewrite Hp.
    reflexivity. }
  split; [exact H1|]. split; [|split; [exact H3|]].
  - unfold _handle_scale_out, original_amount_to_close, params_of,
      order_type_of. simpl. rewrite Ha. reflexivity.
  - intros positions target_pos symbol_ccxt Hps Hfind run_for. split.
    + rewrite (scale_out_run ad c Hps Hfind). cbv zeta. rewrite H1.
      reflexivity.
    + rewrite (@scale_out_run ad (with_amount None c) positions target_pos
                 Hps Hfind).
      cbv zeta. rewrite H3. reflexivity.
Qed.

(** Closing 1 BTC of a 4 BTC long, with a stray percentage of 50: the
    order is for 1 BTC; without the amount it is for 2 BTC. *)
Lemma scale_out_amount_over_percentage_witness :
  let target_pos := position "BTC/USDT" Long 4 30000 5 in
  let ad := account (Some 5) (Some 0.001) 30000 10000 [target_pos] in
  original_amount_to_close scale_out_command target_pos = 1 /\
  placed_orders (trace (_handle_scale_out ad scale_out_command)) =
  [Handlers.scale_out_request "BTC/USDT" scale_out_command target_pos
     (truncate3 1)] /\
  placed_orders
    (trace (_handle_scale_out ad (with_amount None scale_out_command))) =
  [Handlers.scale_out_request "BTC/USDT" scale_out_command target_pos
     (truncate3 2)].
Proof.
  intros target_pos ad.
  destruct (@scale_out_amount_over_percentage ad scale_out_command 1 50
              eq_refl eq_refl) as (H1 & _ & _ & Hrun).
  destruct (Hrun [target_pos] target_pos eq_refl eq_refl) as [Ha Hp].
  split; [exact (H1 target_pos)|].
  split; [rewrite Ha|rewrite Hp]; vm_compute; reflexivity.
Defined.

End CommandExecutorFacts.

(* ------------------------------------------------------------------ *)
(** ** Reconciliation loop *)

Module SyncFacts.

Import Calculator Sync Scenarios.
Open Scope Q_scope.
Open Scope string_scope.

(** [_should_late_join] catches every exception. *)
Lemma should_late_join_never_raises (now_ms : Q) (lp : Position)
    (ad : Adapter) :
  exists b, result (_should_late_join now_ms lp ad) = Ret b.
Proof.
  unfold _should_late_join. mrun.
  destruct (ad_get_ticker ad (pos_symbol lp)) as [ticker|]; mrun; eauto.
  destruct (last ticker) as [p|]; mrun; eauto.
  destruct (price_change_of p (pos_entry_price lp)) as [d|]; mrun; eauto.
  destruct (Qltb _ d); mrun; eauto.
  destruct (timestamp_set (pos_timestamp_ms lp)) as [ts|]; mrun; eauto.
  destruct (Qltb _ _); mrun; eauto.
Qed.

(** Any failure on the way is a refusal. *)
Lemma should_late_join_conservative (now_ms : Q) (lp : Position)
    (ad : Adapter) :
  (ad_get_ticker ad (pos_symbol lp) = Raise ->
   result (_should_late_join now_ms lp ad) = Ret false) /\
  (forall ticker,
     ad_get_ticker ad (pos_symbol lp) = Ret ticker ->
     last ticker = None \/ pos_entry_price lp == 0 ->
     result (_should_late_join now_ms lp ad) = Ret false).
Proof.
  unfold _should_late_join. split.
  - intro H. mrun. rewrite H. reflexivity.
  - intros ticker H [E|E]; mrun; rewrite H; mrun.
    + rewrite E. reflexivity.
    + destruct (last ticker) as [p|]; mrun; [|reflexivity].
      unfold price_change_of, py_div.
      apply Qeq_bool_iff in E. rewrite E. reflexivity.
Qed.

(** With a non-zero entry price, [|p - e| / e] is at most [|(p - e) / e|],
    the quantity the code compares. *)
Lemma abs_over_entry (p e : Q) :
  ~ e == 0 -> Qabs (p - e) / e <= Qabs ((p - e) / e).
Proof.
  intro He.
  assert (Habs : Qabs ((p - e) / e) == Qabs (p - e) / Qabs e).
  { unfold Qdiv. rewrite Qabs_Qmult, Qabs_Qinv. reflexivity. }
  rewrite Habs.
  pose proof (Qabs_nonneg (p - e)) as Hn.
  destruct (Qlt_le_dec 0 e) as [Hpos|Hneg].
  - rewrite (Qabs_pos e) by lra. apply Qle_refl.
  - assert (He' : e < 0).
    { destruct (Q_dec e 0) as [[?|?]|?]; [assumption|lra|contradiction]. }
    rewrite (Qabs_neg e) by lra.
    apply Qle_trans with 0.
    + assert (E1 : Qabs (p - e) / e == - (Qabs (p - e) / - e)) by (field; lra).
      rewrite E1.
      assert (0 <= Qabs (p - e) / - e) by (apply Qle_shift_div_l; lra).
      lra.
    + apply Qle_shift_div_l; lra.
Qed.

(** C7 (late-join gates), as the code has it.  [_should_late_join] answers
    true only if the ticker was read, its last price [p] is within 0.75% of
    the leader's entry price [e] ([|p - e| / e <= 0.0075]), and, when the
    leader position carries a timestamp, its age is at most 30 minutes; a
    failure to read the ticker or to compute a gate makes it answer false. *)
Theorem late_join_gates (now_ms : Q) (lp : Position) (ad : Adapter) :
  (result (_should_late_join now_ms lp ad) = Ret true ->
   exists ticker p,
     ad_get_ticker ad (pos_symbol lp) = Ret ticker /\
     last ticker = Some p /\
     Qabs (p - pos_entry_price lp) / pos_entry_price lp <= 0.0075 /\
     forall ts, timestamp_set (pos_timestamp_ms lp) = Some ts ->
                pos_age_seconds_of now_ms ts <= 30 * 60) /\
  (ad_get_ticker ad (pos_symbol lp) = Raise ->
   result (_should_late_join now_ms lp ad) = Ret false) /\
  (forall ticker,
     ad_get_ticker ad (pos_symbol lp) = Ret ticker ->
     last ticker = None \/ pos_entry_price lp == 0 ->
     result (_should_late_join now_ms lp ad) = Ret false).
Proof.
  split; [|apply should_late_join_conservative].
  unfold _should_late_join. mrun.
  destruct (ad_get_ticker ad (pos_symbol lp)) as [ticker|]; mrun;
    [|discriminate].
  destruct (last ticker) as [p|] eqn:Hlast; mrun; [|discriminate].
  destruct (price_change_of p (pos_entry_price lp)) as [d|] eqn:Hd; mrun;
    [|discriminate].
  unfold price_change_of in Hd.
  destruct (py_div (p - pos_entry_price lp) (pos_entry_price lp))
    as [x|] eqn:Hx; [|discriminate].
  injection Hd as <-. apply py_div_ret in Hx. destruct Hx as [He ->].
  destruct (Qltb (LATE_JOIN_MAX_PRICE_CHANGE_PERCENT / 100) _) eqn:Hgate;
    mrun; [discriminate|].
  apply Qltb_ge in Hgate.
  intro H. exists ticker, p.
  split; [reflexivity|]. split; [exact Hlast|]. split.
  - apply Qle_trans with (Qabs ((p - pos_entry_price lp) / pos_entry_price lp)).
    + apply abs_over_entry. exact He.
    + unfold LATE_JOIN_MAX_PRICE_CHANGE_PERCENT in Hgate.
      assert (E : 0.75 / 100 == 0.0075) by reflexivity.
      rewrite E in Hgate. exact Hgate.
  - intros ts Hts. rewrite Hts in H. revert H. mrun.
    destruct (Qltb (LATE_JOIN_MAX_AGE_MINUTES * 60) _) eqn:Hage; mrun;
      [discriminate|].
    intros _. apply Qltb_ge in Hage.
    unfold LATE_JOIN_MAX_AGE_MINUTES in Hage. exact Hage.
Qed.

(** A position opened two minutes ago at 30000, the price now 30100; and
    the same with the ticker out of reach. *)
Lemma late_join_gates_witness :
  let lp := position_at "BTC/USDT" Long 1 30000 5 1000000 in
  let ad := account (Some 5) (Some 0.001) 30100 1000 [] in
  (exists ticker p,
     ad_get_ticker ad (pos_symbol lp) = Ret ticker /\
     last ticker = Some p /\
     Qabs (p - pos_entry_price lp) / pos_entry_price lp <= 0.0075 /\
     forall ts, timestamp_set (pos_timestamp_ms lp) = Some ts ->
                pos_age_seconds_of 1120000 ts <= 30 * 60) /\
  result (_should_late_join 1120000 lp (ticker_down ad)) = Ret false.
Proof.
  intros lp ad. split.
  - apply (proj1 (late_join_gates 1120000 lp ad)).
    vm_compute. reflexivity.
  - apply (proj1 (proj2 (late_join_gates 1120000 lp (ticker_down ad)))).
    reflexivity.
Defined.

(** C7 as stated fails at the boundary: a position opened exactly 30
    minutes (1 800 000 ms) ago, at an unchanged price, is admitted although
    it is not younger than 30 minutes. *)
Lemma late_join_at_thirty_minutes :
  let lp := position_at "BTC/USDT" Long 1 30000 5 1000000 in
  let ad := account (Some 5) (Some 0.001) 30000 1000 [] in
  let now_ms := 2800000 in
  result (_should_late_join now_ms lp ad) = Ret true /\
  timestamp_set (pos_timestamp_ms lp) = Some 1000000%Z /\
  ~ pos_age_seconds_of now_ms 1000000 < 30 * 60.
Proof.
  split; [vm_compute; reflexivity|]. split; [reflexivity|].
  vm_compute. discriminate.
Qed.

(** Every order the orphan pass places is [orphan_close_request] for a
    follower position whose symbol the leader does not hold: reduce-only,
    on the side opposite to that position, for its full contracts. *)
Lemma orphan_orders (ad : Adapter) (leader_positions : dict Position)
    (items : list (string * Position)) (r : OrderRequest) :
  In (Call_place_order r) (trace (close_orphans ad leader_positions items)) ->
  exists symbol pos,
    In (symbol, pos) items /\
    dict_mem symbol leader_positions = false /\
    r = orphan_close_request symbol pos /\
    p_reduceOnly (req_params r) = Some true /\
    req_side r = Replication.reducing_side (pos_side pos) /\
    req_amount r = Some (pos_contracts pos).
Proof.
  induction items as [|[symbol pos] rest IH]; simpl.
  - intros [].
  - trun. destruct (dict_mem symbol leader_positions) eqn:Hmem; trun.
    + simpl. intro Hin.
      destruct (IH Hin) as (s' & p' & Hin' & H).
      exists s', p'. split; [right; exact Hin'|exact H].
    + destruct (ad_place_order ad (orphan_close_request symbol pos)); trun.
      * simpl. intros [E|Hin].
        -- injection E as <-. exists symbol, pos.
           repeat split; auto.
        -- destruct (IH Hin) as (s' & p' & Hin' & H).
           exists s', p'. split; [right; exact Hin'|exact H].
      * simpl. intros [E|[]]. injection E as <-. exists symbol, pos.
        repeat split; auto.
Qed.

End SyncFacts.

(* ------------------------------------------------------------------ *)
(** ** Replication engine *)

Module ReplicationFacts.

Import Calculator Replication Scenarios.
Open Scope Q_scope.
Open Scope string_scope.

(** The whole run for one follower on the reduce-only path, once the
    follower's position is found and the amount to close is known. *)
Lemma reduce_only_run (f : Follower) (ad : Adapter) (o : Order)
    (lp : Position) (ltv v : Q) (ps : list Position) (fp : Position)
    (amt : Q) :
  adapter_of f = Ret (Some ad) ->
  ad_get_total_account_value_usdt ad = Ret (Some v) -> 1 < v ->
  is_reduce_only o = true ->
  ad_get_positions ad None = Ret ps ->
  dict_get (pos_symbol lp) (by_symbol ps) = Some fp ->
  close_amount lp o fp = Some amt -> 0 < amt ->
  _replicate_for_single_follower f o lp ltv =
  ([Call_get_total_account_value_usdt; Call_get_positions None;
    Call_normalize_amount (ord_symbol o) amt]
   ++ match ad_normalize_amount ad (ord_symbol o) amt with
      | Ret n => [Call_place_order (reduce_only_request o lp n)]
      | Raise => []
      end,
   match ad_normalize_amount ad (ord_symbol o) amt with
   | Ret n =>
     match ad_place_order ad (reduce_only_request o lp n) with
     | Ret follower_order => Ret (result_of_order follower_order)
     | Raise => Ret (Failed GeneralError)
     end
   | Raise => Ret (Failed GeneralError)
   end)%list.
Proof.
  intros Had Hv Hgt Hro Hps Hfp Hamt Hpos.
  assert (G1 : truthy v = true) by (apply truthy_neq; lra).
  assert (G2 : Qle_bool v 1 = false) by (apply Qle_bool_gt; exact Hgt).
  assert (G3 : Qle_bool amt 0 = false) by (apply Qle_bool_gt; exact Hpos).
  unfold _replicate_for_single_follower. rewrite Had, bind_lift_ret.
  apply run_eq.
  - trun. rewrite Hv. trun. rewrite G1, G2. cbn [negb orb]. trun.
    unfold prepare_order. rewrite Hro. trun. rewrite Hps. trun.
    rewrite Hfp. trun. rewrite Hamt. trun. rewrite G3. trun.
    fold (reduce_only_request o lp).
    destruct (ad_normalize_amount ad (ord_symbol o) amt) as [n|]; trun.
    + change (reducing_side (pos_side lp))
        with (req_side (reduce_only_request o lp n)).
      destruct (ad_place_order ad _) as [fo|]; trun;
        [destruct (ord_status fo); trun|]; reflexivity.
    + reflexivity.
  - mrun. rewrite Hv. mrun. rewrite G1, G2. cbn [negb orb]. mrun.
    unfold prepare_order. rewrite Hro. mrun. rewrite Hps. mrun.
    rewrite Hfp. mrun. rewrite Hamt. mrun. rewrite G3. mrun.
    destruct (ad_normalize_amount ad (ord_symbol o) amt) as [n|]; mrun;
      [|reflexivity].
    change {| req_symbol := ord_symbol o; req_order_type := Market;
              req_side := match pos_side lp with Long => Sell | Short => Buy end;
              req_amount := n; req_price := None;
              req_params := reduce_only_params |}
      with (reduce_only_request o lp n).
    destruct (ad_place_order ad (reduce_only_request o lp n)) as [fo|]; mrun;
      [|reflexivity].
    unfold result_of_order. destruct (ord_status fo); reflexivity.
Qed.

(** [replicate_action] past its guards: the snapshot chosen by
    [leader_pos_to_replicate] is what every follower task receives. *)
Lemma replicate_action_fan_out (followers : list Follower) (uid : string)
    (lad : Adapter) (o : Order) (ltv : Q) (lps : list Position)
    (lp : Position) :
  filter (fun f => negb (String.eqb (user_id f) uid)) followers <> [] ->
  ad_get_total_account_value_usdt lad = Ret (Some ltv) -> 1 < ltv ->
  ad_get_positions lad None = Ret lps ->
  leader_pos_to_replicate (by_symbol lps) o = Some lp ->
  let followers' :=
    filter (fun f => negb (String.eqb (user_id f) uid)) followers in
  result (replicate_action followers uid (Some lad) o) =
  match gathered (fan_out followers' o lp ltv) with
  | Ret results =>
    Ret (Completed (List.length followers')
           (List.length (filter is_success results))
           (List.length (filter is_failed results))
           (List.length (filter is_skipped results))
           results)
  | Raise => Raise
  end.
Proof.
  intros Hne Hv Hgt Hps Hlp followers'.
  assert (G1 : truthy ltv = true) by (apply truthy_neq; lra).
  assert (G2 : Qle_bool ltv 1 = false) by (apply Qle_bool_gt; exact Hgt).
  unfold replicate_action. fold followers'.
  destruct followers' as [|f0 rest] eqn:E; [contradiction|].
  mrun. rewrite Hv. mrun. rewrite G1, G2. cbn [negb orb]. mrun.
  rewrite Hps. mrun. rewrite Hlp. mrun.
  destruct (gathered (fan_out (f0 :: rest) o lp ltv)); mrun; reflexivity.
Qed.

(** Once [get_adapter] has answered for a follower, its task returns:
    everything after line 107 sits in the [try] of line 112. *)
Lemma task_returns (f : Follower) (o : Order) (lp : Position) (ltv : Q) :
  adapter_of f <> Raise ->
  exists detail,
    result (_replicate_for_single_follower f o lp ltv) = Ret detail.
Proof.
  intro Hok. unfold _replicate_for_single_follower.
  destruct (adapter_of f) as [[ad|]|]; [| |contradiction].
  - rewrite bind_lift_ret. cbv beta iota. rewrite result_try.
    match goal with
    | |- context [match ?x with Ret _ => _ | Raise => _ end] => destruct x
    end; [eauto|exists (Failed GeneralError); reflexivity].
  - exists (Failed NoAdapter). reflexivity.
Qed.

(** [asyncio.gather] over the tasks of a fan-out: one result per follower,
    in order, each the result of that follower's task. *)
Lemma gathered_tasks (followers : list Follower) (o : Order)
    (lp : Position) (ltv : Q) :
  (forall f, In f followers -> adapter_of f <> Raise) ->
  exists details,
    gathered (fan_out followers o lp ltv) = Ret details /\
    Forall2 (fun f detail =>
               result (_replicate_for_single_follower f o lp ltv) = Ret detail)
            followers details.
Proof.
  induction followers as [|f rest IH]; intro Hall.
  - exists []. split; [reflexivity|constructor].
  - destruct (task_returns f o lp ltv (Hall f (or_introl eq_refl)))
      as (d & Hd).
    destruct IH as (ds & Hg & Hds);
      [intros f' Hin; apply Hall; right; exact Hin|].
    exists (d :: ds). unfold fan_out in *. cbn [map gathered].
    rewrite Hd, Hg. split; [reflexivity|constructor; assumption].
Qed.

(** C4 (close detection, full close).  When the leader has no position for
    the order's symbol and the order is reduce-only, the snapshot is the
    placeholder: no contracts, the side opposite to the order's (long for a
    sell, short for a buy), [is_placeholder_for_close] set and
    [closed_amount] the filled amount; against it the amount to close is
    the follower position's contracts.  [replicate_action] then completes
    with one detail per follower other than the leader, each the result of
    that follower's task run on the placeholder; and for a follower that
    holds a position in the symbol, that task normalizes the position's
    full contracts and places them as a reduce-only market order, whose
    answer is the follower's detail.  ([get_adapter] is taken to have
    answered for every follower: were it to raise for one, the fan-out
    would raise.) *)
Theorem full_close_via_placeholder (lps : list Position) (o : Order) :
  dict_get (format_symbol_for_ccxt (ord_symbol o)) (by_symbol lps) = None ->
  is_reduce_only o = true ->
  exists ph,
    leader_pos_to_replicate (by_symbol lps) o = Some ph /\
    pos_symbol ph = format_symbol_for_ccxt (ord_symbol o) /\
    pos_contracts ph = 0 /\
    (ord_side o = Sell -> pos_side ph = Long) /\
    (ord_side o = Buy -> pos_side ph = Short) /\
    is_placeholder_for_close (pos_raw_data ph) = true /\
    closed_amount (pos_raw_data ph) = Some (ord_filled o) /\
    (forall fp, close_amount ph o fp = Some (pos_contracts fp)) /\
    (forall followers uid lad ltv,
       let followers' :=
         filter (fun f => negb (String.eqb (user_id f) uid)) followers in
       followers' <> [] ->
       ad_get_total_account_value_usdt lad = Ret (Some ltv) -> 1 < ltv ->
       ad_get_positions lad None = Ret lps ->
       (forall f, In f followers' -> adapter_of f <> Raise) ->
       exists details,
         result (replicate_action followers uid (Some lad) o) =
         Ret (Completed (List.length followers')
                (List.length (filter is_success details))
                (List.length (filter is_failed details))
                (List.length (filter is_skipped details))
                details) /\
         Forall2
           (fun f detail =>
              result (_replicate_for_single_follower f o ph ltv)
              = Ret detail /\
              forall ad v ps fp,
                adapter_of f = Ret (Some ad) ->
                ad_get_total_account_value_usdt ad = Ret (Some v) -> 1 < v ->
                ad_get_positions ad None = Ret ps ->
                dict_get (pos_symbol ph) (by_symbol ps) = Some fp ->
                0 < pos_contracts fp ->
                trace (_replicate_for_single_follower f o ph ltv) =
                ([Call_get_total_account_value_usdt; Call_get_positions None;
                  Call_normalize_amount (ord_symbol o) (pos_contracts fp)]
                 ++ match ad_normalize_amount ad (ord_symbol o)
                            (pos_contracts fp) with
                    | Ret n => [Call_place_order (reduce_only_request o ph n)]
                    | Raise => []
                    end)%list /\
                detail =
                match ad_normalize_amount ad (ord_symbol o)
                        (pos_contracts fp) with
                | Ret n =>
                  match ad_place_order ad (reduce_only_request o ph n) with
                  | Ret follower_order => result_of_order follower_order
                  | Raise => Failed GeneralError
                  end
                | Raise => Failed GeneralError
                end)
           followers' details).
Proof.
  intros Hnone Hro.
  exists (placeholder_position (format_symbol_for_ccxt (ord_symbol o)) o).
  set (ph := placeholder_position (format_symbol_for_ccxt (ord_symbol o)) o).
  assert (Hsnap : leader_pos_to_replicate (by_symbol lps) o = Some ph).
  { unfold leader_pos_to_replicate. rewrite Hnone, Hro. reflexivity. }
  split; [exact Hsnap|].
  split; [reflexivity|]. split; [reflexivity|].
  split; [intro E; simpl; rewrite E; reflexivity|].
  split; [intro E; simpl; rewrite E; reflexivity|].
  split; [reflexivity|]. split; [reflexivity|].
  split; [intro fp; reflexivity|].
  intros followers uid lad ltv followers' Hne Hv Hgt Hps Hall.
  destruct (gathered_tasks followers' o ph ltv Hall) as (details & Hg & Hds).
  exists details. split.
  - rewrite (@replicate_action_fan_out followers uid lad o ltv lps ph
               Hne Hv Hgt Hps Hsnap).
    cbv zeta. fold followers'. rewrite Hg. reflexivity.
  - revert Hds. apply Forall2_impl. intros f detail Hd.
    split; [exact Hd|].
    intros ad v ps fp Had Hfv Hfgt Hfps Hfp Hpos.
    assert (Hamt : close_amount ph o fp = Some (pos_contracts fp))
      by reflexivity.
    rewrite (@reduce_only_run f ad o ph ltv v ps fp _
               Had Hfv Hfgt Hro Hfps Hfp Hamt Hpos) in Hd |- *.
    split; [reflexivity|].
    cbn [result snd] in Hd.
    destruct (ad_normalize_amount ad (ord_symbol o) (pos_contracts fp))
      as [n|]; [destruct (ad_place_order ad _)|];
      injection Hd as <-; reflexivity.
Qed.

(** Scenario 4 of the specification: the leader sold its 2 BTC long
    reduce-only and holds nothing; the follower holds 0.15 BTC long and
    closes all of it. *)
Lemma full_close_via_placeholder_witness :
  let fp := position "BTC/USDT" Long 0.15 30000 5 in
  let ad := account (Some 5) (Some 0.001) 30000 1000 [fp] in
  let f := {| user_id := "follower"; adapter_of := Ret (Some ad) |} in
  let lad := account (Some 5) (Some 0.001) 30000 10000 [] in
  let o := leader_fill "BTC/USDT" Sell 2 true in
  exists ph detail,
    leader_pos_to_replicate (by_symbol []) o = Some ph /\
    pos_contracts ph = 0 /\ pos_side ph = Long /\
    is_placeholder_for_close (pos_raw_data ph) = true /\
    closed_amount (pos_raw_data ph) = Some 2 /\
    close_amount ph o fp = Some 0.15 /\
    result (replicate_action [f] "leader" (Some lad) o)
    = Ret (Completed 1 1 0 0 [detail]) /\
    detail = Success (Some "1") (truncate3 0.15) /\
    trace (_replicate_for_single_follower f o ph 10000) =
    [Call_get_total_account_value_usdt; Call_get_positions None;
     Call_normalize_amount "BTC/USDT" 0.15;
     Call_place_order (reduce_only_request o ph (Some (truncate3 0.15)))].
Proof.
  intros fp ad f lad o.
  destruct (@full_close_via_placeholder [] o eq_refl eq_refl)
    as (ph & H1 & Hsym & H2 & H3 & _ & H4 & H5 & Hamount & Hfan).
  assert (Hheld : dict_get (pos_symbol ph) (by_symbol [fp]) = Some fp)
    by (rewrite Hsym; reflexivity).
  destruct (Hfan [f] "leader" lad 10000) as (details & Hres & Hall).
  - discriminate.
  - reflexivity.
  - reflexivity.
  - reflexivity.
  - intros f' [<-|[]]. discriminate.
  - change (filter (fun f0 => negb (String.eqb (user_id f0) "leader")) [f])
      with [f] in Hall, Hres.
    inversion Hall as [|f0 detail fs ds [Hd Hrun] Hrest]; subst.
    inversion Hrest; subst.
    destruct (Hrun ad 1000 [fp] fp eq_refl eq_refl eq_refl eq_refl
                Hheld eq_refl) as [Htrace Hdetail].
    exists ph, detail.
    split; [exact H1|]. split; [exact H2|]. split; [exact (H3 eq_refl)|].
    split; [exact H4|]. split; [exact H5|]. split; [exact (Hamount fp)|].
    split; [rewrite Hres, Hdetail; reflexivity|].
    split; [rewrite Hdetail; reflexivity|].
    rewrite Htrace. reflexivity.
Defined.

(** C5 (partial close).  For a reduce-only leader order replicated against
    a real (non-placeholder) leader snapshot, and a follower holding a
    position in the symbol: if [leader contracts + filled] is below [1e-9]
    the follower result is a failure and nothing is placed; otherwise the
    amount to close is [follower contracts * (filled / (leader contracts +
    filled))], and, when positive, it is what is normalized and placed as
    a reduce-only market order. *)
Theorem partial_close_amount (f : Follower) (ad : Adapter) (o : Order)
    (lp : Position) (ltv v : Q) (ps : list Position) (fp : Position) :
  adapter_of f = Ret (Some ad) ->
  ad_get_total_account_value_usdt ad = Ret (Some v) -> 1 < v ->
  is_reduce_only o = true ->
  is_placeholder_for_close (pos_raw_data lp) = false ->
  ad_get_positions ad None = Ret ps ->
  dict_get (pos_symbol lp) (by_symbol ps) = Some fp ->
  let original_leader_contracts := pos_contracts lp + ord_filled o in
  let amount :=
    pos_contracts fp * (ord_filled o / original_leader_contracts) in
  (original_leader_contracts < 1e-9 ->
   _replicate_for_single_follower f o lp ltv =
   ([Call_get_total_account_value_usdt; Call_get_positions None],
    Ret (Failed LeaderOriginalSizeZero))) /\
  (1e-9 <= original_leader_contracts ->
   close_amount lp o fp = Some amount /\
   (0 < amount ->
    trace (_replicate_for_single_follower f o lp ltv) =
    [Call_get_total_account_value_usdt; Call_get_positions None;
     Call_normalize_amount (ord_symbol o) amount]
    ++ match ad_normalize_amount ad (ord_symbol o) amount with
       | Ret n => [Call_place_order (reduce_only_request o lp n)]
       | Raise => []
       end)%list).
Proof.
  intros Had Hv Hgt Hro Hreal Hps Hfp original amount. split.
  - intro Hsmall.
    assert (G1 : truthy v = true) by (apply truthy_neq; lra).
    assert (G2 : Qle_bool v 1 = false) by (apply Qle_bool_gt; exact Hgt).
    assert (Hamt : close_amount lp o fp = None).
    { unfold close_amount. rewrite Hreal. fold original.
      apply Qltb_lt in Hsmall. rewrite Hsmall. reflexivity. }
    unfold _replicate_for_single_follower. rewrite Had.
    apply run_eq.
    + trun. rewrite Hv. trun. rewrite G1, G2. cbn [negb orb]. trun.
      unfold prepare_order. rewrite Hro. trun. rewrite Hps. trun.
      rewrite Hfp. trun. rewrite Hamt. trun. reflexivity.
    + mrun. rewrite Hv. mrun. rewrite G1, G2. cbn [negb orb]. mrun.
      unfold prepare_order. rewrite Hro. mrun. rewrite Hps. mrun.
      rewrite Hfp. mrun. rewrite Hamt. mrun. reflexivity.
  - intro Hbig.
    assert (Hamt : close_amount lp o fp = Some amount).
    { unfold close_amount. rewrite Hreal. fold original.
      apply Qltb_ge in Hbig. rewrite Hbig. reflexivity. }
    split; [exact Hamt|]. intro Hpos.
    rewrite (@reduce_only_run f ad o lp ltv v ps fp _
               Had Hv Hgt Hro Hps Hfp Hamt Hpos).
    reflexivity.
Qed.

(** Scenario 5 of the specification: the leader scaled 1 BTC out of 4 and
    holds 3; the follower holds 0.4 BTC and closes a quarter of it. *)
Lemma partial_close_amount_witness :
  let fp := position "BTC/USDT" Long 0.4 30000 5 in
  let lp := position "BTC/USDT" Long 3 30000 5 in
  let ad := account (Some 5) (Some 0.001) 30000 1000 [fp] in
  let f := {| user_id := "follower"; adapter_of := Ret (Some ad) |} in
  let o := leader_fill "BTC/USDT" Sell 1 true in
  close_amount lp o fp = Some (0.4 * (1 / (3 + 1))) /\
  trace (_replicate_for_single_follower f o lp 10000) =
  [Call_get_total_account_value_usdt; Call_get_positions None;
   Call_normalize_amount "BTC/USDT" (0.4 * (1 / (3 + 1)));
   Call_place_order
     (reduce_only_request o lp (Some (truncate3 (0.4 * (1 / (3 + 1))))))].
Proof.
  intros fp lp ad f o.
  destruct (@partial_close_amount f ad o lp 10000 1000 [fp] fp
              eq_refl eq_refl eq_refl eq_refl eq_refl eq_refl eq_refl)
    as [_ H].
  assert (Hbig : 1e-9 <= pos_contracts lp + ord_filled o)
    by (vm_compute; discriminate).
  destruct (H Hbig) as [Hamount Htrace].
  split; [exact Hamount|].
  apply Htrace. reflexivity.
Defined.

(** No order in a log that holds none. *)
Ltac no_order := simpl; intuition discriminate.

(** Membership in a log, taken apart along [++] and [::]. *)
Ltac split_in H :=
  repeat match type of H with
         | In _ (_ ++ _) => apply in_app_or in H; destruct H as [H|H]
         | In _ (_ :: _) => destruct H as [H|H]
         | In _ [] => destruct H
         end.

(** On the reduce-only path an order is placed only after the follower's
    position was found, a positive amount to close computed and
    normalized; the order is [reduce_only_request] for that amount. *)
Lemma reduce_only_placed (f : Follower) (o : Order) (lp : Position)
    (ltv : Q) (r : OrderRequest) :
  is_reduce_only o = true ->
  In (Call_place_order r) (trace (_replicate_for_single_follower f o lp ltv)) ->
  exists ad ps fp amt n,
    adapter_of f = Ret (Some ad) /\
    ad_get_positions ad None = Ret ps /\
    dict_get (pos_symbol lp) (by_symbol ps) = Some fp /\
    close_amount lp o fp = Some amt /\ 0 < amt /\
    ad_normalize_amount ad (ord_symbol o) amt = Ret n /\
    r = reduce_only_request o lp n.
Proof.
  intros Hro. unfold _replicate_for_single_follower.
  trun.
  destruct (adapter_of f) as [[ad|]|]; trun; try no_order.
  destruct (ad_get_total_account_value_usdt ad) as [[v|]|]; trun;
    try no_order.
  destruct (negb (truthy v) || Qle_bool v 1); trun; try no_order.
  unfold prepare_order. rewrite Hro. trun.
  destruct (ad_get_positions ad None) as [ps|] eqn:Hps; trun; try no_order.
  destruct (dict_get (pos_symbol lp) (by_symbol ps)) as [fp|] eqn:Hfp; trun;
    try no_order.
  destruct (close_amount lp o fp) as [amt|] eqn:Hamt; trun; try no_order.
  destruct (Qle_bool amt 0) eqn:Hpos; trun; try no_order.
  destruct (ad_normalize_amount ad (ord_symbol o) amt) as [n|] eqn:Hn; trun;
    try no_order.
  intro Hin.
  assert (E : r = reduce_only_request o lp n).
  { destruct (ad_place_order ad _) as [fo|]; revert Hin; trun;
      [destruct (ord_status fo); trun|];
      simpl; intros [?|[?|[?|[?|?]]]]; try discriminate; try contradiction;
      injection H as <-; reflexivity. }
  apply Qle_bool_gt in Hpos.
  exists ad, ps, fp, amt, n. repeat split; auto.
Qed.

(** What holds of every order a reduce-only replication places: it is
    flagged reduce-only, its side is opposite to the side of the LEADER
    snapshot, and, with a well-formed leader snapshot and fill and a
    [normalize_amount] that never rounds up, its amount does not exceed the
    contracts of the follower position found. *)
Lemma reduce_only_order_shape (f : Follower) (o : Order) (lp : Position)
    (ltv : Q) (r : OrderRequest) :
  is_reduce_only o = true ->
  0 <= pos_contracts lp -> 0 <= ord_filled o ->
  (forall ad, adapter_of f = Ret (Some ad) -> rounds_down ad) ->
  In (Call_place_order r) (trace (_replicate_for_single_follower f o lp ltv)) ->
  p_reduceOnly (req_params r) = Some true /\
  req_side r = reducing_side (pos_side lp) /\
  exists ad ps fp,
    adapter_of f = Ret (Some ad) /\
    ad_get_positions ad None = Ret ps /\
    dict_get (pos_symbol lp) (by_symbol ps) = Some fp /\
    forall m, req_amount r = Some m -> m <= pos_contracts fp.
Proof.
  intros Hro Hlc Hfilled Hdown Hin.
  destruct (reduce_only_placed f o lp ltv r Hro Hin)
    as (ad & ps & fp & amt & n & Had & Hps & Hfp & Hamt & Hpos & Hn & ->).
  split; [reflexivity|]. split; [reflexivity|].
  exists ad, ps, fp. repeat split; auto.
  intros m Hm. simpl in Hm. subst n.
  apply (Hdown ad Had) in Hn.
  apply Qle_trans with amt; [exact Hn|].
  unfold close_amount in Hamt.
  destruct (is_placeholder_for_close (pos_raw_data lp)).
  - injection Hamt as <-. apply Qle_refl.
  - destruct (Qltb (pos_contracts lp + ord_filled o) 1e-9) eqn:Hsmall;
      [discriminate|].
    injection Hamt as <-. apply Qltb_ge in Hsmall.
    set (orig := pos_contracts lp + ord_filled o) in *.
    assert (Horig : 0 < orig).
    { apply Qlt_le_trans with 1e-9; [reflexivity|exact Hsmall]. }
    assert (Hpct0 : 0 <= ord_filled o / orig)
      by (apply Qle_shift_div_l; lra).
    assert (Hpct1 : ord_filled o / orig <= 1)
      by (apply Qle_shift_div_r; [exact Horig|unfold orig; lra]).
    set (pct := ord_filled o / orig) in *.
    assert (Hfc : 0 <= pos_contracts fp).
    { destruct (Qlt_le_dec (pos_contracts fp) 0) as [Hneg|Hok]; [|exact Hok].
      exfalso. assert (pos_contracts fp * pct <= 0) by nra. lra. }
    nra.
Qed.

(** C6 (P5, reduce-only replication), where follower and leader were on
    opposite sides.  The leader sold its long reduce-only and holds nothing;
    the follower holds a 0.15 BTC short in the symbol.  The order placed on
    the follower is reduce-only and for 0.15, but its side is the leader
    order's, sell: the side of the follower position itself, not the
    opposite one. *)
Theorem close_side_follows_leader :
  let fp := position "BTC/USDT" Short 0.15 30000 5 in
  let ad := account (Some 5) (Some 0.001) 30000 1000 [fp] in
  let f := {| user_id := "follower"; adapter_of := Ret (Some ad) |} in
  let o := leader_fill "BTC/USDT" Sell 2 true in
  exists ph r,
    leader_pos_to_replicate (by_symbol []) o = Some ph /\
    dict_get (pos_symbol ph) (by_symbol [fp]) = Some fp /\
    trace (_replicate_for_single_follower f o ph 10000) =
    [Call_get_total_account_value_usdt; Call_get_positions None;
     Call_normalize_amount "BTC/USDT" 0.15; Call_place_order r] /\
    p_reduceOnly (req_params r) = Some true /\
    req_side r = Sell /\
    pos_side fp = Short /\
    req_side r <> reducing_side (pos_side fp).
Proof.
  intros fp ad f o. eexists. eexists.
  split; [reflexivity|]. split; [reflexivity|].
  split; [vm_compute; reflexivity|].
  split; [reflexivity|]. split; [reflexivity|]. split; [reflexivity|].
  discriminate.
Qed.

End ReplicationFacts.

(* ------------------------------------------------------------------ *)
(** ** Symbol canonicalisation *)

Module HelpersFacts.

Import Helpers.
Open Scope list_scope.
Open Scope char_scope.

Section Stripping.

Variables f g : ascii -> bool.

Lemma drop_while_suffix (s : chars) :
  exists t, s = t ++ drop_while f s.
Proof.
  induction s as [|c s IH]; simpl.
  - exists []. reflexivity.
  - destruct (f c).
    + destruct IH as [t IH]. exists (c :: t). simpl. rewrite <- IH. reflexivity.
    + exists []. reflexivity.
Qed.

Lemma drop_while_id (s : chars) :
  starts_with f s = false -> drop_while f s = s.
Proof.
  destruct s as [|c s]; simpl; [reflexivity|]. intros ->. reflexivity.
Qed.

Lemma drop_while_starts (s : chars) :
  starts_with f (drop_while f s) = false.
Proof.
  induction s as [|c s IH]; simpl; [reflexivity|].
  destruct (f c) eqn:E; [exact IH|]. simpl. exact E.
Qed.

Lemma rstrip_with_prefix (s : chars) :
  exists t, s = rstrip_with f s ++ t.
Proof.
  unfold rstrip_with.
  destruct (drop_while_suffix (rev s)) as [t Ht].
  exists (rev t).
  rewrite <- rev_app_distr, <- Ht, rev_involutive. reflexivity.
Qed.

Lemma rstrip_with_id (s : chars) :
  ends_with f s = false -> rstrip_with f s = s.
Proof.
  unfold ends_with, rstrip_with. intro H.
  rewrite drop_while_id by exact H. apply rev_involutive.
Qed.

Lemma rstrip_with_ends (s : chars) :
  ends_with f (rstrip_with f s) = false.
Proof.
  unfold ends_with, rstrip_with. rewrite rev_involutive.
  apply drop_while_starts.
Qed.

Lemma starts_with_app (p t : chars) :
  starts_with g p = true -> starts_with g (p ++ t) = true.
Proof.
  destruct p; simpl; [discriminate|auto].
Qed.

Lemma starts_with_rstrip (s : chars) :
  starts_with g (rstrip_with f s) = true -> starts_with g s = true.
Proof.
  intro H. destruct (rstrip_with_prefix s) as [t Ht].
  rewrite Ht. apply starts_with_app. exact H.
Qed.

Lemma starts_with_firstn (k : nat) (s : chars) :
  starts_with g (firstn k s) = true -> starts_with g s = true.
Proof.
  intro H. rewrite <- (firstn_skipn k s). apply starts_with_app. exact H.
Qed.

Lemma ends_with_app (p t : chars) :
  t <> [] -> ends_with g (p ++ t) = ends_with g t.
Proof.
  intro Ht. unfold ends_with. rewrite rev_app_distr.
  destruct (rev t) as [|c r] eqn:E.
  - apply (f_equal (@rev ascii)) in E. rewrite rev_involutive in E.
    contradiction.
  - reflexivity.
Qed.

Lemma forallb_drop_while (s : chars) :
  forallb g s = true -> forallb g (drop_while f s) = true.
Proof.
  intro H. destruct (drop_while_suffix s) as [t Ht].
  rewrite Ht, forallb_app in H. apply andb_true_iff in H. apply H.
Qed.

Lemma forallb_rstrip (s : chars) :
  forallb g s = true -> forallb g (rstrip_with f s) = true.
Proof.
  intro H. destruct (rstrip_with_prefix s) as [t Ht].
  rewrite Ht, forallb_app in H. apply andb_true_iff in H. apply H.
Qed.

Lemma forallb_firstn (k : nat) (s : chars) :
  forallb g s = true -> forallb g (firstn k s) = true.
Proof.
  intro H. rewrite <- (firstn_skipn k s), forallb_app in H.
  apply andb_true_iff in H. apply H.
Qed.

Lemma existsb_drop_while (s : chars) :
  (forall c, f c = true -> g c = false) ->
  existsb g (drop_while f s) = existsb g s.
Proof.
  intro Hfg. induction s as [|c s IH]; simpl; [reflexivity|].
  destruct (f c) eqn:E; [|reflexivity].
  rewrite (Hfg c E). exact IH.
Qed.

Lemma existsb_reverse (s : chars) : existsb g (rev s) = existsb g s.
Proof.
  induction s as [|c s IH]; simpl; [reflexivity|].
  rewrite existsb_app, IH. simpl. rewrite orb_false_r. apply orb_comm.
Qed.

Lemma existsb_rstrip (s : chars) :
  (forall c, f c = true -> g c = false) ->
  existsb g (rstrip_with f s) = existsb g s.
Proof.
  intro Hfg. unfold rstrip_with.
  rewrite existsb_reverse, existsb_drop_while by exact Hfg.
  apply existsb_reverse.
Qed.

Lemma drop_while_length (s : chars) :
  (List.length (drop_while f s) <= List.length s)%nat.
Proof.
  induction s as [|c s IH]; simpl; [lia|].
  destruct (f c); simpl; lia.
Qed.

Lemma rstrip_with_length (s : chars) :
  (List.length (rstrip_with f s) <= List.length s)%nat.
Proof.
  unfold rstrip_with. rewrite length_rev.
  rewrite <- (length_rev s). apply drop_while_length.
Qed.

Lemma rstrip_with_shorter (s : chars) :
  ends_with f s = true ->
  (List.length (rstrip_with f s) < List.length s)%nat.
Proof.
  unfold ends_with, rstrip_with. intro H.
  rewrite length_rev, <- (length_rev s).
  destruct (rev s) as [|c r]; simpl in *; [discriminate|].
  rewrite H. pose proof (drop_while_length r). lia.
Qed.

End Stripping.

(** Facts on single characters, by enumeration. *)
Ltac by_cases_on c :=
  destruct c as [[] [] [] [] [] [] [] []]; vm_compute; try reflexivity;
  try discriminate.

Lemma upper_char_idem (c : ascii) : upper_char (upper_char c) = upper_char c.
Proof. by_cases_on c. Qed.

Lemma upper_char_fixed (c : ascii) : upper_fixed (upper_char c) = true.
Proof. by_cases_on c. Qed.

Lemma is_space_upper (c : ascii) : is_space (upper_char c) = is_space c.
Proof. by_cases_on c. Qed.

Lemma is_dash_upper (c : ascii) : is_dash (upper_char c) = is_dash c.
Proof. by_cases_on c. Qed.

Lemma not_colon_upper (c : ascii) : not_colon (upper_char c) = not_colon c.
Proof. by_cases_on c. Qed.

Lemma slash_upper (c : ascii) :
  Ascii.eqb (upper_char c) "/" = Ascii.eqb c "/".
Proof. by_cases_on c. Qed.

Lemma space_not_slash (c : ascii) :
  is_space c = true -> Ascii.eqb c "/" = false.
Proof. by_cases_on c. Qed.

Lemma dash_not_slash (c : ascii) :
  is_dash c = true -> Ascii.eqb c "/" = false.
Proof. by_cases_on c. Qed.

(** Facts on [upper] and [before_colon]. *)
Lemma upper_idem (s : chars) : upper (upper s) = upper s.
Proof.
  unfold upper. rewrite map_map. apply map_ext. apply upper_char_idem.
Qed.

Lemma upper_is_fixed (s : chars) : forallb upper_fixed (upper s) = true.
Proof.
  induction s as [|c s IH]; simpl; [reflexivity|].
  rewrite upper_char_fixed. exact IH.
Qed.

Lemma upper_of_fixed (s : chars) :
  forallb upper_fixed s = true -> upper s = s.
Proof.
  induction s as [|c s IH]; simpl; [reflexivity|].
  intro H. apply andb_true_iff in H. destruct H as [Hc Hs].
  apply Ascii.eqb_eq in Hc. rewrite Hc, (IH Hs). reflexivity.
Qed.

Lemma starts_with_upper (f : ascii -> bool) (s : chars) :
  (forall c, f (upper_char c) = f c) ->
  starts_with f (upper s) = starts_with f s.
Proof.
  intro Hf. destruct s; simpl; [reflexivity|apply Hf].
Qed.

Lemma ends_with_upper (f : ascii -> bool) (s : chars) :
  (forall c, f (upper_char c) = f c) ->
  ends_with f (upper s) = ends_with f s.
Proof.
  intro Hf. unfold ends_with, upper. rewrite <- map_rev.
  apply (starts_with_upper f (rev s) Hf).
Qed.

Lemma not_colon_upper_all (s : chars) :
  forallb not_colon (upper s) = forallb not_colon s.
Proof.
  induction s as [|c s IH]; simpl; [reflexivity|].
  rewrite not_colon_upper, IH. reflexivity.
Qed.

Lemma has_slash_upper (s : chars) : has_slash (upper s) = has_slash s.
Proof.
  unfold has_slash. induction s as [|c s IH]; simpl; [reflexivity|].
  rewrite slash_upper, IH. reflexivity.
Qed.

Lemma before_colon_clean (s : chars) :
  forallb not_colon (before_colon s) = true.
Proof.
  induction s as [|c s IH]; simpl; [reflexivity|].
  destruct (Ascii.eqb c ":") eqn:E; simpl; [reflexivity|].
  unfold not_colon at 1. rewrite E. exact IH.
Qed.

Lemma before_colon_id (s : chars) :
  forallb not_colon s = true -> before_colon s = s.
Proof.
  induction s as [|c s IH]; simpl; [reflexivity|].
  intro H. apply andb_true_iff in H. destruct H as [Hc Hs].
  unfold not_colon in Hc. apply negb_true_iff in Hc. rewrite Hc, (IH Hs).
  reflexivity.
Qed.

(** A symbol in canonical shape is left as it is. *)
Lemma canonical_fixed (z : chars) :
  forallb not_colon z = true ->
  starts_with is_space z = false ->
  ends_with is_space z = false ->
  ends_with is_dash z = false ->
  has_slash z = true ->
  forallb upper_fixed z = true ->
  canonical z = z.
Proof.
  intros Hcolon Hhead Hspace Hdash Hslash Hupper.
  unfold canonical. destruct z as [|c z]; [reflexivity|].
  rewrite (before_colon_id _ Hcolon).
  unfold strip. rewrite (drop_while_id _ _ Hhead).
  rewrite (rstrip_with_id _ _ Hspace).
  unfold rstrip_dash. rewrite (rstrip_with_id _ _ Hdash).
  rewrite Hslash. apply upper_of_fixed. exact Hupper.
Qed.

(** The shape of the symbol after lines 34 and 38. *)
Lemma cleaned_shape (l : chars) :
  let c := rstrip_dash (strip (before_colon l)) in
  forallb not_colon c = true /\
  starts_with is_space c = false /\
  ends_with is_dash c = false.
Proof.
  intro c. unfold c, rstrip_dash, strip. repeat split.
  - apply forallb_rstrip, forallb_rstrip, forallb_drop_while.
    apply before_colon_clean.
  - destruct (starts_with is_space
                (rstrip_with is_dash
                   (rstrip_with is_space
                      (drop_while is_space (before_colon l))))) eqn:E;
      [|reflexivity].
    apply starts_with_rstrip, starts_with_rstrip in E.
    rewrite drop_while_starts in E. discriminate.
  - apply rstrip_with_ends.
Qed.

(** Every quote currency is in good shape. *)
Lemma quotes_ok : forallb quote_ok quote_currencies = true.
Proof. vm_compute. reflexivity. Qed.

(** [base/quote] is in canonical shape when [base] is. *)
Lemma joined_fixed (p q : chars) :
  forallb not_colon p = true ->
  forallb upper_fixed p = true ->
  starts_with is_space p = false ->
  quote_ok q = true ->
  canonical (p ++ "/" :: q) = p ++ "/" :: q.
Proof.
  intros Hcolon Hupper Hhead Hq.
  unfold quote_ok in Hq.
  apply andb_true_iff in Hq. destruct Hq as [Hq Hq4].
  apply andb_true_iff in Hq. destruct Hq as [Hq Hq3].
  apply andb_true_iff in Hq. destruct Hq as [Hq1 Hq2].
  apply negb_true_iff in Hq3, Hq4.
  apply canonical_fixed.
  - rewrite forallb_app. simpl. rewrite Hcolon, Hq1. reflexivity.
  - destruct p as [|c p]; [reflexivity|exact Hhead].
  - rewrite ends_with_app by discriminate. exact Hq3.
  - rewrite ends_with_app by discriminate. exact Hq4.
  - unfold has_slash. rewrite existsb_app. simpl. apply orb_true_r.
  - rewrite forallb_app. simpl. rewrite Hupper, Hq2. reflexivity.
Qed.

Lemma split_on_quote_some (quotes : list chars) (u z : chars) :
  split_on_quote quotes u = Some z ->
  exists q k, In q quotes /\ z = rstrip_dash (firstn k u) ++ "/" :: q.
Proof.
  induction quotes as [|q quotes IH]; simpl; [discriminate|].
  destruct (endswith u q && (0 <? List.length u - List.length q)%nat).
  - intro H. injection H as <-. exists q. eexists. split; [left|]; reflexivity.
  - intro H. destruct (IH H) as (q' & k & Hin & E).
    exists q', k. split; [right; exact Hin|exact E].
Qed.

(** Canonicalisation is idempotent on character lists, unless the cleaned
    symbol holds a slash and ends in whitespace. *)
Lemma canonical_idem (l : chars) :
  let c := rstrip_dash (strip (before_colon l)) in
  has_slash c && ends_with is_space c = false ->
  canonical (canonical l) = canonical l.
Proof.
  intros c Hcond. destruct l as [|a l]; [reflexivity|].
  destruct (cleaned_shape (a :: l)) as (Hcolon & Hhead & Hdash).
  fold c in Hcolon, Hhead, Hdash.
  assert (Hu_colon : forallb not_colon (upper c) = true)
    by (rewrite not_colon_upper_all; exact Hcolon).
  assert (Hu_head : starts_with is_space (upper c) = false)
    by (rewrite (starts_with_upper _ _ is_space_upper); exact Hhead).
  change (canonical (a :: l))
    with (if has_slash c then upper c
          else match split_on_quote quote_currencies (upper c) with
               | Some formatted => formatted
               | None => match upper c with
                         | [] => []
                         | _ => upper c ++ list_ascii_of_string "/USDT"
                         end
               end).
  destruct (has_slash c) eqn:Hslash.
  - simpl in Hcond. apply canonical_fixed.
    + exact Hu_colon.
    + exact Hu_head.
    + rewrite (ends_with_upper _ _ is_space_upper). exact Hcond.
    + rewrite (ends_with_upper _ _ is_dash_upper). exact Hdash.
    + rewrite has_slash_upper. exact Hslash.
    + apply upper_is_fixed.
  - destruct (split_on_quote quote_currencies (upper c)) as [z|] eqn:Hsplit.
    + apply split_on_quote_some in Hsplit.
      destruct Hsplit as (q & k & Hin & ->).
      apply joined_fixed.
      * apply forallb_rstrip, forallb_firstn. exact Hu_colon.
      * apply forallb_rstrip, forallb_firstn. apply upper_is_fixed.
      * destruct (starts_with is_space (rstrip_dash (firstn k (upper c))))
          eqn:E; [|reflexivity].
        apply starts_with_rstrip, starts_with_firstn in E. congruence.
      * pose proof quotes_ok as Hall. rewrite forallb_forall in Hall.
        apply Hall. exact Hin.
    + destruct (upper c) as [|b u] eqn:Hu; [reflexivity|].
      apply (joined_fixed (b :: u) (list_ascii_of_string "USDT")).
      * exact Hu_colon.
      * rewrite <- Hu. apply upper_is_fixed.
      * exact Hu_head.
      * reflexivity.
Qed.

Open Scope string_scope.

(** Where the canonicalisation is idempotent, and the literal examples
    of P6.  [format_symbol_for_ccxt] is idempotent on every symbol whose
    cleaned form (the text before the first colon, stripped of surrounding
    whitespace and then of trailing dashes) does not both hold a slash and
    end in whitespace, in particular on every symbol without whitespace;
    and it maps BTCUSDT to BTC/USDT, ETHUSDT:USDT to ETH/USDT, HFT- to
    HFT/USDT and FRAG to FRAG/USDT. *)
Theorem canonical_idempotent (x : string) :
  (has_slash (cleaned x) && ends_with is_space (cleaned x) = false ->
   format_symbol_for_ccxt (format_symbol_for_ccxt x)
   = format_symbol_for_ccxt x) /\
  format_symbol_for_ccxt "BTCUSDT" = "BTC/USDT" /\
  format_symbol_for_ccxt "ETHUSDT:USDT" = "ETH/USDT" /\
  format_symbol_for_ccxt "HFT-" = "HFT/USDT" /\
  format_symbol_for_ccxt "FRAG" = "FRAG/USDT".
Proof.
  split; [|repeat split].
  intro H. unfold format_symbol_for_ccxt.
  rewrite list_ascii_of_string_of_list_ascii.
  rewrite canonical_idem; [reflexivity|exact H].
Qed.

(** The four literal examples are fixed points. *)
Lemma canonical_idempotent_witness :
  format_symbol_for_ccxt (format_symbol_for_ccxt "BTCUSDT")
  = format_symbol_for_ccxt "BTCUSDT".
Proof.
  apply (proj1 (canonical_idempotent "BTCUSDT")). reflexivity.
Defined.

(** C9 (P6, symbol canonicalisation): [format_symbol_for_ccxt] is not
    idempotent.  Line 34 strips the surrounding whitespace before line 38
    strips the trailing dashes, so whitespace in front of a trailing dash
    survives: the symbol [a/b -] comes out as [A/B] followed by a blank,
    which a second pass strips.  A function that sets out to remove
    surrounding whitespace and trailing dashes returns a symbol that ends
    in whitespace. *)
Theorem canonical_not_idempotent :
  format_symbol_for_ccxt "a/b -" = "A/B " /\
  format_symbol_for_ccxt (format_symbol_for_ccxt "a/b -") = "A/B" /\
  format_symbol_for_ccxt (format_symbol_for_ccxt "a/b -")
  <> format_symbol_for_ccxt "a/b -".
Proof.
  split; [reflexivity|]. split; [reflexivity|]. discriminate.
Qed.

(** The restriction is sharp: when the cleaned symbol holds a slash and
    ends in whitespace, the second pass gives a shorter symbol. *)
Lemma canonical_idem_only_then (l : chars) :
  let c := rstrip_dash (strip (before_colon l)) in
  has_slash c && ends_with is_space c = true ->
  canonical (canonical l) <> canonical l.
Proof.
  intros c Hcond. apply andb_true_iff in Hcond. destruct Hcond as [Hslash Hend].
  destruct l as [|a l]; [discriminate|].
  destruct (cleaned_shape (a :: l)) as (Hcolon & Hhead & Hdash).
  fold c in Hcolon, Hhead, Hdash.
  assert (E : canonical (a :: l) = upper c).
  { change (canonical (a :: l))
      with (if has_slash c then upper c
            else match split_on_quote quote_currencies (upper c) with
                 | Some formatted => formatted
                 | None => match upper c with
                           | [] => []
                           | _ => (upper c ++ list_ascii_of_string "/USDT")%list
                           end
                 end).
    rewrite Hslash. reflexivity. }
  rewrite E. set (y := upper c).
  assert (Hy_colon : forallb not_colon y = true)
    by (unfold y; rewrite not_colon_upper_all; exact Hcolon).
  assert (Hy_head : starts_with is_space y = false)
    by (unfold y; rewrite (starts_with_upper _ _ is_space_upper); exact Hhead).
  assert (Hy_end : ends_with is_space y = true)
    by (unfold y; rewrite (ends_with_upper _ _ is_space_upper); exact Hend).
  assert (Hy_slash : has_slash y = true)
    by (unfold y; rewrite has_slash_upper; exact Hslash).
  assert (Hlen : (List.length (canonical y) < List.length y)%nat).
  { unfold canonical. destruct y as [|b y'] eqn:Hy; [discriminate|].
    rewrite <- Hy in *.
    rewrite (before_colon_id _ Hy_colon).
    unfold strip. rewrite (drop_while_id _ _ Hy_head).
    assert (Hkeep : has_slash (rstrip_dash (rstrip_with is_space y)) = true).
    { unfold has_slash, rstrip_dash.
      rewrite existsb_rstrip by apply dash_not_slash.
      rewrite existsb_rstrip by apply space_not_slash.
      exact Hy_slash. }
    rewrite Hkeep. unfold upper. rewrite length_map.
    pose proof (rstrip_with_length is_dash (rstrip_with is_space y)).
    pose proof (rstrip_with_shorter is_space y Hy_end).
    unfold rstrip_dash. lia. }
  intro Heq. rewrite Heq in Hlen. lia.
Qed.

(** On strings: outside the condition of [canonical_idempotent] a second
    pass changes the symbol. *)
Lemma canonical_idempotent_sharp (x : string) :
  has_slash (cleaned x) && ends_with is_space (cleaned x) = true ->
  format_symbol_for_ccxt (format_symbol_for_ccxt x)
  <> format_symbol_for_ccxt x.
Proof.
  intros H Heq. unfold format_symbol_for_ccxt in Heq.
  rewrite list_ascii_of_string_of_list_ascii in Heq.
  apply (f_equal list_ascii_of_string) in Heq.
  rewrite !list_ascii_of_string_of_list_ascii in Heq.
  exact (canonical_idem_only_then _ H Heq).
Qed.

End HelpersFacts.

(* ------------------------------------------------------------------ *)
(** ** Sizing calculator: limits, proportion, leverage, calls *)

Module CalculatorLimits.

Import Calculator CalculatorFacts Scenarios.
Open Scope Q_scope.
Open Scope string_scope.

(** The 1.01 lift of [adjust_amount_for_limits] on a non-negative amount:
    never below the amount, at or above both minimums, and the amount
    itself when it already meets them. *)
Lemma adjust_to_limits_bounds (min_amount min_cost : option Q) (p a : Q) :
  0 < p -> 0 <= a ->
  let eff := adjust_to_limits min_amount min_cost p a in
  a <= eff /\
  (forall ma, min_amount = Some ma -> ma <= eff) /\
  (forall mc, min_cost = Some mc -> mc <= eff * p) /\
  ((forall ma, min_amount = Some ma -> ma <= a) ->
   (forall mc, min_cost = Some mc -> mc <= a * p) -> eff = a).
Proof.
  intros Hp Ha. unfold adjust_to_limits.
  set (e1 := match min_amount with
             | Some ma => if truthy ma && Qltb a ma then ma else a
             | None => a
             end).
  assert (He1 : a <= e1 /\ (forall ma, min_amount = Some ma -> ma <= e1) /\
                ((forall ma, min_amount = Some ma -> ma <= a) -> e1 = a)).
  { unfold e1. destruct min_amount as [ma|].
    - destruct (truthy ma) eqn:T; cbn [andb].
      + destruct (Qltb a ma) eqn:E.
        * apply Qltb_lt in E. repeat split.
          -- lra.
          -- intros ma' H. injection H as <-. lra.
          -- intro H. specialize (H ma eq_refl). lra.
        * apply Qltb_ge in E. repeat split.
          -- lra.
          -- intros ma' H. injection H as <-. exact E.
      + apply truthy_eq in T. repeat split.
        * lra.
        * intros ma' H. injection H as <-. lra.
    - repeat split; [lra|discriminate]. }
  destruct He1 as (H1 & H2 & H3).
  assert (He1p : 0 <= e1 * p) by nra.
  destruct min_cost as [mc|].
  - destruct (truthy mc) eqn:T; cbn [andb].
    + destruct (Qltb (e1 * p) mc) eqn:E.
      * apply Qltb_lt in E.
        assert (Hnew : mc / p * 1.01 * p == mc * 1.01) by (field; lra).
        assert (Hgt : e1 * p <= mc / p * 1.01 * p) by lra.
        assert (He : e1 <= mc / p * 1.01) by nra.
        repeat split.
        -- lra.
        -- intros ma H. specialize (H2 ma H). lra.
        -- intros mc' H. injection H as <-. lra.
        -- intros Hma Hmc. specialize (Hmc mc eq_refl).
           rewrite (H3 Hma) in E. lra.
      * apply Qltb_ge in E. repeat split; auto.
        intros mc' H. injection H as <-. exact E.
    + apply truthy_eq in T. repeat split; auto.
      intros mc' H. injection H as <-. lra.
  - repeat split; auto. discriminate.
Qed.

(** X1.  When [adjust_amount_for_limits] answers for a non-negative amount,
    the amount it handed to [normalize_amount] is not below the amount
    asked for, meets [amount.min] and [cost.min] at the price read, and is
    the amount asked for when that already met both. *)
Theorem adjusted_amount_meets_limits (ad : Adapter) (symbol : string)
    (amount fa : Q) :
  0 <= amount ->
  result (adjust_amount_for_limits ad symbol amount) = Ret (Some fa) ->
  exists limits ticker p eff,
    ad_get_market_info ad symbol = Ret (Some limits) /\
    ad_get_ticker ad symbol = Ret ticker /\
    ticker_price ticker = Ret p /\ 0 < p /\
    ad_normalize_amount ad symbol eff = Ret (Some fa) /\
    amount <= eff /\
    (forall ma, amount_min limits = Some ma -> ma <= eff) /\
    (forall mc, cost_min limits = Some mc -> mc <= eff * p) /\
    ((forall ma, amount_min limits = Some ma -> ma <= amount) ->
     (forall mc, cost_min limits = Some mc -> mc <= amount * p) ->
     eff = amount).
Proof.
  intros Ha. unfold adjust_amount_for_limits. mrun.
  destruct (ad_get_market_info ad symbol) as [[limits|]|] eqn:Hmi; mrun;
    try discriminate.
  destruct (ad_get_ticker ad symbol) as [ticker|] eqn:Htk; mrun;
    try discriminate.
  destruct (ticker_price ticker) as [p|] eqn:Hprice; mrun; try discriminate.
  destruct (truthy p) eqn:Htr; [|discriminate].
  destruct (Qle_bool p 0) eqn:Hp; [discriminate|]. cbn [negb orb]. mrun.
  destruct (ad_normalize_amount ad symbol _) as [[n|]|] eqn:Hn; mrun;
    try discriminate.
  intro H. injection H as <-.
  apply Qle_bool_gt in Hp.
  destruct (adjust_to_limits_bounds (amount_min limits) (cost_min limits)
              Hp Ha) as (B1 & B2 & B3 & B4).
  exists limits, ticker, p,
    (adjust_to_limits (amount_min limits) (cost_min limits) p amount).
  repeat split; auto.
Qed.

(** An order of 0.00001 BTC at 30000 with [amount.min = 0.001]: lifted
    to 0.001 BTC, 30 USDT of notional. *)
Lemma adjusted_amount_meets_limits_witness :
  exists limits ticker p eff,
    ad_get_market_info (account (Some 5) (Some 0.001) 30000 1000 [])
      "BTC/USDT" = Ret (Some limits) /\
    ad_get_ticker (account (Some 5) (Some 0.001) 30000 1000 []) "BTC/USDT"
    = Ret ticker /\
    ticker_price ticker = Ret p /\ 0 < p /\
    ad_normalize_amount (account (Some 5) (Some 0.001) 30000 1000 [])
      "BTC/USDT" eff = Ret (Some 0.001) /\
    0.00001 <= eff /\
    (forall ma, amount_min limits = Some ma -> ma <= eff) /\
    (forall mc, cost_min limits = Some mc -> mc <= eff * p) /\
    ((forall ma, amount_min limits = Some ma -> ma <= 0.00001) ->
     (forall mc, cost_min limits = Some mc -> mc <= 0.00001 * p) ->
     eff = 0.00001).
Proof.
  apply (@adjusted_amount_meets_limits
           (account (Some 5) (Some 0.001) 30000 1000 []) "BTC/USDT"
           0.00001 0.001).
  - vm_compute. discriminate.
  - vm_compute. reflexivity.
Defined.

(** The value of the proportional amount, up to the equations of [Q]. *)
Lemma proportional_amount_value (lp : Position) (Ef El p : Q)
    (L : option Q) (a0 : Q) :
  0 < El -> 0 < p ->
  proportional_amount_of lp Ef El L p = Ret a0 ->
  a0 * p * El == Ef * (pos_contracts lp * pos_entry_price lp).
Proof.
  intros HEl Hp. unfold proportional_amount_of.
  assert (G1 : Qltb 0 El = true) by (apply Qltb_lt; exact HEl).
  assert (G2 : Qltb 0 p = true) by (apply Qltb_lt; exact Hp).
  destruct L as [lev|]; [|discriminate].
  unfold py_div. destruct (Qeq_bool lev 0) eqn:E; [discriminate|].
  rewrite G1, G2. intro H. injection H as <-.
  assert (Hlev : ~ lev == 0).
  { intro Hz. apply Qeq_bool_iff in Hz. congruence. }
  field. repeat split; lra.
Qed.

(** The 1.05 lift of the calculator on a non-negative amount. *)
Lemma lift_to_limits_bounds (min_amount min_cost : option Q) (p a : Q) :
  0 < p -> 0 <= a ->
  let eff := lift_to_limits min_amount min_cost p a in
  a <= eff /\
  (forall ma, min_amount = Some ma -> ma <= eff) /\
  (forall mc, min_cost = Some mc -> mc <= eff * p).
Proof.
  intros Hp Ha. cbv zeta. rewrite (lift_to_limits_spec _ _ Hp Ha).
  unfold spec_lift.
  set (e1 := match min_amount with
             | Some ma => if Qltb a ma then ma else a
             | None => a
             end).
  assert (He1 : a <= e1 /\ (forall ma, min_amount = Some ma -> ma <= e1)).
  { unfold e1. destruct min_amount as [ma|].
    - destruct (Qltb a ma) eqn:E.
      + apply Qltb_lt in E. split; [lra|].
        intros ma' H. injection H as <-. lra.
      + apply Qltb_ge in E. split; [lra|].
        intros ma' H. injection H as <-. exact E.
    - split; [lra|discriminate]. }
  destruct He1 as (H1 & H2).
  assert (He1p : 0 <= e1 * p) by nra.
  destruct min_cost as [mc|].
  - destruct (Qltb (e1 * p) mc) eqn:E.
    + apply Qltb_lt in E.
      assert (Hnew : mc / p * 1.05 * p == mc * 1.05) by (field; lra).
      assert (Hgt : e1 * p <= mc / p * 1.05 * p) by lra.
      assert (He : e1 <= mc / p * 1.05) by nra.
      repeat split.
      * lra.
      * intros ma H. specialize (H2 ma H). lra.
      * intros mc' H. injection H as <-. lra.
    + apply Qltb_ge in E. repeat split; auto.
      intros mc' H. injection H as <-. exact E.
  - repeat split; auto. discriminate.
Qed.

(** X3.  When the calculator answers for a well-formed leader position
    (contracts and entry price not negative), the amount returned is
    positive, and the amount it handed to [normalize_amount] is not below
    the proportional amount and meets [amount.min] and [cost.min] at the
    calculation price. *)
Theorem calculated_amount_meets_limits (ad : Adapter) (lp : Position)
    (Ef El : Q) (L : option Q) (r : CalcResult) :
  0 <= pos_contracts lp -> 0 <= pos_entry_price lp ->
  result (calculate_follower_amount ad lp Ef El L) = Ret (Some r) ->
  0 < res_amount r /\
  exists limits ticker a0 eff,
    ad_get_market_info ad (pos_symbol lp) = Ret (Some limits) /\
    ad_get_ticker ad (pos_symbol lp) = Ret ticker /\
    proportional_amount_of lp Ef El L (calc_price_of ticker lp) = Ret a0 /\
    ad_normalize_amount ad (pos_symbol lp) eff = Ret (Some (res_amount r)) /\
    0 <= a0 /\ a0 <= eff /\
    (forall ma, amount_min limits = Some ma -> ma <= eff) /\
    (forall mc, cost_min limits = Some mc ->
                mc <= eff * calc_price_of ticker lp).
Proof.
  intros Hc He H. apply calculate_success in H.
  destruct H as (limits & ticker & lev & a0 & Le & HEl & HEf & Hmi & Htk & Hp
                 & HL & Ha0 & _ & Hnorm & Hpos & _).
  split; [exact Hpos|].
  assert (Hnonneg : 0 <= a0).
  { assert (HEl0 : 0 < El) by lra.
    pose proof (@proportional_amount_value lp Ef El
                  (calc_price_of ticker lp) L a0 HEl0 Hp Ha0) as Hshare.
    set (p := calc_price_of ticker lp) in *.
    assert (Hn : 0 <= pos_contracts lp * pos_entry_price lp) by nra.
    assert (Hrhs : 0 <= Ef * (pos_contracts lp * pos_entry_price lp)) by nra.
    assert (Hpe : 0 < p * El) by nra.
    destruct (Qlt_le_dec a0 0) as [Hneg|Hok]; [|exact Hok].
    exfalso. assert (a0 * (p * El) < 0) by nra. lra. }
  destruct (lift_to_limits_bounds (amount_min limits) (cost_min limits)
              Hp Hnonneg) as (B1 & B2 & B3).
  exists limits, ticker, a0,
    (lift_to_limits (amount_min limits) (cost_min limits)
       (calc_price_of ticker lp) a0).
  repeat split; auto.
Qed.

(** Scenario 1 of the specification. *)
Lemma calculated_amount_meets_limits_witness : 0 < 0.100.
Proof.
  apply (@calculated_amount_meets_limits
           (account (Some 5) (Some 0.001) 30000 1000 [])
           (position "BTC/USDT" Long 1 30000 5) 1000 10000 (Some 5)
           {| res_amount := 0.100; res_leverage := 5 |}).
  - vm_compute. discriminate.
  - vm_compute. discriminate.
  - vm_compute. reflexivity.
Defined.

(** The calculator catches every exception. *)
Lemma calculate_never_raises (ad : Adapter) (lp : Position) (Ef El : Q)
    (L : option Q) :
  exists r, result (calculate_follower_amount ad lp Ef El L) = Ret r.
Proof.
  unfold calculate_follower_amount.
  destruct (Qle_bool El 1 || Qle_bool Ef 1); mrun; eauto.
  destruct (ad_get_market_info ad (pos_symbol lp)) as [[limits|]|]; mrun;
    eauto.
  destruct (ad_get_ticker ad (pos_symbol lp)) as [ticker|]; mrun; eauto.
  destruct (negb (truthy (calc_price_of ticker lp))
            || Qle_bool (calc_price_of ticker lp) 0); mrun; eauto.
  destruct (proportional_amount_of lp Ef El L (calc_price_of ticker lp))
    as [a0|]; mrun; eauto.
  destruct L as [lev|]; mrun; eauto.
  destruct (select_leverage _ _ lev) as [[Le|]|]; mrun; eauto.
  destruct (ad_normalize_amount ad (pos_symbol lp) _) as [[n|]|]; mrun;
    eauto.
  destruct (Qle_bool n 0); mrun; eauto.
Qed.

(** The calculator's log holds reads only. *)
Lemma calculate_reads (ad : Adapter) (lp : Position) (Ef El : Q)
    (L : option Q) (c : Call) :
  In c (trace (calculate_follower_amount ad lp Ef El L)) ->
  is_read (pos_symbol lp) c.
Proof.
  unfold calculate_follower_amount, is_read.
  destruct (Qle_bool El 1 || Qle_bool Ef 1); trun;
    try solve [simpl; intuition (subst; eauto)].
  destruct (ad_get_market_info ad (pos_symbol lp)) as [[limits|]|]; trun;
    try solve [simpl; intuition (subst; eauto)].
  destruct (ad_get_ticker ad (pos_symbol lp)) as [ticker|]; trun;
    try solve [simpl; intuition (subst; eauto)].
  destruct (negb (truthy (calc_price_of ticker lp))
            || Qle_bool (calc_price_of ticker lp) 0); trun;
    try solve [simpl; intuition (subst; eauto)].
  destruct (proportional_amount_of lp Ef El L (calc_price_of ticker lp))
    as [a0|]; trun; try solve [simpl; intuition (subst; eauto)].
  destruct L as [lev|]; trun; try solve [simpl; intuition (subst; eauto)].
  destruct (select_leverage _ _ lev) as [[Le|]|]; trun;
    try solve [simpl; intuition (subst; eauto)].
  destruct (ad_normalize_amount ad (pos_symbol lp) _) as [[n|]|]; trun;
    try solve [simpl; intuition (subst; eauto)].
  destruct (Qle_bool n 0); trun; simpl; intuition (subst; eauto).
Qed.

(** X4.  The calculator never raises, whatever the adapter does, and it
    only reads: it asks for the market limits, the ticker and a
    normalization of the leader's symbol, and neither places an order nor
    sets a leverage nor fetches positions. *)
Theorem calculator_only_reads (ad : Adapter) (lp : Position) (Ef El : Q)
    (L : option Q) :
  (exists r, result (calculate_follower_amount ad lp Ef El L) = Ret r) /\
  (forall c, In c (trace (calculate_follower_amount ad lp Ef El L)) ->
             is_read (pos_symbol lp) c) /\
  placed_orders (trace (calculate_follower_amount ad lp Ef El L)) = [].
Proof.
  split; [apply calculate_never_raises|].
  split; [intro c; apply calculate_reads|].
  assert (H : forall t, (forall c, In c t -> is_read (pos_symbol lp) c) ->
                        placed_orders t = []).
  { induction t as [|c t IH]; [reflexivity|].
    intro Hall. simpl. rewrite IH by (intros c' Hc; apply Hall; right; exact Hc).
    destruct (Hall c (or_introl eq_refl)) as [->|[->|[a ->]]]; reflexivity. }
  apply H. intro c. apply calculate_reads.
Qed.

(** X5.  The leverage the calculator returns is at least 1 and never below
    the leader's own, taken as [abs(int(...))]; when it differs from the
    leader's it is an elevated one, above the leader's and at most
    [FOLLOWER_MAX_LEVERAGE]. *)
Theorem leverage_never_below_leader (ad : Adapter) (lp : Position)
    (Ef El : Q) (L : option Q) (r : CalcResult) :
  result (calculate_follower_amount ad lp Ef El L) = Ret (Some r) ->
  exists lev,
    L = Some lev /\
    (1 <= res_leverage r)%Z /\
    (Z.abs (py_int lev) <= res_leverage r)%Z /\
    (res_leverage r <> Z.abs (py_int lev) ->
     (Z.abs (py_int lev) < res_leverage r <= FOLLOWER_MAX_LEVERAGE)%Z).
Proof.
  intro H. apply calculate_success in H.
  destruct H as (limits & ticker & lev & a0 & Le & _ & _ & _ & _ & _ & HL
                 & _ & Hsel & _ & _ & Hlev).
  exists lev. split; [exact HL|].
  apply select_leverage_some in Hsel.
  destruct Hsel as (HLe & _ & [[_ E]|(Hreq & HB & Hmax & E & Hcap)]).
  - rewrite Hlev, (Z.abs_eq Le) by lia. rewrite <- E.
    split; [lia|]. split; [lia|].
    intro Hne. exfalso. apply Hne. reflexivity.
  - set (N := lift_to_limits (amount_min limits) (cost_min limits)
                (calc_price_of ticker lp) a0 * calc_price_of ticker lp) in *.
    set (B := Ef * FOLLOWER_BUDGET_USAGE_PERCENT) in *.
    set (x := Z.abs (py_int lev)) in *.
    assert (Hx0 : (0 <= x)%Z) by (unfold x; lia).
    assert (Hx : (1 <= x)%Z).
    { destruct (Z.eq_dec x 0) as [Ez|Ez]; [|lia].
      exfalso. rewrite Ez in Hreq.
      assert (Hzero : N / inject_Z 0 == 0)
        by (unfold Qdiv; change (/ inject_Z 0) with 0; ring).
      rewrite Hzero in Hreq. lra. }
    assert (Hxq : 0 < inject_Z x) by (apply inject_Z_pos; exact Hx).
    assert (HN : B * inject_Z x < N).
    { assert (En : N == N / inject_Z x * inject_Z x) by (field; lra).
      rewrite En. nra. }
    assert (Hm : inject_Z x < N / B) by (apply Qlt_shift_div_l; lra).
    assert (Hfloor : (x <= Qfloor (N / B))%Z).
    { rewrite <- (Qfloor_Z x). apply Qfloor_resp_le. lra. }
    assert (Hx50 : (x < 50)%Z).
    { rewrite Zlt_Qlt. unfold FOLLOWER_MAX_LEVERAGE in Hmax. lra. }
    assert (Hint : py_int (N / B) = Qfloor (N / B)) by (apply py_int_floor; lra).
    assert (HLe' : (x < Le)%Z).
    { rewrite E, Hint. unfold FOLLOWER_MAX_LEVERAGE. lia. }
    rewrite Hlev, (Z.abs_eq Le) by lia.
    repeat split; lia.
Qed.

(** Scenario 3 of the specification, [cost.min = 50]: elevated from 2 to
    4. *)
Lemma leverage_never_below_leader_witness :
  exists lev,
    Some (inject_Z 2) = Some lev /\
    (1 <= 4)%Z /\ (Z.abs (py_int lev) <= 4)%Z /\
    (4%Z <> Z.abs (py_int lev) ->
     (Z.abs (py_int lev) < 4 <= FOLLOWER_MAX_LEVERAGE)%Z).
Proof.
  apply (@leverage_never_below_leader (account (Some 50) None 1 20 [])
           (position "X/USDT" Long 200 1 2) 20 5000 (Some (inject_Z 2))
           {| res_amount := 52.500; res_leverage := 4 |}).
  vm_compute. reflexivity.
Defined.

(** X6.  The calculator gives up early, having asked only what it needed:
    nothing at all when the leader's or the follower's account value is at
    most 1 USDT; the market limits alone when they cannot be read; limits
    and ticker when there is no positive price (no last price and no
    positive mark price). *)
Theorem calculator_gives_up_early (ad : Adapter) (lp : Position)
    (Ef El : Q) (L : option Q) :
  (El <= 1 \/ Ef <= 1 ->
   calculate_follower_amount ad lp Ef El L = ([], Ret None)) /\
  (1 < El -> 1 < Ef ->
   ad_get_market_info ad (pos_symbol lp) = Ret None ->
   calculate_follower_amount ad lp Ef El L
   = ([Call_get_market_info (pos_symbol lp)], Ret None)) /\
  (forall limits ticker,
     1 < El -> 1 < Ef ->
     ad_get_market_info ad (pos_symbol lp) = Ret (Some limits) ->
     ad_get_ticker ad (pos_symbol lp) = Ret ticker ->
     calc_price_of ticker lp <= 0 ->
     calculate_follower_amount ad lp Ef El L
     = ([Call_get_market_info (pos_symbol lp);
         Call_get_ticker (pos_symbol lp)], Ret None)).
Proof.
  split; [|split].
  - intros Hsmall. unfold calculate_follower_amount.
    assert (G : Qle_bool El 1 || Qle_bool Ef 1 = true).
    { apply orb_true_iff.
      destruct Hsmall as [H|H]; [left|right]; apply Qle_bool_iff; exact H. }
    rewrite G. reflexivity.
  - intros HEl HEf Hmi. unfold calculate_follower_amount.
    apply Qle_bool_gt in HEl, HEf. rewrite HEl, HEf. cbn [orb].
    apply run_eq.
    + trun. rewrite Hmi. trun. reflexivity.
    + mrun. rewrite Hmi. mrun. reflexivity.
  - intros limits ticker HEl HEf Hmi Htk Hp. unfold calculate_follower_amount.
    apply Qle_bool_gt in HEl, HEf. rewrite HEl, HEf. cbn [orb].
    assert (G : negb (truthy (calc_price_of ticker lp))
                || Qle_bool (calc_price_of ticker lp) 0 = true).
    { apply orb_true_iff. right. apply Qle_bool_iff. exact Hp. }
    apply run_eq.
    + trun. rewrite Hmi. trun. rewrite Htk. trun. rewrite G. trun.
      reflexivity.
    + mrun. rewrite Hmi. mrun. rewrite Htk. mrun. rewrite G. mrun.
      reflexivity.
Qed.

(** A follower with exactly 1 USDT. *)
Lemma calculator_gives_up_early_witness :
  calculate_follower_amount (account (Some 5) (Some 0.001) 30000 1 [])
    (position "BTC/USDT" Long 1 30000 5) 1 10000 (Some 5) = ([], Ret None).
Proof.
  apply (proj1 (calculator_gives_up_early
                  (account (Some 5) (Some 0.001) 30000 1 [])
                  (position "BTC/USDT" Long 1 30000 5) 1 10000 (Some 5))).
  right. vm_compute. discriminate.
Defined.

End CalculatorLimits.

(* ------------------------------------------------------------------ *)
(** ** Dictionaries of positions *)

Module PyDictFacts.

Import PyDict Scenarios.
Open Scope string_scope.

Section Lookup.

Variable V : Type.

Lemma dict_get_set (k k' : string) (v : V) (d : dict V) :
  dict_get k (dict_set k' v d) =
  if String.eqb k k' then Some v else dict_get k d.
Proof.
  induction d as [|[k0 v0] d IH]; simpl.
  - reflexivity.
  - destruct (String.eqb k' k0) eqn:E0; simpl.
    + apply String.eqb_eq in E0. subst k0.
      destruct (String.eqb k k'); reflexivity.
    + destruct (String.eqb k k0) eqn:E1.
      * apply String.eqb_eq in E1. subst k0.
        rewrite String.eqb_sym, E0. reflexivity.
      * exact IH.
Qed.

Lemma dict_set_keys (k : string) (v : V) (d : dict V) :
  map fst (dict_set k v d) =
  if dict_mem k d then map fst d else (map fst d ++ [k])%list.
Proof.
  unfold dict_mem. induction d as [|[k0 v0] d IH]; simpl.
  - reflexivity.
  - destruct (String.eqb k k0) eqn:E; simpl.
    + apply String.eqb_eq in E. subst k0. reflexivity.
    + rewrite IH. destruct (dict_get k d); reflexivity.
Qed.

Lemma dict_get_none_keys (k : string) (d : dict V) :
  dict_get k d = None -> ~ In k (map fst d).
Proof.
  induction d as [|[k0 v0] d IH]; simpl.
  - intros _ [].
  - destruct (String.eqb k k0) eqn:E; [discriminate|].
    intros H [H0|H0].
    + subst k0. rewrite String.eqb_refl in E. discriminate.
    + exact (IH H H0).
Qed.

Lemma dict_set_nodup (k : string) (v : V) (d : dict V) :
  NoDup (map fst d) -> NoDup (map fst (dict_set k v d)).
Proof.
  intro H. rewrite dict_set_keys. unfold dict_mem.
  destruct (dict_get k d) eqn:E; [exact H|].
  apply NoDup_app; [exact H|repeat constructor; intros []|].
  intros a Ha [Hk|[]]. subst a.
  exact (dict_get_none_keys _ _ E Ha).
Qed.

End Lookup.

Lemma by_symbol_snoc (ps : list Position) (p : Position) :
  by_symbol (ps ++ [p]) = dict_set (pos_symbol p) p (by_symbol ps).
Proof.
  unfold by_symbol. rewrite fold_left_app. reflexivity.
Qed.

(** X7.  The dictionary [{p.symbol: p for p in positions}]: a lookup that
    succeeds gives a position of that list with that symbol, the last such
    one; a lookup fails exactly when no position of the list has the
    symbol; and no symbol is listed twice. *)
Theorem by_symbol_lookup (ps : list Position) (s : string) :
  (forall p, dict_get s (by_symbol ps) = Some p ->
             In p ps /\ pos_symbol p = s) /\
  (dict_get s (by_symbol ps) = None <->
   forall p, In p ps -> pos_symbol p <> s) /\
  (forall p, dict_get s (by_symbol (ps ++ [p])) =
             if String.eqb s (pos_symbol p) then Some p
             else dict_get s (by_symbol ps)) /\
  NoDup (map fst (by_symbol ps)).
Proof.
  assert (Hsnoc : forall qs p,
            dict_get s (by_symbol (qs ++ [p])) =
            if String.eqb s (pos_symbol p) then Some p
            else dict_get s (by_symbol qs)).
  { intros qs p. rewrite by_symbol_snoc. apply dict_get_set. }
  split; [|split; [|split]].
  - induction ps as [|q ps IH] using rev_ind; [discriminate|].
    intros p. rewrite Hsnoc.
    destruct (String.eqb s (pos_symbol q)) eqn:E.
    + intro H. injection H as <-. apply String.eqb_eq in E.
      split; [apply in_or_app; right; left; reflexivity|auto].
    + intro H. destruct (IH p H) as [Hin Hs].
      split; [apply in_or_app; left; exact Hin|exact Hs].
  - induction ps as [|q ps IH] using rev_ind.
    + split; [intros _ p []|reflexivity].
    + rewrite Hsnoc. destruct (String.eqb s (pos_symbol q)) eqn:E.
      * split; [discriminate|]. intro H. exfalso.
        apply String.eqb_eq in E.
        apply (H q); [apply in_or_app; right; left; reflexivity|auto].
      * rewrite IH. apply String.eqb_neq in E. split.
        -- intros H p Hin. apply in_app_or in Hin.
           destruct Hin as [Hin|[<-|[]]]; [exact (H p Hin)|congruence].
        -- intros H p Hin. apply H. apply in_or_app. left. exact Hin.
  - exact (Hsnoc ps).
  - induction ps as [|q ps IH] using rev_ind; [constructor|].
    rewrite by_symbol_snoc. apply dict_set_nodup. exact IH.
Qed.

End PyDictFacts.

(* ------------------------------------------------------------------ *)
(** ** Symbol canonicalisation: shape of the result, letter case *)

Module SymbolShape.

Import Helpers HelpersFacts.
Open Scope list_scope.
Open Scope char_scope.

Lemma colon_upper (c : ascii) :
  Ascii.eqb (upper_char c) ":" = Ascii.eqb c ":".
Proof. by_cases_on c. Qed.

Lemma upper_before_colon (s : chars) :
  upper (before_colon s) = before_colon (upper s).
Proof.
  induction s as [|c s IH]; simpl; [reflexivity|].
  rewrite colon_upper. destruct (Ascii.eqb c ":"); simpl; [reflexivity|].
  rewrite IH. reflexivity.
Qed.

Lemma upper_drop_while (f : ascii -> bool) (s : chars) :
  (forall c, f (upper_char c) = f c) ->
  upper (drop_while f s) = drop_while f (upper s).
Proof.
  intro Hf. induction s as [|c s IH]; simpl; [reflexivity|].
  rewrite Hf. destruct (f c); [exact IH|reflexivity].
Qed.

Lemma upper_rstrip (f : ascii -> bool) (s : chars) :
  (forall c, f (upper_char c) = f c) ->
  upper (rstrip_with f s) = rstrip_with f (upper s).
Proof.
  intro Hf. unfold rstrip_with, upper.
  rewrite map_rev. fold (upper (drop_while f (rev s))).
  rewrite (upper_drop_while f (rev s) Hf). unfold upper.
  rewrite map_rev. reflexivity.
Qed.

Lemma upper_cleaned (l : chars) :
  upper (rstrip_dash (strip (before_colon l)))
  = rstrip_dash (strip (before_colon (upper l))).
Proof.
  unfold rstrip_dash, strip.
  rewrite (upper_rstrip is_dash _ is_dash_upper).
  rewrite (upper_rstrip is_space _ is_space_upper).
  rewrite (upper_drop_while is_space _ is_space_upper).
  rewrite upper_before_colon. reflexivity.
Qed.

(** The symbol as a function of its upper-case form alone. *)
Lemma canonical_by_upper (l : chars) :
  canonical l =
  match upper l with
  | [] => []
  | _ =>
    let u := rstrip_dash (strip (before_colon (upper l))) in
    if has_slash u then u
    else match split_on_quote quote_currencies u with
         | Some formatted => formatted
         | None => match u with
                   | [] => []
                   | _ => u ++ list_ascii_of_string "/USDT"
                   end
         end
  end.
Proof.
  destruct l as [|a l]; [reflexivity|].
  change (upper (a :: l)) with (upper_char a :: upper l) at 1.
  cbv iota zeta. rewrite <- upper_cleaned.
  unfold canonical. rewrite has_slash_upper. reflexivity.
Qed.

Open Scope string_scope.

(** X8.  Letter case does not matter: two symbols with the same upper-case
    form canonicalise to the same symbol; in particular a symbol and its
    upper-case form do. *)
Theorem canonical_ignores_case (x y : string) :
  (upper (list_ascii_of_string x) = upper (list_ascii_of_string y) ->
   format_symbol_for_ccxt x = format_symbol_for_ccxt y) /\
  format_symbol_for_ccxt
    (string_of_list_ascii (upper (list_ascii_of_string x)))
  = format_symbol_for_ccxt x.
Proof.
  split.
  - intro H. unfold format_symbol_for_ccxt.
    rewrite (canonical_by_upper (list_ascii_of_string x)).
    rewrite (canonical_by_upper (list_ascii_of_string y)).
    rewrite H. reflexivity.
  - unfold format_symbol_for_ccxt.
    rewrite list_ascii_of_string_of_list_ascii.
    rewrite (canonical_by_upper (upper (list_ascii_of_string x))).
    rewrite (canonical_by_upper (list_ascii_of_string x)).
    rewrite upper_idem. reflexivity.
Qed.

(** [btcusdt] and [BtcUsdt]. *)
Lemma canonical_ignores_case_witness :
  format_symbol_for_ccxt "btcusdt" = format_symbol_for_ccxt "BtcUsdt".
Proof.
  apply (proj1 (canonical_ignores_case "btcusdt" "BtcUsdt")). reflexivity.
Defined.

(** X9.  The shape of every result: it is empty exactly when nothing is
    left of the symbol after cleaning (the text before the first colon,
    stripped of whitespace and trailing dashes); otherwise it holds a
    slash; it never holds a colon, never starts with whitespace, and is in
    upper case. *)
Theorem canonical_shape (x : string) :
  let y := list_ascii_of_string (format_symbol_for_ccxt x) in
  (y = [] <-> cleaned x = []) /\
  (y <> [] -> has_slash y = true) /\
  forallb not_colon y = true /\
  starts_with is_space y = false /\
  upper y = y.
Proof.
  unfold format_symbol_for_ccxt, cleaned.
  rewrite list_ascii_of_string_of_list_ascii.
  set (l := list_ascii_of_string x). cbv zeta.
  destruct l as [|a l]; [repeat split; auto; discriminate|].
  destruct (cleaned_shape (a :: l)) as (Hcolon & Hhead & Hdash).
  set (c := rstrip_dash (strip (before_colon (a :: l)))) in *.
  assert (Hu_colon : forallb not_colon (upper c) = true)
    by (rewrite not_colon_upper_all; exact Hcolon).
  assert (Hu_head : starts_with is_space (upper c) = false)
    by (rewrite (starts_with_upper _ _ is_space_upper); exact Hhead).
  assert (Hjoin : forall p q,
            forallb not_colon p = true -> forallb upper_fixed p = true ->
            starts_with is_space p = false -> quote_ok q = true ->
            let z := (p ++ "/"%char :: q)%list in
            (z = [] <-> c = []) \/ c <> [] ->
            (z = [] <-> c = []) /\ (z <> [] -> has_slash z = true) /\
            forallb not_colon z = true /\ starts_with is_space z = false /\
            upper z = z).
  { intros p q Hp1 Hp2 Hp3 Hq z Hc.
    unfold quote_ok in Hq.
    apply andb_true_iff in Hq. destruct Hq as [Hq _].
    apply andb_true_iff in Hq. destruct Hq as [Hq _].
    apply andb_true_iff in Hq. destruct Hq as [Hq1 Hq2].
    assert (Hz : z <> []) by (unfold z; destruct p; discriminate).
    split; [|split; [|split; [|split]]].
    - destruct Hc as [Hc|Hc]; [exact Hc|].
      split; intro H; contradiction.
    - intros _. unfold z, has_slash. rewrite existsb_app. simpl.
      apply orb_true_r.
    - unfold z. rewrite forallb_app. simpl. rewrite Hp1, Hq1. reflexivity.
    - unfold z. destruct p as [|b p]; [reflexivity|exact Hp3].
    - apply upper_of_fixed. unfold z. rewrite forallb_app. simpl.
      rewrite Hp2, Hq2. reflexivity. }
  change (canonical (a :: l))
    with (if has_slash c then upper c
          else match split_on_quote quote_currencies (upper c) with
               | Some formatted => formatted
               | None => match upper c with
                         | [] => []
                         | _ => (upper c ++ list_ascii_of_string "/USDT")%list
                         end
               end).
  destruct (has_slash c) eqn:Hslash.
  - assert (Hne : c <> []) by (intro E; rewrite E in Hslash; discriminate).
    split; [|split; [|split; [|split]]].
    + split; intro H; [|contradiction].
      destruct c; [reflexivity|discriminate].
    + intros _. rewrite has_slash_upper. exact Hslash.
    + exact Hu_colon.
    + exact Hu_head.
    + apply upper_idem.
  - destruct (split_on_quote quote_currencies (upper c)) as [z|] eqn:Hsplit.
    + assert (Hne : c <> []).
      { intro E. rewrite E in Hsplit. vm_compute in Hsplit. discriminate. }
      apply split_on_quote_some in Hsplit.
      destruct Hsplit as (q & k & Hin & ->).
      apply Hjoin.
      * apply forallb_rstrip, forallb_firstn. exact Hu_colon.
      * apply forallb_rstrip, forallb_firstn. apply upper_is_fixed.
      * destruct (starts_with is_space (rstrip_dash (firstn k (upper c))))
          eqn:E; [|reflexivity].
        apply starts_with_rstrip, starts_with_firstn in E. congruence.
      * pose proof quotes_ok as Hall. rewrite forallb_forall in Hall.
        apply Hall. exact Hin.
      * right. exact Hne.
    + destruct c as [|b c']; [repeat split; auto; discriminate|].
      change (upper (b :: c')) with (upper_char b :: upper c') in *.
      cbv iota.
      apply (Hjoin (upper_char b :: upper c') (list_ascii_of_string "USDT")).
      * exact Hu_colon.
      * apply (upper_is_fixed (b :: c')).
      * exact Hu_head.
      * reflexivity.
      * right. discriminate.
Qed.

(** X10.  A symbol already in canonical shape is returned as it is: no
    colon, no whitespace at either end, no trailing dash, a slash, upper
    case. *)
Theorem canonical_keeps_canonical (x : string) :
  let l := list_ascii_of_string x in
  forallb not_colon l = true ->
  starts_with is_space l = false ->
  ends_with is_space l = false ->
  ends_with is_dash l = false ->
  has_slash l = true ->
  upper l = l ->
  format_symbol_for_ccxt x = x.
Proof.
  intros l H1 H2 H3 H4 H5 H6. unfold format_symbol_for_ccxt. fold l.
  rewrite canonical_fixed; auto.
  - apply string_of_list_ascii_of_string.
  - rewrite <- H6. apply upper_is_fixed.
Qed.

(** [BTC/USDT] stays [BTC/USDT]. *)
Lemma canonical_keeps_canonical_witness :
  format_symbol_for_ccxt "BTC/USDT" = "BTC/USDT".
Proof.
  apply (@canonical_keeps_canonical "BTC/USDT"); reflexivity.
Defined.

(** X11.  Where idempotence fails it always fails: when the cleaned symbol
    holds a slash and ends in whitespace, a second pass gives a different,
    shorter symbol. *)
Theorem canonical_second_pass_differs (x : string) :
  has_slash (cleaned x) && ends_with is_space (cleaned x) = true ->
  format_symbol_for_ccxt (format_symbol_for_ccxt x)
  <> format_symbol_for_ccxt x /\
  (String.length (format_symbol_for_ccxt (format_symbol_for_ccxt x))
   < String.length (format_symbol_for_ccxt x))%nat.
Proof.
  intro H.
  assert (Hlen : (String.length
                    (format_symbol_for_ccxt (format_symbol_for_ccxt x))
                  < String.length (format_symbol_for_ccxt x))%nat).
  { unfold format_symbol_for_ccxt.
    rewrite list_ascii_of_string_of_list_ascii.
    set (l := list_ascii_of_string x).
    assert (Hl : forall s, String.length (string_of_list_ascii s)
                           = List.length s).
    { induction s as [|c s IH]; simpl; [reflexivity|].
      rewrite IH. reflexivity. }
    rewrite !Hl.
    apply andb_true_iff in H. destruct H as [Hslash Hend].
    unfold cleaned in Hslash, Hend. fold l in Hslash, Hend.
    destruct l as [|a l]; [discriminate|].
    destruct (cleaned_shape (a :: l)) as (Hcolon & Hhead & Hdash).
    set (c := rstrip_dash (strip (before_colon (a :: l)))) in *.
    assert (E : canonical (a :: l) = upper c).
    { change (canonical (a :: l))
        with (if has_slash c then upper c
              else match split_on_quote quote_currencies (upper c) with
                   | Some formatted => formatted
                   | None =>
                     match upper c with
                     | [] => []
                     | _ => (upper c ++ list_ascii_of_string "/USDT")%list
                     end
                   end).
      rewrite Hslash. reflexivity. }
    rewrite E. set (y := upper c).
    assert (Hy_colon : forallb not_colon y = true)
      by (unfold y; rewrite not_colon_upper_all; exact Hcolon).
    assert (Hy_head : starts_with is_space y = false)
      by (unfold y; rewrite (starts_with_upper _ _ is_space_upper);
          exact Hhead).
    assert (Hy_end : ends_with is_space y = true)
      by (unfold y; rewrite (ends_with_upper _ _ is_space_upper); exact Hend).
    assert (Hy_slash : has_slash y = true)
      by (unfold y; rewrite has_slash_upper; exact Hslash).
    unfold canonical. destruct y as [|b y'] eqn:Hy; [discriminate|].
    rewrite <- Hy in *.
    rewrite (before_colon_id _ Hy_colon).
    unfold strip. rewrite (drop_while_id _ _ Hy_head).
    assert (Hkeep : has_slash (rstrip_dash (rstrip_with is_space y)) = true).
    { unfold has_slash, rstrip_dash.
      rewrite existsb_rstrip by apply dash_not_slash.
      rewrite existsb_rstrip by apply space_not_slash.
      exact Hy_slash. }
    rewrite Hkeep. unfold upper at 1. rewrite length_map.
    pose proof (rstrip_with_length is_dash (rstrip_with is_space y)).
    pose proof (rstrip_with_shorter is_space y Hy_end).
    unfold rstrip_dash. lia. }
  split; [|exact Hlen].
  intro Heq. rewrite Heq in Hlen. lia.
Qed.

(** [a/b -], whose first pass is [A/B] followed by a blank. *)
Lemma canonical_second_pass_differs_witness :
  (String.length (format_symbol_for_ccxt (format_symbol_for_ccxt "a/b -"))
   < String.length (format_symbol_for_ccxt "a/b -"))%nat.
Proof.
  apply (@canonical_second_pass_differs "a/b -"). reflexivity.
Defined.

End SymbolShape.

(* ------------------------------------------------------------------ *)
(** ** Replication engine: the orders placed, the summary *)

Module ReplicationOrders.

Import Calculator CalculatorLimits Replication ReplicationFacts Scenarios.
Open Scope Q_scope.
Open Scope string_scope.

Lemma read_is_no_order (s : string) (c : Call) (r : OrderRequest) :
  is_read s c -> c <> Call_place_order r.
Proof.
  intros [->|[->|[a ->]]]; discriminate.
Qed.

Lemma calculate_places_no_order (ad : Adapter) (lp : Position) (Ef El : Q)
    (L : option Q) (r : OrderRequest) :
  ~ In (Call_place_order r) (trace (calculate_follower_amount ad lp Ef El L)).
Proof.
  intro H. apply calculate_reads in H.
  exact (read_is_no_order H eq_refl).
Qed.

(** X12.  On the open path (a leader order that is not reduce-only) an
    order reaches the follower only after the calculator answered and the
    leverage it chose was sent to [set_leverage]; the order is a market
    order on the leader order's side, without a reduce-only flag, for the
    calculator's amount normalized once more.  The answer of
    [set_leverage] is not looked at: the order follows whether it was true
    or false. *)
Theorem open_order_shape (f : Follower) (o : Order) (lp : Position)
    (ltv : Q) (r : OrderRequest) :
  is_reduce_only o = false ->
  In (Call_place_order r) (trace (_replicate_for_single_follower f o lp ltv)) ->
  exists ad v cr b n pre,
    adapter_of f = Ret (Some ad) /\
    ad_get_total_account_value_usdt ad = Ret (Some v) /\ 1 < v /\
    result (calculate_follower_amount ad lp v ltv (intended_leverage o lp))
    = Ret (Some cr) /\
    ad_set_leverage ad (pos_symbol lp) (res_leverage cr) Isolated = Ret b /\
    0 < res_amount cr /\
    ad_normalize_amount ad (ord_symbol o) (res_amount cr) = Ret n /\
    r = open_request o n /\
    trace (_replicate_for_single_follower f o lp ltv) =
    (pre ++ [Call_set_leverage (pos_symbol lp) (res_leverage cr) Isolated;
             Call_normalize_amount (ord_symbol o) (res_amount cr);
             Call_place_order r])%list.
Proof.
  intros Hro. unfold _replicate_for_single_follower.
  trun.
  destruct (adapter_of f) as [[ad|]|]; trun; try no_order.
  destruct (ad_get_total_account_value_usdt ad) as [[v|]|] eqn:Hv; trun;
    try no_order.
  destruct (negb (truthy v) || Qle_bool v 1) eqn:Hguard; trun; try no_order.
  unfold prepare_order. rewrite Hro. trun.
  fold (intended_leverage o lp).
  set (calc := calculate_follower_amount ad lp v ltv (intended_leverage o lp)).
  pose proof (fun r' => @calculate_places_no_order ad lp v ltv
                          (intended_leverage o lp) r') as Hcalc.
  fold calc in Hcalc.
  destruct (result calc) as [[cr|]|] eqn:Hres; trun;
    try (intro Hin; exfalso; split_in Hin; try discriminate;
         exact (Hcalc _ Hin)).
  destruct (ad_set_leverage ad (pos_symbol lp) (res_leverage cr) Isolated)
    as [b|] eqn:Hlev; trun;
    try (intro Hin; exfalso; split_in Hin; try discriminate;
         exact (Hcalc _ Hin)).
  destruct (Qle_bool (res_amount cr) 0) eqn:Hpos; trun;
    try (intro Hin; exfalso; split_in Hin; try discriminate;
         exact (Hcalc _ Hin)).
  destruct (ad_normalize_amount ad (ord_symbol o) (res_amount cr))
    as [n|] eqn:Hn; trun;
    try (intro Hin; exfalso; split_in Hin; try discriminate;
         exact (Hcalc _ Hin)).
  fold (open_request o n).
  apply orb_false_iff in Hguard. destruct Hguard as [_ Hgt].
  apply Qle_bool_gt in Hgt, Hpos.
  destruct (ad_place_order ad (open_request o n)) as [fo|]; trun;
    [destruct (ord_status fo); trun|];
    (intro Hin;
     assert (E : r = open_request o n)
       by (split_in Hin; try discriminate; try (destruct (Hcalc _ Hin));
           injection Hin as <-; reflexivity);
     subst r;
     exists ad, v, cr, b, n, (Call_get_total_account_value_usdt :: trace calc);
     repeat split; auto;
     simpl; rewrite <- ?app_assoc; reflexivity).
Qed.

(** Scenario 1 of the specification, replicated to one follower. *)
Lemma open_order_shape_witness :
  exists n, open_request (leader_fill "BTC/USDT" Buy 1 false) n =
            open_request (leader_fill "BTC/USDT" Buy 1 false) (Some 0.100).
Proof.
  destruct (@open_order_shape
              {| user_id := "f";
                 adapter_of :=
                   Ret (Some (account (Some 5) (Some 0.001) 100 1000 [])) |}
              (leader_fill "BTC/USDT" Buy 1 false)
              (position "BTC/USDT" Long 1 100 5) 10000
              (open_request (leader_fill "BTC/USDT" Buy 1 false) (Some 0.100)))
    as (ad & v & cr & b & n & pre & _ & _ & _ & _ & _ & _ & _ & E & _).
  - reflexivity.
  - vm_compute. tauto.
  - exists n. symmetry. exact E.
Defined.

Lemma placed_orders_app (a b : list Call) :
  placed_orders (a ++ b) = (placed_orders a ++ placed_orders b)%list.
Proof.
  unfold placed_orders. apply flat_map_app.
Qed.

Lemma calculate_orders_nil (ad : Adapter) (lp : Position) (Ef El : Q)
    (L : option Q) :
  placed_orders (trace (calculate_follower_amount ad lp Ef El L)) = [].
Proof.
  pose proof (fun r => @calculate_places_no_order ad lp Ef El L r) as H.
  induction (trace (calculate_follower_amount ad lp Ef El L)) as [|c t IH];
    [reflexivity|].
  simpl. rewrite IH by (intros r Hr; apply (H r); right; exact Hr).
  destruct c; try reflexivity.
  exfalso. eapply H. left. reflexivity.
Qed.

(** One follower task, whole: [get_adapter] raised and so does the task,
    having called nothing; or it ends without an order and without
    success; or it placed exactly one market order in the leader order's
    symbol and its result is read off what the exchange answered. *)
Lemma follower_run (f : Follower) (o : Order) (lp : Position) (ltv : Q) :
  (adapter_of f = Raise /\
   _replicate_for_single_follower f o lp ltv = ([], Raise))
  \/
  (adapter_of f <> Raise /\
   exists fr,
     result (_replicate_for_single_follower f o lp ltv) = Ret fr /\
     is_success fr = false /\
     placed_orders (trace (_replicate_for_single_follower f o lp ltv)) = [])
  \/
  (exists ad r,
     adapter_of f = Ret (Some ad) /\
     placed_orders (trace (_replicate_for_single_follower f o lp ltv)) = [r] /\
     req_order_type r = Market /\ req_symbol r = ord_symbol o /\
     req_price r = None /\
     result (_replicate_for_single_follower f o lp ltv) =
     Ret match ad_place_order ad r with
         | Ret follower_order => result_of_order follower_order
         | Raise => Failed GeneralError
         end).
Proof.
  unfold _replicate_for_single_follower.
  destruct (adapter_of f) as [[ad|]|] eqn:Had;
    [| right; left; split; [discriminate|];
       eexists; repeat split; reflexivity
     | left; split; reflexivity].
  right. rewrite bind_lift_ret.
  assert (Hok : Ret (Some ad) <> @Raise (option Adapter)) by discriminate.
  trun.
  destruct (ad_get_total_account_value_usdt ad) as [[v|]|]; trun;
    try (left; split; [exact Hok|]; eexists; repeat split; reflexivity).
  destruct (negb (truthy v) || Qle_bool v 1); trun;
    try (left; split; [exact Hok|]; eexists; repeat split; reflexivity).
  unfold prepare_order.
  destruct (is_reduce_only o); trun.
  - destruct (ad_get_positions ad None) as [ps|]; trun;
      try (left; split; [exact Hok|]; eexists; repeat split; reflexivity).
    destruct (dict_get (pos_symbol lp) (by_symbol ps)) as [fp|]; trun;
      try (left; split; [exact Hok|]; eexists; repeat split; reflexivity).
    destruct (close_amount lp o fp) as [amt|]; trun;
      try (left; split; [exact Hok|]; eexists; repeat split; reflexivity).
    destruct (Qle_bool amt 0); trun;
      try (left; split; [exact Hok|]; eexists; repeat split; reflexivity).
    destruct (ad_normalize_amount ad (ord_symbol o) amt) as [n|]; trun;
      try (left; split; [exact Hok|]; eexists; repeat split; reflexivity).
    right. exists ad, (reduce_only_request o lp n).
    unfold result_of_order, reduce_only_request.
    destruct (ad_place_order ad _) as [fo|]; trun;
      [destruct (ord_status fo); trun|]; repeat split; reflexivity.
  - set (calc := calculate_follower_amount ad lp v ltv _).
    pose proof (calculate_orders_nil ad lp v ltv
                  match command_details_leverage (ord_raw_data o) with
                  | Some l => l
                  | None => Some (inject_Z (pos_leverage lp))
                  end) as Hnil.
    fold calc in Hnil.
    destruct (result calc) as [[cr|]|]; trun;
      try (left; split; [exact Hok|]; eexists; repeat split;
           try reflexivity;
           rewrite ?placed_orders_app, Hnil; reflexivity).
    destruct (ad_set_leverage ad (pos_symbol lp) (res_leverage cr) Isolated)
      as [b|]; trun;
      try (left; split; [exact Hok|]; eexists; repeat split;
           try reflexivity;
           rewrite ?placed_orders_app, Hnil; reflexivity).
    destruct (Qle_bool (res_amount cr) 0); trun;
      try (left; split; [exact Hok|]; eexists; repeat split;
           try reflexivity;
           rewrite ?placed_orders_app, Hnil; reflexivity).
    destruct (ad_normalize_amount ad (ord_symbol o) (res_amount cr))
      as [n|]; trun;
      try (left; split; [exact Hok|]; eexists; repeat split;
           try reflexivity;
           rewrite ?placed_orders_app, Hnil; reflexivity).
    right. exists ad, (open_request o n).
    unfold result_of_order, open_request.
    destruct (ad_place_order ad _) as [fo|]; trun;
      [destruct (ord_status fo); trun|]; repeat split; try reflexivity;
      rewrite ?placed_orders_app, Hnil; reflexivity.
Qed.

(** X13.  A follower task raises in one case only: [manager.get_adapter],
    awaited at line 107 before the [try] of line 112, raised; the task has
    then called nothing on any exchange.  Once [get_adapter] has answered,
    with an adapter or with [None], the task returns a result whatever the
    adapter does.  In every case at most one order is placed. *)
Theorem follower_task_settles (f : Follower) (o : Order) (lp : Position)
    (ltv : Q) :
  (result (_replicate_for_single_follower f o lp ltv) = Raise <->
   adapter_of f = Raise) /\
  (adapter_of f = Raise ->
   trace (_replicate_for_single_follower f o lp ltv) = []) /\
  (adapter_of f <> Raise ->
   exists fr, result (_replicate_for_single_follower f o lp ltv) = Ret fr) /\
  (List.length
     (placed_orders (trace (_replicate_for_single_follower f o lp ltv)))
   <= 1)%nat.
Proof.
  destruct (follower_run f o lp ltv)
    as [(Hr & Hrun)|[(Hok & fr & Hr & _ & Ht)
                    |(ad & r & Had & Ht & _ & _ & _ & Hr)]].
  - rewrite Hrun. repeat split; auto; simpl; try lia. contradiction.
  - rewrite Hr, Ht. repeat split; try discriminate; simpl; try lia.
    + intro H. contradiction.
    + intro H. contradiction.
    + intros _. exists fr. reflexivity.
  - rewrite Hr, Ht, Had. repeat split; try discriminate; simpl; try lia.
    intros _. eexists. reflexivity.
Qed.

(** X14.  A follower reported as skipped received no order. *)
Theorem skipped_follower_has_no_order (f : Follower) (o : Order)
    (lp : Position) (ltv : Q) (why : Reason) :
  result (_replicate_for_single_follower f o lp ltv) = Ret (Skipped why) ->
  placed_orders (trace (_replicate_for_single_follower f o lp ltv)) = [].
Proof.
  intro H.
  destruct (follower_run f o lp ltv)
    as [(_ & Hrun)|[(_ & fr & _ & _ & Ht)
                   |(ad & r & _ & _ & _ & _ & _ & Hr)]].
  - rewrite Hrun. reflexivity.
  - exact Ht.
  - exfalso. rewrite Hr in H. unfold result_of_order in H.
    destruct (ad_place_order ad r) as [fo|]; [destruct (ord_status fo)|];
      discriminate.
Qed.

(** A follower whose account holds one dollar. *)
Lemma skipped_follower_has_no_order_witness :
  placed_orders
    (trace (_replicate_for_single_follower
              {| user_id := "f";
                 adapter_of :=
                   Ret (Some (account (Some 5) (Some 0.001) 100 1 [])) |}
              (leader_fill "BTC/USDT" Buy 1 false)
              (position "BTC/USDT" Long 1 100 5) 10000)) = [].
Proof.
  apply (@skipped_follower_has_no_order _ _ _ _ AccountValueTooLow).
  vm_compute. reflexivity.
Defined.

(** X15.  A follower reported as a success received exactly one order, a
    market order in the leader order's symbol, which its exchange answered
    with a status other than failed; the reported order id and amount are
    that answer's id and filled amount. *)
Theorem successful_follower_has_one_order (f : Follower) (o : Order)
    (lp : Position) (ltv : Q) (id : option string) (amount : Q) :
  result (_replicate_for_single_follower f o lp ltv) = Ret (Success id amount) ->
  exists ad r follower_order,
    adapter_of f = Ret (Some ad) /\
    placed_orders (trace (_replicate_for_single_follower f o lp ltv)) = [r] /\
    req_order_type r = Market /\ req_symbol r = ord_symbol o /\
    req_price r = None /\
    ad_place_order ad r = Ret follower_order /\
    ord_status follower_order <> StFailed /\
    id = ord_id follower_order /\ amount = ord_filled follower_order.
Proof.
  intro H.
  destruct (follower_run f o lp ltv)
    as [(_ & Hrun)|[(_ & fr & Hr & Hs & _)
                   |(ad & r & Had & Ht & Hm & Hsym & Hp & Hr)]].
  - rewrite Hrun in H. discriminate.
  - rewrite Hr in H. injection H as ->. discriminate.
  - rewrite Hr in H. unfold result_of_order in H.
    destruct (ad_place_order ad r) as [fo|] eqn:Hpl; [|discriminate].
    exists ad, r, fo.
    destruct (ord_status fo) eqn:Hst; try discriminate;
      injection H as <- <-; repeat split; auto; discriminate.
Qed.

Lemma successful_follower_has_one_order_witness :
  exists r,
    placed_orders
      (trace (_replicate_for_single_follower
                {| user_id := "f";
                   adapter_of :=
                     Ret (Some (account (Some 5) (Some 0.001) 100 1000 [])) |}
                (leader_fill "BTC/USDT" Buy 1 false)
                (position "BTC/USDT" Long 1 100 5) 10000)) = [r].
Proof.
  destruct (@successful_follower_has_one_order
              {| user_id := "f";
                 adapter_of :=
                   Ret (Some (account (Some 5) (Some 0.001) 100 1000 [])) |}
              (leader_fill "BTC/USDT" Buy 1 false)
              (position "BTC/USDT" Long 1 100 5) 10000 (Some "1") 0.100)
    as (ad & r & fo & _ & Ht & _).
  - vm_compute. reflexivity.
  - exists r. exact Ht.
Defined.

(** What [asyncio.gather] returns has one result per task. *)
Lemma gathered_length (tasks : list (M FollowerResult))
    (results : list FollowerResult) :
  gathered tasks = Ret results ->
  List.length results = List.length tasks.
Proof.
  revert results. induction tasks as [|t rest IH]; intros results; simpl.
  - intro H. injection H as <-. reflexivity.
  - destruct (result t) as [r|]; [|discriminate].
    destruct (gathered rest) as [rs|]; [|discriminate].
    intro H. injection H as <-. simpl. rewrite (IH rs eq_refl).
    reflexivity.
Qed.

(** The tasks of a fan-out are gathered unless [get_adapter] raised for
    one of the followers. *)
Lemma gathered_fan_out (followers : list Follower) (o : Order)
    (lp : Position) (ltv : Q) :
  match gathered (fan_out followers o lp ltv) with
  | Ret results =>
    Forall2 (fun f r =>
               result (_replicate_for_single_follower f o lp ltv) = Ret r)
            followers results /\
    forall f, In f followers -> adapter_of f <> Raise
  | Raise => exists f, In f followers /\ adapter_of f = Raise
  end.
Proof.
  induction followers as [|f rest IH].
  - simpl. split; [constructor|intros f []].
  - unfold fan_out in *. cbn [map gathered].
    destruct (follower_run f o lp ltv)
      as [(Hr & Hrun)|[(Hok & fr & Hr & _)
                      |(ad & r & Had & _ & _ & _ & _ & Hr)]].
    + rewrite Hrun. simpl. exists f. split; [left; reflexivity|exact Hr].
    + rewrite Hr.
      destruct (gathered (map _ rest)) as [rs|].
      * destruct IH as [IH1 IH2]. split.
        -- constructor; [exact Hr|exact IH1].
        -- intros f' [<-|Hin]; [exact Hok|exact (IH2 f' Hin)].
      * destruct IH as (f' & Hin & Hf'). exists f'.
        split; [right; exact Hin|exact Hf'].
    + rewrite Hr.
      destruct (gathered (map _ rest)) as [rs|].
      * destruct IH as [IH1 IH2]. split.
        -- constructor; [exact Hr|exact IH1].
        -- intros f' [<-|Hin]; [rewrite Had; discriminate|exact (IH2 f' Hin)].
      * destruct IH as (f' & Hin & Hf'). exists f'.
        split; [right; exact Hin|exact Hf'].
Qed.

Lemma outcome_counts (results : list FollowerResult) :
  (List.length (filter is_success results)
   + List.length (filter is_failed results)
   + List.length (filter is_skipped results) = List.length results)%nat.
Proof.
  induction results as [|r rs IH]; [reflexivity|].
  destruct r; simpl; lia.
Qed.

(** X16.  A completed fan-out accounts for every follower once: the
    followers counted are those of the key file other than the leader,
    there is at least one, there is one detail per follower, and
    successful, failed and skipped add up to the total. *)
Theorem replicate_action_counts (followers : list Follower) (uid : string)
    (lad : option Adapter) (o : Order)
    (total successful failed skipped : nat) (details : list FollowerResult) :
  result (replicate_action followers uid lad o)
  = Ret (Completed total successful failed skipped details) ->
  total = List.length
            (filter (fun f => negb (String.eqb (user_id f) uid)) followers) /\
  (0 < total)%nat /\
  List.length details = total /\
  (successful + failed + skipped = total)%nat.
Proof.
  unfold replicate_action.
  set (fs := filter (fun f => negb (String.eqb (user_id f) uid)) followers).
  destruct fs as [|f0 rest] eqn:E; [mrun; discriminate|].
  destruct lad as [lad|]; [|mrun; discriminate].
  mrun.
  destruct (ad_get_total_account_value_usdt lad) as [[v|]|]; mrun;
    try discriminate.
  destruct (negb (truthy v) || Qle_bool v 1); mrun; try discriminate.
  destruct (ad_get_positions lad None) as [ps|]; mrun; try discriminate.
  destruct (leader_pos_to_replicate (by_symbol ps) o) as [lp|]; mrun;
    try discriminate.
  destruct (gathered (fan_out (f0 :: rest) o lp v)) as [rs|] eqn:Hg;
    mrun; [|discriminate].
  pose proof (gathered_length _ Hg) as Hlen.
  unfold fan_out in Hlen. rewrite length_map in Hlen.
  intro H. injection H as <- <- <- <- <-.
  pose proof (outcome_counts rs) as Hc. rewrite Hlen in Hc.
  repeat split; auto; simpl; lia.
Qed.

Lemma replicate_action_counts_witness :
  List.length [Success (Some "1") 0.100] = 1%nat /\
  (1 + 0 + 0 = 1)%nat.
Proof.
  destruct (@replicate_action_counts
              [{| user_id := "leader"; adapter_of := Ret None |};
               {| user_id := "f";
                  adapter_of :=
                    Ret (Some (account (Some 5) (Some 0.001) 100 1000
                                 [])) |}]
              "leader"
              (Some (account (Some 5) (Some 0.001) 100 10000
                       [position "BTC/USDT" Long 1 100 5]))
              (leader_fill "BTC/USDT" Buy 1 false)
              1%nat 1%nat 0%nat 0%nat [Success (Some "1") 0.100])
    as (_ & _ & Hd & Hc).
  - vm_compute. reflexivity.
  - split; [exact Hd|exact Hc].
Defined.

(** X17.  A follower can abort a fan-out in one way only, through
    [manager.get_adapter]: [asyncio.gather] at line 83 passes on the first
    exception of a task, and a task raises only when [get_adapter] did
    (line 107, before the [try]).  With the leader's adapter at hand and
    its account value and positions read without an exception,
    [replicate_action] returns a status when [get_adapter] raises for none
    of the followers other than the leader, whatever their adapters do;
    and it raises when the fan-out is reached (leader value above 1, a
    snapshot to replicate) and [get_adapter] raises for one of them. *)
Theorem replicate_action_returns (followers : list Follower) (uid : string)
    (lad : Adapter) (o : Order) :
  ad_get_total_account_value_usdt lad <> Raise ->
  ad_get_positions lad None <> Raise ->
  ((forall f, In f followers -> user_id f <> uid -> adapter_of f <> Raise) ->
   exists status,
     result (replicate_action followers uid (Some lad) o) = Ret status) /\
  (forall ltv lps lp f,
     ad_get_total_account_value_usdt lad = Ret (Some ltv) -> 1 < ltv ->
     ad_get_positions lad None = Ret lps ->
     leader_pos_to_replicate (by_symbol lps) o = Some lp ->
     In f followers -> user_id f <> uid -> adapter_of f = Raise ->
     result (replicate_action followers uid (Some lad) o) = Raise).
Proof.
  intros Hv Hps.
  assert (Hfs : forall f,
             In f (filter (fun f => negb (String.eqb (user_id f) uid))
                     followers) <->
             In f followers /\ user_id f <> uid).
  { intro f. rewrite filter_In. rewrite negb_true_iff.
    split; intros [H1 H2]; (split; [exact H1|]).
    - intro E. rewrite E, String.eqb_refl in H2. discriminate.
    - destruct (String.eqb (user_id f) uid) eqn:E; [|reflexivity].
      apply String.eqb_eq in E. contradiction. }
  split.
  - intro Hall. unfold replicate_action.
    destruct (filter _ followers) as [|f0 rest] eqn:E; [mrun; eauto|].
    mrun.
    destruct (ad_get_total_account_value_usdt lad) as [[v|]|]; mrun; eauto;
      [|contradiction].
    destruct (negb (truthy v) || Qle_bool v 1); mrun; eauto.
    destruct (ad_get_positions lad None) as [ps|]; mrun; [|contradiction].
    destruct (leader_pos_to_replicate (by_symbol ps) o) as [lp|]; mrun;
      eauto.
    pose proof (gathered_fan_out (f0 :: rest) o lp v) as Hg.
    destruct (gathered (fan_out (f0 :: rest) o lp v)) as [rs|]; mrun;
      [eauto|].
    exfalso. destruct Hg as (f & Hin & Hraise).
    apply Hfs in Hin. destruct Hin as [Hin Hne].
    exact (Hall f Hin Hne Hraise).
  - intros ltv lps lp f Hltv Hgt Hlps Hlp Hin Hne Hraise.
    assert (G1 : truthy ltv = true) by (apply truthy_neq; lra).
    assert (G2 : Qle_bool ltv 1 = false) by (apply Qle_bool_gt; exact Hgt).
    assert (Hin' : In f (filter (fun f => negb (String.eqb (user_id f) uid))
                           followers)) by (apply Hfs; auto).
    unfold replicate_action.
    destruct (filter _ followers) as [|f0 rest] eqn:E; [destruct Hin'|].
    mrun. rewrite Hltv. mrun. rewrite G1, G2. cbn [negb orb]. mrun.
    rewrite Hlps. mrun. rewrite Hlp. mrun.
    pose proof (gathered_fan_out (f0 :: rest) o lp ltv) as Hg.
    destruct (gathered (fan_out (f0 :: rest) o lp ltv)) as [rs|]; mrun;
      [|reflexivity].
    exfalso. destruct Hg as [_ Hnone]. exact (Hnone f Hin' Hraise).
Qed.

(** A follower without an adapter and one whose exchange is down. *)
Lemma replicate_action_returns_witness :
  exists status,
    result (replicate_action
              [{| user_id := "a"; adapter_of := Ret None |};
               {| user_id := "b";
                  adapter_of :=
                    Ret (Some (ticker_down
                                 (account (Some 5) (Some 0.001) 100 1000
                                    []))) |}]
              "leader"
              (Some (account (Some 5) (Some 0.001) 100 10000
                       [position "BTC/USDT" Long 1 100 5]))
              (leader_fill "BTC/USDT" Buy 1 false)) = Ret status.
Proof.
  destruct (@replicate_action_returns
              [{| user_id := "a"; adapter_of := Ret None |};
               {| user_id := "b";
                  adapter_of :=
                    Ret (Some (ticker_down
                                 (account (Some 5) (Some 0.001) 100 1000
                                    []))) |}]
              "leader"
              (account (Some 5) (Some 0.001) 100 10000
                 [position "BTC/USDT" Long 1 100 5])
              (leader_fill "BTC/USDT" Buy 1 false)) as [H _].
  - vm_compute. discriminate.
  - vm_compute. discriminate.
  - apply H. intros f [<-|[<-|[]]] _; discriminate.
Defined.

End ReplicationOrders.

(* ------------------------------------------------------------------ *)
(** ** Reconciliation loop: the orders of one pass *)

Module SyncOrders.

Import Calculator CalculatorLimits Sync Scenarios ReplicationFacts ReplicationOrders.
Open Scope Q_scope.
Open Scope string_scope.

(** The only call of [_should_late_join] is the ticker of the leader
    position's symbol. *)
Lemma should_late_join_trace (now_ms : Q) (lp : Position) (ad : Adapter) :
  trace (_should_late_join now_ms lp ad) = [Call_get_ticker (pos_symbol lp)].
Proof.
  unfold _should_late_join. trun.
  destruct (ad_get_ticker ad (pos_symbol lp)) as [ticker|]; trun;
    [|reflexivity].
  destruct (last ticker) as [p|]; trun; [|reflexivity].
  destruct (price_change_of p (pos_entry_price lp)) as [d|]; trun;
    [|reflexivity].
  destruct (Qltb _ d); trun; [reflexivity|].
  destruct (timestamp_set (pos_timestamp_ms lp)) as [ts|]; trun;
    [|reflexivity].
  destruct (Qltb _ _); trun; reflexivity.
Qed.

(** The order of one late join. *)
Lemma late_join_order (now_ms : Q) (ad : Adapter) (lp : Position)
    (ftv ltv : Q) (r : OrderRequest) :
  In (Call_place_order r) (trace (late_join_one now_ms ad lp ftv ltv)) ->
  exists cr,
    result (_should_late_join now_ms lp ad) = Ret true /\
    result (calculate_follower_amount ad lp ftv ltv
              (Some (inject_Z (pos_leverage lp)))) = Ret (Some cr) /\
    0 < res_amount cr /\
    r = late_join_request lp (res_amount cr).
Proof.
  unfold late_join_one. trun. rewrite should_late_join_trace.
  destruct (result (_should_late_join now_ms lp ad)) as [[|]|] eqn:Hadm; trun;
    try (intro Hin; exfalso; split_in Hin; discriminate).
  set (calc := calculate_follower_amount ad lp ftv ltv _).
  pose proof (fun r' => @calculate_places_no_order ad lp ftv ltv
                          (Some (inject_Z (pos_leverage lp))) r') as Hcalc.
  fold calc in Hcalc.
  destruct (ad_set_leverage ad (pos_symbol lp) (pos_leverage lp) Isolated)
    as [b0|]; trun;
    try (intro Hin; exfalso; split_in Hin; discriminate).
  destruct (result calc) as [[cr|]|] eqn:Hres; trun;
    try (intro Hin; exfalso; split_in Hin; try discriminate;
         exact (Hcalc _ Hin)).
  destruct (Qltb 0 (res_amount cr)) eqn:Hpos; trun;
    try (intro Hin; exfalso; split_in Hin; try discriminate;
         exact (Hcalc _ Hin)).
  fold (late_join_request lp (res_amount cr)).
  apply Qltb_lt in Hpos.
  destruct (ad_set_leverage ad (pos_symbol lp) (res_leverage cr) Isolated)
    as [b1|]; trun;
    try (intro Hin; exfalso; split_in Hin; try discriminate;
         exact (Hcalc _ Hin)).
  destruct (ad_place_order ad (late_join_request lp (res_amount cr)))
    as [fo|]; trun;
    (intro Hin; exists cr; repeat split; auto;
     split_in Hin; try discriminate; try (destruct (Hcalc _ Hin));
     injection Hin as <-; reflexivity).
Qed.

(** The orders of the late-join pass. *)
Lemma late_join_orders (now_ms : Q) (ad : Adapter)
    (follower_positions : dict Position) (ftv ltv : Q)
    (items : list (string * Position)) (r : OrderRequest) :
  In (Call_place_order r)
     (trace (late_joins now_ms ad follower_positions ftv ltv items)) ->
  exists symbol lp cr,
    In (symbol, lp) items /\
    dict_mem symbol follower_positions = false /\
    result (_should_late_join now_ms lp ad) = Ret true /\
    result (calculate_follower_amount ad lp ftv ltv
              (Some (inject_Z (pos_leverage lp)))) = Ret (Some cr) /\
    0 < res_amount cr /\
    r = late_join_request lp (res_amount cr).
Proof.
  induction items as [|[symbol lp] rest IH]; simpl.
  - intros [].
  - trun. destruct (dict_mem symbol follower_positions) eqn:Hmem; trun.
    + simpl. intro Hin.
      destruct (IH Hin) as (s' & p' & cr & Hin' & H).
      exists s', p', cr. split; [right; exact Hin'|exact H].
    + intro Hin. apply in_app_or in Hin. destruct Hin as [Hin|Hin].
      * destruct (late_join_order _ _ _ _ _ _ Hin) as (cr & H).
        exists symbol, lp, cr. split; [left; reflexivity|].
        split; [exact Hmem|exact H].
      * destruct (result (late_join_one now_ms ad lp ftv ltv));
          [|destruct Hin].
        destruct (IH Hin) as (s' & p' & cr & Hin' & H).
        exists s', p', cr. split; [right; exact Hin'|exact H].
Qed.

(** X18.  Every order one reconciliation pass places on a follower is
    either the close of an orphan (a follower position whose symbol the
    leader does not hold: reduce-only, market, opposite side, full
    contracts) or a late join (a leader position whose symbol the follower
    does not hold, admitted by [_should_late_join] and sized by the
    calculator at the leader position's leverage: market, on the side of
    the leader position, for the calculator's positive amount, without a
    reduce-only flag).  Nothing is placed for a symbol both hold. *)
Theorem sync_order_shape (now_ms : Q) (ad : Adapter)
    (leader_positions : dict Position) (ltv : Q) (r : OrderRequest) :
  In (Call_place_order r)
     (trace (_synchronize_follower now_ms (Some ad) leader_positions ltv)) ->
  exists ps ftv,
    ad_get_positions ad None = Ret ps /\
    ad_get_total_account_value_usdt ad = Ret (Some ftv) /\ 1 < ftv /\
    ((exists symbol pos,
        In (symbol, pos) (by_symbol ps) /\
        dict_mem symbol leader_positions = false /\
        r = orphan_close_request symbol pos) \/
     (exists symbol lp cr,
        In (symbol, lp) leader_positions /\
        dict_mem symbol (by_symbol ps) = false /\
        result (_should_late_join now_ms lp ad) = Ret true /\
        result (calculate_follower_amount ad lp ftv ltv
                  (Some (inject_Z (pos_leverage lp)))) = Ret (Some cr) /\
        0 < res_amount cr /\
        r = late_join_request lp (res_amount cr))).
Proof.
  unfold _synchronize_follower. trun.
  destruct (ad_get_positions ad None) as [ps|] eqn:Hps; trun;
    try (intro Hin; exfalso; split_in Hin; discriminate).
  destruct (ad_get_total_account_value_usdt ad) as [[ftv|]|] eqn:Hv; trun;
    try (intro Hin; exfalso; split_in Hin; discriminate).
  destruct (negb (truthy ftv) || Qle_bool ftv 1) eqn:Hguard; trun;
    try (intro Hin; exfalso; split_in Hin; discriminate).
  apply orb_false_iff in Hguard. destruct Hguard as [_ Hgt].
  apply Qle_bool_gt in Hgt.
  intro Hin. exists ps, ftv. repeat split; auto.
  split_in Hin; try discriminate.
  - left. destruct (SyncFacts.orphan_orders _ _ _ _ Hin)
      as (symbol & pos & H1 & H2 & H3 & _).
    exists symbol, pos. repeat split; auto.
  - right.
    destruct (result (close_orphans ad leader_positions (by_symbol ps)));
      [|destruct Hin].
    exact (late_join_orders _ _ _ _ _ _ _ Hin).
  - destruct (result (close_orphans ad leader_positions (by_symbol ps)));
      [destruct (result (late_joins now_ms ad (by_symbol ps) ftv ltv
                           leader_positions))|];
      destruct Hin.
Qed.

(** A follower that holds an ETH position the leader no longer has. *)
Lemma sync_order_shape_witness :
  exists ps ftv,
    ad_get_positions
      (account (Some 5) (Some 0.001) 100 1000
         [position "ETH/USDT" Short 2 100 5]) None = Ret ps /\
    ad_get_total_account_value_usdt
      (account (Some 5) (Some 0.001) 100 1000
         [position "ETH/USDT" Short 2 100 5]) = Ret (Some ftv) /\ 1 < ftv.
Proof.
  destruct (@sync_order_shape 0
              (account (Some 5) (Some 0.001) 100 1000
                 [position "ETH/USDT" Short 2 100 5])
              [] 10000
              (orphan_close_request "ETH/USDT"
                 (position "ETH/USDT" Short 2 100 5)))
    as (ps & ftv & H1 & H2 & H3 & _).
  - vm_compute. tauto.
  - exists ps, ftv. repeat split; assumption.
Defined.

Lemma close_orphans_quiet (ad : Adapter) (leader_positions : dict Position)
    (items : list (string * Position)) :
  (forall symbol pos, In (symbol, pos) items ->
                      dict_mem symbol leader_positions = true) ->
  close_orphans ad leader_positions items = ret tt.
Proof.
  induction items as [|[symbol pos] rest IH]; intro H; [reflexivity|].
  simpl. rewrite (H symbol pos (or_introl eq_refl)).
  rewrite IH by (intros s p Hin; apply (H s p); right; exact Hin).
  reflexivity.
Qed.

Lemma late_joins_quiet (now_ms : Q) (ad : Adapter)
    (follower_positions : dict Position) (ftv ltv : Q)
    (items : list (string * Position)) :
  (forall symbol lp, In (symbol, lp) items ->
                     dict_mem symbol follower_positions = true) ->
  late_joins now_ms ad follower_positions ftv ltv items = ret tt.
Proof.
  induction items as [|[symbol lp] rest IH]; intro H; [reflexivity|].
  simpl. rewrite (H symbol lp (or_introl eq_refl)).
  rewrite IH by (intros s p Hin; apply (H s p); right; exact Hin).
  reflexivity.
Qed.

(** X19.  A follower that holds exactly the leader's symbols is left
    alone: the pass reads its positions and its account value and calls
    nothing else, neither ticker nor leverage nor order, whatever the
    sizes of the positions on either side. *)
Theorem sync_in_step_is_quiet (now_ms : Q) (ad : Adapter)
    (leader_positions : dict Position) (ltv : Q) (ps : list Position) :
  ad_get_positions ad None = Ret ps ->
  (forall symbol pos, In (symbol, pos) (by_symbol ps) ->
                      dict_mem symbol leader_positions = true) ->
  (forall symbol lp, In (symbol, lp) leader_positions ->
                     dict_mem symbol (by_symbol ps) = true) ->
  trace (_synchronize_follower now_ms (Some ad) leader_positions ltv) =
  [Call_get_positions None; Call_get_total_account_value_usdt].
Proof.
  intros Hps Hf Hl. unfold _synchronize_follower. trun. rewrite Hps. trun.
  rewrite (close_orphans_quiet ad leader_positions (by_symbol ps) Hf).
  destruct (ad_get_total_account_value_usdt ad) as [[ftv|]|]; trun;
    try reflexivity.
  destruct (negb (truthy ftv) || Qle_bool ftv 1); trun; try reflexivity.
  rewrite (late_joins_quiet now_ms ad (by_symbol ps) ftv ltv
             leader_positions Hl).
  reflexivity.
Qed.

(** The follower holds 0.01 BTC where the leader holds 1 BTC. *)
Lemma sync_in_step_is_quiet_witness :
  trace (_synchronize_follower 0
           (Some (account (Some 5) (Some 0.001) 100 1000
                    [position "BTC/USDT" Long 0.01 100 5]))
           (by_symbol [position "BTC/USDT" Long 1 100 5]) 10000) =
  [Call_get_positions None; Call_get_total_account_value_usdt].
Proof.
  apply (@sync_in_step_is_quiet 0 _ _ 10000
           [position "BTC/USDT" Long 0.01 100 5]).
  - reflexivity.
  - intros symbol pos [E|[]]. injection E as <- <-. reflexivity.
  - intros symbol lp [E|[]]. injection E as <- <-. reflexivity.
Defined.

(** X20.  An admitted late join sends the leader position's own leverage to
    the follower's exchange right after the ticker, before any sizing: the
    value is the leader's as it stands, not yet capped by
    [FOLLOWER_MAX_LEVERAGE], and it stays in force when the calculator then
    gives up. *)
Theorem late_join_sets_leader_leverage (now_ms : Q) (ad : Adapter)
    (lp : Position) (ftv ltv : Q) :
  result (_should_late_join now_ms lp ad) = Ret true ->
  exists rest,
    trace (late_join_one now_ms ad lp ftv ltv) =
    Call_get_ticker (pos_symbol lp)
    :: Call_set_leverage (pos_symbol lp) (pos_leverage lp) Isolated :: rest /\
    (result (calculate_follower_amount ad lp ftv ltv
               (Some (inject_Z (pos_leverage lp)))) = Ret None ->
     ad_set_leverage ad (pos_symbol lp) (pos_leverage lp) Isolated <> Raise ->
     forall s l m, In (Call_set_leverage s l m) rest -> False).
Proof.
  intro H. unfold late_join_one. trun.
  rewrite should_late_join_trace, H. trun.
  eexists. split; [reflexivity|].
  intros Hnone Hlev s l m.
  destruct (ad_set_leverage ad (pos_symbol lp) (pos_leverage lp) Isolated);
    [|contradiction].
  trun. rewrite Hnone. trun. rewrite app_nil_r.
  intro Hin. apply calculate_reads in Hin.
  destruct Hin as [Hin|[Hin|[a' Hin]]]; discriminate.
Qed.

(** A leader at 100x: the follower's exchange is asked for 100x. *)
Lemma late_join_sets_leader_leverage_witness :
  exists rest,
    trace (late_join_one 0
             (account (Some 5) (Some 0.001) 100 1000 [])
             (position "BTC/USDT" Long 1 100 100) 1000 10000) =
    Call_get_ticker "BTC/USDT"
    :: Call_set_leverage "BTC/USDT" 100 Isolated :: rest.
Proof.
  destruct (@late_join_sets_leader_leverage 0
              (account (Some 5) (Some 0.001) 100 1000 [])
              (position "BTC/USDT" Long 1 100 100) 1000 10000)
    as (rest & E & _).
  - vm_compute. reflexivity.
  - exists rest. exact E.
Defined.

End SyncOrders.

(* ------------------------------------------------------------------ *)
(** ** Close, scale-out and scale-in handlers *)

Module HandlersFacts.

Import Calculator CommandExecutor Handlers Scenarios ReplicationFacts.
Open Scope Q_scope.
Open Scope string_scope.

(** X21.  Closing a position is two calls and no more: the positions of
    the canonical symbol are fetched, and the first of them with that
    symbol is closed by a reduce-only market order for its full contracts
    on the opposite side.  The amount is neither checked against the
    market limits nor normalized, and the command's own amount, order type
    and price play no part. *)
Theorem close_position_order (ad : Adapter) (c : Command) (r : OrderRequest) :
  In (Call_place_order r) (trace (_handle_close_position ad c)) ->
  exists positions target_pos,
    ad_get_positions ad (Some [format_symbol_for_ccxt (cmd_symbol c)])
    = Ret positions /\
    find_position (format_symbol_for_ccxt (cmd_symbol c)) positions
    = Some target_pos /\
    r = close_request (format_symbol_for_ccxt (cmd_symbol c)) target_pos /\
    trace (_handle_close_position ad c) =
    [Call_get_positions (Some [format_symbol_for_ccxt (cmd_symbol c)]);
     Call_place_order r].
Proof.
  unfold _handle_close_position. trun.
  destruct (ad_get_positions ad _) as [ps|] eqn:Hps; trun; try no_order.
  destruct (find_position (format_symbol_for_ccxt (cmd_symbol c)) ps) as [p|] eqn:Hfind; trun; try no_order.
  destruct (ad_place_order ad _) as [fo|]; trun;
    (intro Hin; split_in Hin; try discriminate; injection Hin as <-;
     exists ps, p; repeat split; auto).
Qed.

(** A 4 BTC long, closed by a command that names 1 BTC. *)
Lemma close_position_order_witness :
  trace (_handle_close_position
           (account (Some 5) (Some 0.001) 30000 10000
              [position "BTC/USDT" Long 4 30000 5])
           scale_out_command) =
  [Call_get_positions (Some ["BTC/USDT"]);
   Call_place_order
     (close_request "BTC/USDT" (position "BTC/USDT" Long 4 30000 5))].
Proof.
  destruct (@close_position_order
              (account (Some 5) (Some 0.001) 30000 10000
                 [position "BTC/USDT" Long 4 30000 5])
              scale_out_command
              (close_request "BTC/USDT" (position "BTC/USDT" Long 4 30000 5)))
    as (ps & p & _ & _ & _ & E).
  - vm_compute. tauto.
  - exact E.
Defined.

(** X22.  A scale-out never grows or flips a position: whatever it places
    is a reduce-only order in the canonical symbol, on the side opposite
    to the position found, for the amount [adjust_amount_for_limits] made
    of a positive request, and that amount does not exceed the position's
    contracts. *)
Theorem scale_out_order_shape (ad : Adapter) (c : Command)
    (r : OrderRequest) :
  In (Call_place_order r) (trace (_handle_scale_out ad c)) ->
  exists positions target_pos fa,
    ad_get_positions ad (Some [format_symbol_for_ccxt (cmd_symbol c)])
    = Ret positions /\
    find_position (format_symbol_for_ccxt (cmd_symbol c)) positions
    = Some target_pos /\
    0 < original_amount_to_close c target_pos /\
    result (adjust_amount_for_limits ad
              (format_symbol_for_ccxt (cmd_symbol c))
              (original_amount_to_close c target_pos)) = Ret (Some fa) /\
    fa <= pos_contracts target_pos /\
    r = scale_out_request (format_symbol_for_ccxt (cmd_symbol c)) c
          target_pos fa.
Proof.
  unfold _handle_scale_out. trun.
  destruct (ad_get_positions ad _) as [ps|] eqn:Hps; trun; try no_order.
  destruct (find_position (format_symbol_for_ccxt (cmd_symbol c)) ps) as [p|] eqn:Hfind; trun; try no_order.
  destruct (Qle_bool (original_amount_to_close c p) 0) eqn:Hpos; trun;
    try no_order.
  set (adj := adjust_amount_for_limits ad _ _).
  pose proof (fun r' => @CommandExecutorFacts.adjust_places_no_order ad
                          (format_symbol_for_ccxt (cmd_symbol c))
                          (original_amount_to_close c p) r') as Hadj.
  fold adj in Hadj.
  destruct (result adj) as [[fa|]|] eqn:Hres; trun;
    try (intro Hin; exfalso; split_in Hin; try discriminate;
         exact (Hadj _ Hin)).
  destruct (Qltb (pos_contracts p) fa) eqn:Hle; trun;
    try (intro Hin; exfalso; split_in Hin; try discriminate;
         exact (Hadj _ Hin)).
  apply Qle_bool_gt in Hpos. apply Qltb_ge in Hle.
  fold (scale_out_request (format_symbol_for_ccxt (cmd_symbol c)) c p fa).
  intro Hin. exists ps, p, fa. repeat split; auto.
  split_in Hin; try discriminate; try (destruct (Hadj _ Hin)).
  injection Hin as <-. reflexivity.
Qed.

(** One BTC out of a 4 BTC long. *)
Lemma scale_out_order_shape_witness :
  exists fa, fa <= 4.
Proof.
  destruct (@scale_out_order_shape
              (account (Some 5) (Some 0.001) 30000 10000
                 [position "BTC/USDT" Long 4 30000 5])
              scale_out_command
              (scale_out_request "BTC/USDT" scale_out_command
                 (position "BTC/USDT" Long 4 30000 5) 1.000))
    as (ps & p & fa & Hps & Hfind & _ & _ & Hle & _).
  - vm_compute. tauto.
  - vm_compute in Hps. injection Hps as <-.
    vm_compute in Hfind. injection Hfind as <-.
    exists fa. exact Hle.
Defined.

(** The order of a scale-in, when there is one. *)
Lemma scale_in_placed (ad : Adapter) (c : Command) (r : OrderRequest) :
  In (Call_place_order r) (trace (_handle_scale_in ad c)) ->
  exists positions target_pos amount fa,
    ad_get_positions ad (Some [format_symbol_for_ccxt (cmd_symbol c)])
    = Ret positions /\
    find_position (format_symbol_for_ccxt (cmd_symbol c)) positions
    = Some target_pos /\
    cmd_amount c = Some amount /\ 0 < amount /\
    result (adjust_amount_for_limits ad
              (format_symbol_for_ccxt (cmd_symbol c)) amount)
    = Ret (Some fa) /\
    wrong_side (pos_side target_pos) (side_of_action (cmd_action c)) = false /\
    r = scale_in_request (format_symbol_for_ccxt (cmd_symbol c)) c fa.
Proof.
  unfold _handle_scale_in. trun.
  destruct (ad_get_positions ad _) as [ps|] eqn:Hps; trun; try no_order.
  destruct (find_position (format_symbol_for_ccxt (cmd_symbol c)) ps) as [p|] eqn:Hfind; trun; try no_order.
  destruct (cmd_amount c) as [amount|] eqn:Ha; cbn [required]; trun;
    try no_order.
  destruct (Qle_bool amount 0) eqn:Hpos; trun; try no_order.
  set (adj := adjust_amount_for_limits ad _ _).
  pose proof (fun r' => @CommandExecutorFacts.adjust_places_no_order ad
                          (format_symbol_for_ccxt (cmd_symbol c))
                          amount r') as Hadj.
  fold adj in Hadj.
  destruct (result adj) as [[fa|]|] eqn:Hres; trun;
    try (intro Hin; exfalso; split_in Hin; try discriminate;
         exact (Hadj _ Hin)).
  destruct (wrong_side (pos_side p) (side_of_action (cmd_action c)))
    eqn:Hside; trun;
    try (intro Hin; exfalso; split_in Hin; try discriminate;
         exact (Hadj _ Hin)).
  apply Qle_bool_gt in Hpos.
  intro Hin. exists ps, p, amount, fa. repeat split; auto.
  destruct (ad_place_order ad _); revert Hin; trun; intro Hin;
    split_in Hin; try discriminate; try (destruct (Hadj _ Hin));
    injection Hin as <-; reflexivity.
Qed.

(** X23.  A scale-in only ever adds to the position it found: whatever it
    places is a buy on a long or a sell on a short, flagged
    [reduceOnly: False], for the amount [adjust_amount_for_limits] made of
    the command's positive amount. *)
Theorem scale_in_order_shape (ad : Adapter) (c : Command) (r : OrderRequest) :
  In (Call_place_order r) (trace (_handle_scale_in ad c)) ->
  exists target_pos,
    find_position (format_symbol_for_ccxt (cmd_symbol c))
      match ad_get_positions ad
              (Some [format_symbol_for_ccxt (cmd_symbol c)]) with
      | Ret positions => positions
      | Raise => []
      end = Some target_pos /\
    (pos_side target_pos = Long /\ cmd_action c = ABuy /\ req_side r = Buy \/
     pos_side target_pos = Short /\ cmd_action c = ASell /\ req_side r = Sell) /\
    p_reduceOnly (req_params r) = Some false /\
    req_symbol r = format_symbol_for_ccxt (cmd_symbol c) /\
    exists amount fa,
      cmd_amount c = Some amount /\ 0 < amount /\
      result (adjust_amount_for_limits ad
                (format_symbol_for_ccxt (cmd_symbol c)) amount)
      = Ret (Some fa) /\
      req_amount r = Some fa.
Proof.
  intro Hin.
  destruct (scale_in_placed ad c r Hin)
    as (ps & p & amount & fa & Hps & Hfind & Ha & Hpos & Hadj & Hside & ->).
  exists p. rewrite Hps. split; [exact Hfind|].
  split.
  - unfold scale_in_request. cbn [req_side].
    destruct (pos_side p), (cmd_action c); try discriminate; auto.
  - split; [reflexivity|]. split; [reflexivity|].
    exists amount, fa. repeat split; auto.
Qed.

(** A buy handed to the scale-in handler over a long position. *)
Lemma scale_in_order_shape_witness :
  exists target_pos,
    find_position "BTC/USDT" [position "BTC/USDT" Long 4 30000 5]
    = Some target_pos /\ pos_side target_pos = Long.
Proof.
  destruct (@scale_in_order_shape
              (account (Some 5) (Some 0.001) 30000 10000
                 [position "BTC/USDT" Long 4 30000 5])
              buy_command
              (scale_in_request "BTC/USDT" buy_command 0.100))
    as (p & Hfind & [(Hs & _)|(_ & Hact & _)] & _).
  - vm_compute. tauto.
  - exists p. split; [exact Hfind|exact Hs].
  - discriminate.
Defined.

(** X24.  The dispatcher routes to the scale-in handler only commands
    whose action is [scale_in], and the handler takes the order side from
    that same action: it is then neither [buy] nor [sell], the side check
    of line 260 fails for a long as for a short position, and no order is
    ever placed. *)
Theorem dispatched_scale_in_places_no_order (ad : Adapter) (c : Command) :
  cmd_action c = AScaleIn ->
  placed_orders (trace (_handle_scale_in ad c)) = [] /\
  forall order, result (_handle_scale_in ad c) <> Ret (inr order).
Proof.
  intro Hact. split.
  - pose proof (fun r => @scale_in_placed ad c r) as H.
    induction (trace (_handle_scale_in ad c)) as [|call t IH];
      [reflexivity|].
    simpl. rewrite IH by (intros r Hr; apply (H r); right; exact Hr).
    destruct call; try reflexivity.
    exfalso.
    destruct (H request (or_introl eq_refl))
      as (ps & p & amount & fa & _ & _ & _ & _ & _ & Hside & _).
    rewrite Hact in Hside. destruct (pos_side p); discriminate.
  - intro order. unfold _handle_scale_in. rewrite Hact. mrun.
    destruct (ad_get_positions ad _) as [ps|]; mrun; try discriminate.
    destruct (find_position (format_symbol_for_ccxt (cmd_symbol c)) ps) as [p|]; mrun; try discriminate.
    destruct (cmd_amount c) as [amount|]; cbn [required]; mrun;
      try discriminate.
    destruct (Qle_bool amount 0); mrun; try discriminate.
    destruct (result (adjust_amount_for_limits ad _ amount)) as [[fa|]|];
      mrun; try discriminate.
    destruct (pos_side p); cbn [side_of_action wrong_side]; mrun;
      discriminate.
Qed.

(** Adding 1 BTC to a 4 BTC long through the dispatcher. *)
Lemma dispatched_scale_in_places_no_order_witness :
  placed_orders
    (trace (_handle_scale_in
              (account (Some 5) (Some 0.001) 30000 10000
                 [position "BTC/USDT" Long 4 30000 5])
              {| cmd_action := AScaleIn; cmd_symbol := "BTC/USDT";
                 cmd_amount := Some 1; cmd_percentage := None;
                 cmd_leverage := None; cmd_margin_mode := None;
                 cmd_order_type := None; cmd_price := None;
                 cmd_post_only := false; cmd_params := None |})) = [].
Proof.
  apply dispatched_scale_in_places_no_order. reflexivity.
Defined.

End HandlersFacts.

(* ------------------------------------------------------------------ *)
(** ** The adapter pool *)

Module ExchangeManagerFacts.

Import PyDict ExchangeManager Scenarios.
Open Scope string_scope.

Section Pool.

Variable connect : ApiInfo -> outcome Adapter.
Variable close : ApiInfo -> outcome unit.

(** What a call that answers with an adapter leaves behind: the adapter
    sits in the pool under the key of the [api_info] that was used. *)
Lemma get_adapter_pooled (self self' : Manager) (api_info : ApiInfo)
    (events : list Event) (adapter : Adapter) :
  get_adapter connect close self api_info = (self', events, Ret (Some adapter)) ->
  exists used user_id exchange_id,
    api_info_to_use self api_info = Some used /\
    ai_user_id used = Some user_id /\
    ai_exchange_id used = Some exchange_id /\
    _leader_api_info self' = _leader_api_info self /\
    dict_get (cache_key_of user_id (lower exchange_id))
      (_active_adapters self') = Some adapter.
Proof.
  unfold get_adapter.
  destruct (api_info_to_use self api_info) as [used|] eqn:Hused;
    [|discriminate].
  destruct (ai_user_id used) as [u|] eqn:Hu; [|discriminate].
  destruct (ai_exchange_id used) as [e|] eqn:He; [|discriminate].
  cbv zeta.
  destruct (dict_get (cache_key_of u (lower e)) (_active_adapters self))
    as [cached|] eqn:Hget.
  - intro H. injection H as <- _ <-. exists used, u, e. repeat split; auto.
  - destruct (String.eqb (lower e) "binance"); [|discriminate].
    destruct (connect used) as [ad|].
    + intro H. injection H as <- _ <-. exists used, u, e.
      repeat split; auto. simpl.
      rewrite PyDictFacts.dict_get_set, String.eqb_refl. reflexivity.
    + destruct (close used); discriminate.
Qed.

(** A request answered from the pool. *)
Lemma get_adapter_hit (self : Manager) (api_info used : ApiInfo)
    (user_id exchange_id : string) (adapter : Adapter) :
  api_info_to_use self api_info = Some used ->
  ai_user_id used = Some user_id ->
  ai_exchange_id used = Some exchange_id ->
  dict_get (cache_key_of user_id (lower exchange_id))
    (_active_adapters self) = Some adapter ->
  get_adapter connect close self api_info = (self, [], Ret (Some adapter)).
Proof.
  intros Hused Hu He Hget. unfold get_adapter.
  rewrite Hused, Hu, He. cbv zeta. rewrite Hget. reflexivity.
Qed.

(** X25.  The pool answers the second time: once [get_adapter] has
    returned an adapter for an [api_info], asking again with the same
    [api_info] returns that adapter, connects nothing and leaves the
    manager as it is. *)
Theorem get_adapter_is_cached (self self' : Manager) (api_info : ApiInfo)
    (events : list Event) (adapter : Adapter) :
  get_adapter connect close self api_info = (self', events, Ret (Some adapter)) ->
  get_adapter connect close self' api_info = (self', [], Ret (Some adapter)).
Proof.
  intro H.
  destruct (get_adapter_pooled _ _ H)
    as (used & u & e & Hused & Hu & He & Hl & Hget).
  apply get_adapter_hit with used u e; auto.
  unfold api_info_to_use in *. rewrite Hl. exact Hused.
Qed.

(** X26.  [get_adapter] only ever adds to the pool: the stored leader
    information is untouched, an adapter pooled before is still pooled
    under its key, and a call that does not answer with an adapter leaves
    the manager exactly as it was; a connection is attempted at most
    once per call, and only for a key that was not pooled. *)
Theorem get_adapter_keeps_pool (self self' : Manager) (api_info : ApiInfo)
    (events : list Event) (res : outcome (option Adapter)) :
  get_adapter connect close self api_info = (self', events, res) ->
  _leader_api_info self' = _leader_api_info self /\
  (forall key adapter,
     dict_get key (_active_adapters self) = Some adapter ->
     dict_get key (_active_adapters self') = Some adapter) /\
  ((forall adapter, res <> Ret (Some adapter)) -> self' = self) /\
  (events = [] \/
   exists used user_id exchange_id,
     ai_user_id used = Some user_id /\
     ai_exchange_id used = Some exchange_id /\
     dict_get (cache_key_of user_id (lower exchange_id))
       (_active_adapters self) = None /\
     (events = [Connect used] \/ events = [Connect used; Close used])).
Proof.
  unfold get_adapter.
  destruct (api_info_to_use self api_info) as [used|];
    [|intro H; injection H as <- <- <-; auto].
  destruct (ai_user_id used) as [u|] eqn:Hu;
    [|intro H; injection H as <- <- <-; auto].
  destruct (ai_exchange_id used) as [e|] eqn:He;
    [|intro H; injection H as <- <- <-; auto].
  cbv zeta.
  destruct (dict_get (cache_key_of u (lower e)) (_active_adapters self))
    as [cached|] eqn:Hget;
    [intro H; injection H as <- <- <-; auto|].
  destruct (String.eqb (lower e) "binance");
    [|intro H; injection H as <- <- <-; auto].
  destruct (connect used) as [ad|].
  - intro H. injection H as <- <- <-.
    split; [reflexivity|]. split; [|split].
    + intros key adapter Hk. simpl. rewrite PyDictFacts.dict_get_set.
      destruct (String.eqb key (cache_key_of u (lower e))) eqn:E;
        [|exact Hk].
      apply String.eqb_eq in E. subst key. rewrite Hget in Hk.
      discriminate.
    + intro Hno. exfalso. apply (Hno ad). reflexivity.
    + right. exists used, u, e. auto.
  - intro H. injection H as <- <- <-.
    split; [reflexivity|]. split; [auto|]. split; [auto|].
    right. exists used, u, e. auto.
Qed.

(** X27.  The pool key is the user id and the lower-cased exchange id
    joined by an underscore, and nothing else: after an adapter was
    returned for one complete [api_info], any other complete [api_info]
    that yields the same key receives that very adapter without a
    connection of its own, whatever its credentials and even when its
    exchange is not a supported one. *)
Theorem pool_key_ignores_credentials (self self' : Manager)
    (first second : ApiInfo) (events : list Event) (adapter : Adapter)
    (u1 e1 u2 e2 : string) :
  ai_user_id first = Some u1 -> ai_exchange_id first = Some e1 ->
  ai_user_id second = Some u2 -> ai_exchange_id second = Some e2 ->
  u1 <> "leader" -> u2 <> "leader" ->
  complete second = true ->
  cache_key_of u1 (lower e1) = cache_key_of u2 (lower e2) ->
  get_adapter connect close self first = (self', events, Ret (Some adapter)) ->
  get_adapter connect close self' second = (self', [], Ret (Some adapter)).
Proof.
  intros Hu1 He1 Hu2 He2 Hl1 Hl2 Hc Hkey H.
  assert (Huse : forall m info u,
             ai_user_id info = Some u -> u <> "leader" ->
             api_info_to_use m info =
             if complete info then Some info else None).
  { intros m info u Hu Hne. unfold api_info_to_use, is_leader. rewrite Hu.
    destruct (String.eqb u "leader") eqn:E; [|reflexivity].
    apply String.eqb_eq in E. contradiction. }
  destruct (get_adapter_pooled _ _ H)
    as (used & u & e & Hused & Hu & He & _ & Hget).
  rewrite (Huse self first u1 Hu1 Hl1) in Hused.
  destruct (complete first); [|discriminate].
  injection Hused as <-. rewrite Hu1 in Hu. rewrite He1 in He.
  injection Hu as <-. injection He as <-.
  apply get_adapter_hit with second u2 e2; auto.
  - rewrite (Huse self' second u2 Hu2 Hl2), Hc. reflexivity.
  - rewrite <- Hkey. exact Hget.
Qed.

(** X28.  The leader is served from what [set_leader_api_info] stored and
    from nothing else.  After incomplete leader information was handed
    in, every leader request is refused without a connection attempt,
    even when an adapter for the leader is pooled; after complete
    information, what a leader request carries beside its user id plays
    no part, and the request raises only when the connection fails and
    closing the failed adapter raises too. *)
Theorem leader_served_from_stored_info (self : Manager)
    (leader_info request : ApiInfo) :
  is_leader request = true ->
  let self' := set_leader_api_info leader_info self in
  (complete leader_info = false ->
   get_adapter connect close self' request = (self', [], Ret None)) /\
  (complete leader_info = true ->
   (forall request', is_leader request' = true ->
      get_adapter connect close self' request' =
      get_adapter connect close self' request) /\
   (snd (get_adapter connect close self' request) = Raise ->
    connect leader_info = Raise /\ close leader_info = Raise)).
Proof.
  intros Hl self'. split.
  - intro Hc. unfold get_adapter, api_info_to_use. rewrite Hl.
    unfold self', set_leader_api_info. simpl. rewrite Hc. reflexivity.
  - intro Hc. split.
    + intros request' Hl'. unfold get_adapter, api_info_to_use.
      rewrite Hl, Hl'. reflexivity.
    + unfold get_adapter, api_info_to_use. rewrite Hl.
      unfold self', set_leader_api_info. simpl. rewrite Hc.
      unfold complete in Hc.
      destruct (ai_user_id leader_info) as [u|]; [|discriminate].
      destruct (ai_exchange_id leader_info) as [e|];
        [|rewrite andb_false_r in Hc; discriminate].
      destruct (dict_get _ _); [discriminate|].
      destruct (String.eqb (lower e) "binance"); [|discriminate].
      destruct (connect leader_info); [discriminate|].
      destruct (close leader_info); [discriminate|].
      auto.
Qed.

End Pool.

(** A follower asks twice. *)
Lemma get_adapter_is_cached_witness :
  exists self' adapter,
    get_adapter exchange_up closes self' (keys "u1" "Binance" "k1")
    = (self', [], Ret (Some adapter)).
Proof.
  eexists. eexists.
  apply (@get_adapter_is_cached exchange_up closes init _
           (keys "u1" "Binance" "k1") [Connect (keys "u1" "Binance" "k1")]).
  reflexivity.
Defined.

(** An exchange that is down: the pool stays empty. *)
Lemma get_adapter_keeps_pool_witness :
  fst (fst (get_adapter exchange_down closes init
              (keys "u1" "binance" "k1"))) = init.
Proof.
  destruct (@get_adapter_keeps_pool exchange_down closes init
              (fst (fst (get_adapter exchange_down closes init
                           (keys "u1" "binance" "k1"))))
              (keys "u1" "binance" "k1")
              [Connect (keys "u1" "binance" "k1");
               Close (keys "u1" "binance" "k1")]
              (Ret None)) as (_ & _ & H & _).
  - reflexivity.
  - apply H. discriminate.
Defined.

(** User [a_b] on [binance], then user [a] on an exchange named
    [b_binance], with other credentials. *)
Lemma pool_key_ignores_credentials_witness :
  exists self' adapter,
    get_adapter exchange_up closes self' (keys "a" "b_binance" "k2")
    = (self', [], Ret (Some adapter)).
Proof.
  eexists. eexists.
  apply (@pool_key_ignores_credentials exchange_up closes init _
           (keys "a_b" "binance" "k1") (keys "a" "b_binance" "k2")
           [Connect (keys "a_b" "binance" "k1")] _
           "a_b" "binance" "a" "b_binance");
    try reflexivity; discriminate.
Defined.

(** A leader request after leader information without a secret. *)
Lemma leader_served_from_stored_info_witness :
  get_adapter exchange_up closes
    (set_leader_api_info
       {| ai_user_id := Some "leader"; ai_exchange_id := Some "binance";
          ai_api_key := Some "k"; ai_api_secret := None;
          ai_api_passphrase := None |} init)
    (keys "leader" "binance" "k")
  = (set_leader_api_info
       {| ai_user_id := Some "leader"; ai_exchange_id := Some "binance";
          ai_api_key := Some "k"; ai_api_secret := None;
          ai_api_passphrase := None |} init, [], Ret None).
Proof.
  destruct (@leader_served_from_stored_info exchange_up closes init
              {| ai_user_id := Some "leader";
                 ai_exchange_id := Some "binance";
                 ai_api_key := Some "k"; ai_api_secret := None;
                 ai_api_passphrase := None |}
              (keys "leader" "binance" "k") eq_refl) as [H _].
  apply H. reflexivity.
Defined.

End ExchangeManagerFacts.

(* ------------------------------------------------------------------ *)
(** ** The key file *)

Module KeyFileFacts.

Import ExchangeManager KeyFile Scenarios.
Open Scope string_scope.

Section Loading.

Variable decrypt_data : option string -> outcome (option string).

(** What one entry contributes. *)
Lemma load_entry_some (only : bool) (user_id exchange_id : string)
    (api_info : Entry) (info : ApiInfo) :
  load_entry decrypt_data only user_id exchange_id api_info = Ret (Some info) ->
  en_status api_info = Some "active" /\
  (only = true -> en_copy_trade_enabled api_info = true) /\
  ai_user_id info = Some user_id /\
  ai_exchange_id info = Some (lower exchange_id) /\
  decrypt_data (en_api_key api_info) = Ret (ai_api_key info) /\
  decrypt_data (en_api_secret api_info) = Ret (ai_api_secret info) /\
  has (ai_api_key info) = true /\ has (ai_api_secret info) = true.
Proof.
  unfold load_entry.
  destruct (en_status api_info) as [status|]; [|discriminate].
  destruct (String.eqb status "active") eqn:Hs; [|discriminate].
  apply String.eqb_eq in Hs. subst status.
  destruct (negb only || en_copy_trade_enabled api_info) eqn:Hf;
    [|discriminate].
  cbn [andb].
  destruct (decrypt_data (en_api_key api_info)) as [k|]; [|discriminate].
  destruct (decrypt_data (en_api_secret api_info)) as [sec|]; [|discriminate].
  destruct (match en_api_passphrase api_info with
            | Some passphrase => decrypt_data passphrase
            | None => Ret None
            end) as [pass|]; [|discriminate].
  destruct (has k) eqn:Hk; [|discriminate].
  destruct (has sec) eqn:Hsec; [|discriminate].
  cbn [negb orb]. intro H. injection H as <-. simpl.
  repeat split; auto.
  intros ->. exact Hf.
Qed.

Lemma load_entries_in (only : bool) (items : list (string * string * Entry))
    (acc : list ApiInfo) (info : ApiInfo) :
  In info (load_entries decrypt_data only items acc) ->
  In info acc \/
  exists user_id exchange_id api_info,
    In (user_id, exchange_id, api_info) items /\
    load_entry decrypt_data only user_id exchange_id api_info
    = Ret (Some info).
Proof.
  revert acc. induction items as [|[[u e] a] rest IH]; intros acc; simpl.
  - auto.
  - destruct (load_entry decrypt_data only u e a) as [[i|]|] eqn:E.
    + intro H. destruct (IH _ H) as [Hacc|(u' & e' & a' & Hin & Hl)].
      * apply in_app_or in Hacc. destruct Hacc as [Hacc|[<-|[]]]; [auto|].
        right. exists u, e, a. auto.
      * right. exists u', e', a'. auto.
    + intro H. destruct (IH _ H) as [Hacc|(u' & e' & a' & Hin & Hl)];
        [auto|].
      right. exists u', e', a'. auto.
    + auto.
Qed.

Lemma items_of_in (data : list (string * list (string * Entry)))
    (u e : string) (a : Entry) :
  In (u, e, a) (items_of data) ->
  exists exchanges, In (u, exchanges) data /\ In (e, a) exchanges.
Proof.
  unfold items_of. intro H. apply in_flat_map in H.
  destruct H as ([u' exs] & Hin & H). apply in_map_iff in H.
  destruct H as ([e' a'] & E & Hin'). simpl in E. injection E as <- <- <-.
  exists exs. auto.
Qed.

(** X29.  Whatever the loader returns can be traced to an active entry of
    the file and carries that entry's user id, its exchange id in lower
    case, and a decrypted key and secret that are both non-empty; with
    the copy-trade filter on, the entry has [copy_trade_enabled] true.
    With a non-empty user id and exchange id it is therefore complete in
    the sense of [ExchangeManager.get_adapter], which will not refuse it
    for a missing key. *)
Theorem loaded_keys_are_usable
    (file : option (list (string * list (string * Entry))))
    (only : bool) (info : ApiInfo) :
  In info (load_api_keys_from_file decrypt_data file only) ->
  exists data user_id exchanges exchange_id api_info,
    file = Some data /\
    In (user_id, exchanges) data /\ In (exchange_id, api_info) exchanges /\
    en_status api_info = Some "active" /\
    (only = true -> en_copy_trade_enabled api_info = true) /\
    ai_user_id info = Some user_id /\
    ai_exchange_id info = Some (lower exchange_id) /\
    decrypt_data (en_api_key api_info) = Ret (ai_api_key info) /\
    decrypt_data (en_api_secret api_info) = Ret (ai_api_secret info) /\
    has (ai_api_key info) = true /\ has (ai_api_secret info) = true /\
    (user_id <> "" -> exchange_id <> "" -> complete info = true).
Proof.
  unfold load_api_keys_from_file. destruct file as [data|]; [|intros []].
  intro H. apply load_entries_in in H.
  destruct H as [[]|(u & e & a & Hin & Hl)].
  apply items_of_in in Hin. destruct Hin as (exs & Hu & He).
  apply load_entry_some in Hl.
  destruct Hl as (Hs & Hc & Hui & Hei & Hk & Hsec & Hhk & Hhs).
  exists data, u, exs, e, a. repeat split; auto.
  intros Hne Hne'. unfold complete. rewrite Hui, Hei, Hhk, Hhs.
  assert (Hu' : has (Some u) = true).
  { simpl. destruct (String.eqb u "") eqn:E; [|reflexivity].
    apply String.eqb_eq in E. contradiction. }
  assert (He' : has (Some (lower e)) = true).
  { simpl. destruct e; [contradiction|reflexivity]. }
  rewrite Hu', He'. reflexivity.
Qed.

(** X30.  The copy-trade filter acts as if the entries without
    [copy_trade_enabled] were not in the file: they are passed over
    before anything of theirs is decrypted, so that a failure of
    [decrypt_data] on one of them cannot cut the result short. *)
Theorem copy_trade_filter_drops_entries
    (items : list (string * string * Entry)) (active_apis : list ApiInfo) :
  load_entries decrypt_data true items active_apis =
  load_entries decrypt_data false
    (filter (fun item => en_copy_trade_enabled (snd item)) items)
    active_apis.
Proof.
  revert active_apis.
  induction items as [|[[u e] a] rest IH]; intro acc; [reflexivity|].
  cbn [filter snd].
  destruct (en_copy_trade_enabled a) eqn:Hc.
  - cbn [load_entries].
    assert (E : load_entry decrypt_data true u e a
                = load_entry decrypt_data false u e a).
    { unfold load_entry. rewrite Hc. cbn [negb orb].
      destruct (en_status a) as [st|]; [|reflexivity].
      destruct (String.eqb st "active"); reflexivity. }
    rewrite E.
    destruct (load_entry decrypt_data false u e a) as [[i|]|];
      [apply IH|apply IH|reflexivity].
  - cbn [load_entries].
    assert (E : load_entry decrypt_data true u e a = Ret None).
    { unfold load_entry. rewrite Hc. cbn [negb orb].
      rewrite andb_false_r. reflexivity. }
    rewrite E. apply IH.
Qed.

End Loading.

(** Two followers, one of them with copy trading on. *)
Lemma loaded_keys_are_usable_witness :
  complete (keys "u2" "binance" "k2") = true.
Proof.
  destruct (@loaded_keys_are_usable decrypt_data_fallback
              (Some [("u1", [("Binance", entry false "k1")]);
                     ("u2", [("Binance", entry true "k2")])])
              true (keys "u2" "binance" "k2"))
    as (data & u & exs & e & a & _ & _ & _ & _ & _ & Hu & He & _ & _ & _ & _
        & Hc).
  - vm_compute. left. reflexivity.
  - injection Hu as <-. apply Hc; [discriminate|].
    destruct e; [discriminate|discriminate].
Defined.

End KeyFileFacts.
